(** * gen_dispatch.py: the dispatch-table generator of libepoxy

    A shallow embedding of the model-building and resolution-planning part of
    [src/gen_dispatch.py]: the classes [GLProvider], [GLFunction] and
    [Generator], the passes run by the script's main loop, and the resolver
    code the generator emits, together with the properties the specification
    states about them.

    Conventions of the embedding.
    - A Python [str] is a [string]; comparison of strings is the code-point
      order [String.compare].
    - A Python [dict] is an association list in insertion order ([PyDict]):
      assignment to an existing key keeps the key's position, assignment to a
      new key appends, [del] of a missing key raises [KeyError].
    - A reference to a [GLFunction] object is the name under which the object
      is stored in [Generator.functions] (the script stores every function
      under its own name and removes none once aliases are resolved).
    - A raised exception, a failed [assert] and [sys.exit] are the [Raise]
      outcome of [result] (assertions are executed: the interpreter does not
      run with -O); a loop that has not finished within the given number of
      iterations is [OutOfFuel]. *)

From Stdlib Require Import List String Ascii Bool Arith Lia NArith.
From Stdlib Require Import Permutation Sorted.
Import ListNotations.
Local Open Scope list_scope.
Local Open Scope string_scope.

Set Implicit Arguments.

(* ================================================================== *)
(** * Definitions *)
(* ================================================================== *)

(** ** Outcomes of generator passes *)

Inductive Exn : Type :=
| KeyError (key : string)
| AssertionError
| AttributeError
| SystemExit (msg : string).

Inductive result (A : Type) : Type :=
| Ok (a : A)
| Raise (e : Exn)
| OutOfFuel.

Arguments Ok {A} a.
Arguments Raise {A} e.
Arguments OutOfFuel {A}.

Definition bind {A B : Type} (m : result A) (k : A -> result B) : result B :=
  match m with
  | Ok a => k a
  | Raise e => Raise e
  | OutOfFuel => OutOfFuel
  end.

Notation "x <- m ;; k" := (bind m (fun x => k))
  (at level 61, m at next level, right associativity).

(** [for x in xs: body], the loop body threading the state [s]. *)
Fixpoint for_each {A S : Type} (body : A -> S -> result S) (xs : list A) (s : S)
  : result S :=
  match xs with
  | [] => Ok s
  | x :: xs' => s' <- body x s ;; for_each body xs' s'
  end.

(** ** Python strings *)

Module Str.

Definition quote : ascii := "034"%char.
Definition backslash : ascii := "092"%char.

(** The two-character string made of a backslash and a double quote, which
    GLProvider.__init__ removes from the label. *)
Definition escaped_quote : string := String backslash (String quote EmptyString).

(** [s.replace(old, new)] for a non-empty [old]: occurrences are found from
    the left and do not overlap.  [skip] counts the characters of a matched
    occurrence still to be passed over. *)
Fixpoint replace_from (skip : nat) (old new s : string) : string :=
  match s with
  | EmptyString => EmptyString
  | String c s' =>
      match skip with
      | S k => replace_from k old new s'
      | O =>
          if prefix old s
          then new ++ replace_from (String.length old - 1)%nat old new s'
          else String c (replace_from 0 old new s')
      end
  end.

Definition replace (old new s : string) : string := replace_from 0 old new s.

(** [sub in s] *)
Fixpoint contains (sub s : string) : bool :=
  if prefix sub s then true
  else match s with
       | EmptyString => false
       | String _ s' => contains sub s'
       end.

(** [c in s] for a single character. *)
Fixpoint has_char (c : ascii) (s : string) : bool :=
  match s with
  | EmptyString => false
  | String d s' => Ascii.eqb c d || has_char c s'
  end.

(** [sep.join(parts)] *)
Fixpoint join (sep : string) (parts : list string) : string :=
  match parts with
  | [] => EmptyString
  | [p] => p
  | p :: rest => p ++ sep ++ join sep rest
  end.

(** [s.split(sep)] for a one-character separator. *)
Fixpoint split (sep : ascii) (s : string) : list string :=
  match s with
  | EmptyString => [EmptyString]
  | String c s' =>
      if Ascii.eqb c sep then EmptyString :: split sep s'
      else match split sep s' with
           | [] => [String c EmptyString]
           | w :: ws => String c w :: ws
           end
  end.

Definition is_digit (c : ascii) : bool :=
  ((48 <=? nat_of_ascii c) && (nat_of_ascii c <=? 57))%nat.

Definition digit_value (c : ascii) : nat := (nat_of_ascii c - 48)%nat.

Definition digit_char (d : nat) : ascii := ascii_of_nat (48 + d)%nat.

(** [str(n)] for the two-digit version numbers the generator formats. *)
Definition of_version (n : nat) : string :=
  if (n <? 10)%nat then String (digit_char n) EmptyString
  else String (digit_char (n / 10)%nat)
              (String (digit_char (n mod 10)%nat) EmptyString).

Definition leb (a b : string) : bool := String.leb a b.



Definition mem (x : string) (l : list string) : bool :=
  existsb (String.eqb x) l.

End Str.

(** ** Python dictionaries with string keys *)

Module PyDict.

Definition t (V : Type) : Type := list (string * V).

Definition empty {V : Type} : t V := [].

Fixpoint get {V : Type} (k : string) (d : t V) : option V :=
  match d with
  | [] => None
  | (k', v) :: d' => if String.eqb k k' then Some v else get k d'
  end.

Definition mem {V : Type} (k : string) (d : t V) : bool :=
  match get k d with Some _ => true | None => false end.

(** [d[k] = v] *)
Fixpoint set {V : Type} (k : string) (v : V) (d : t V) : t V :=
  match d with
  | [] => [(k, v)]
  | (k', v') :: d' =>
      if String.eqb k k' then (k', v) :: d' else (k', v') :: set k v d'
  end.

Fixpoint remove {V : Type} (k : string) (d : t V) : t V :=
  match d with
  | [] => []
  | (k', v') :: d' =>
      if String.eqb k k' then d' else (k', v') :: remove k d'
  end.

(** [del d[k]] *)
Definition del {V : Type} (k : string) (d : t V) : result (t V) :=
  if mem k d then Ok (remove k d) else Raise (KeyError k).

(** [d[k]] *)
Definition lookup {V : Type} (k : string) (d : t V) : result V :=
  match get k d with
  | Some v => Ok v
  | None => Raise (KeyError k)
  end.

Definition keys {V : Type} (d : t V) : list string := map fst d.
Definition values {V : Type} (d : t V) : list V := map snd d.

(** Number of entries stored under [k]. *)
Definition count {V : Type} (k : string) (d : t V) : nat :=
  List.length (filter (fun kv => String.eqb k (fst kv)) d).

(** The invariant of a dictionary: no key occurs twice. *)
Definition wf {V : Type} (d : t V) : Prop := NoDup (keys d).

End PyDict.

(** ** Stable sorting, as [list.sort(key=...)] and [sorted] *)

Module Sort.
Section WithKey.
Variables (A K : Type) (le : K -> K -> bool) (key : A -> K).

Fixpoint insert (x : A) (l : list A) : list A :=
  match l with
  | [] => [x]
  | y :: l' => if le (key x) (key y) then x :: y :: l' else y :: insert x l'
  end.

(** Elements with equal keys keep their order: an element goes in front of
    the first element of the sorted tail whose key is not smaller. *)
Fixpoint sort (l : list A) : list A :=
  match l with
  | [] => []
  | x :: l' => insert x (sort l')
  end.

(** The order of the keys, on the elements. *)
Definition key_le (x y : A) : Prop := le (key x) (key y) = true.
End WithKey.
End Sort.

(** [sorted(names)] on strings. *)
Definition sorted_strings (l : list string) : list string :=
  Sort.sort Str.leb (fun s => s) l.

(** ** class GLProvider *)

Module GLProvider.

Record t : Type := make {
  (** C code deciding whether the function is available. *)
  condition : string;
  (** The human-readable description of the condition. *)
  condition_name : string;
  (** Format string of the C code fetching the symbol. *)
  loader : string;
  (** The name of the function to be loaded. *)
  name : string;
  (** The C enum name referring to this provider. *)
  enum : string
}.

(** [GLProvider.__init__] *)
Definition init (condition condition_name loader name : string) : t :=
  let enum := condition_name in
  let enum := Str.replace " " "_" enum in
  let enum := Str.replace Str.escaped_quote "" enum in
  let enum := Str.replace "." "_" enum in
  let enum := "PROVIDER_" ++ enum in
  make condition condition_name loader name enum.

End GLProvider.

(** ** class GLFunction

    The attributes [ptr_type], [wrapped_name] and [public] are read by the
    textual emitters only and are left out. *)

Module GLFunction.

(** An entry of [self.args]: the dictionary has the key [group] only for
    the types GLenum and GLbitfield, and its value may be [None]. *)
Record arg : Type := make_arg {
  arg_type : string;
  arg_name : string;
  arg_group : option (option string)
}.

Record t : Type := make {
  name : string;
  ret_type : string;
  providers : PyDict.t GLProvider.t;
  args : list arg;
  (** The name of the function this one is an alias of, or [name]. *)
  alias_name : string;
  (** After alias resolution, the function this one is an alias of. *)
  alias_func : option string;
  (** For the root of an alias tree, the functions marked as its aliases. *)
  alias_exts : list string
}.

(** [GLFunction.__init__] *)
Definition init (ret_type name : string) : t :=
  make name ret_type PyDict.empty [] name None [].

Definition set_providers (ps : PyDict.t GLProvider.t) (f : t) : t :=
  make (name f) (ret_type f) ps (args f) (alias_name f) (alias_func f)
       (alias_exts f).

Definition set_args (a : list arg) (f : t) : t :=
  make (name f) (ret_type f) (providers f) a (alias_name f) (alias_func f)
       (alias_exts f).

Definition set_alias_name (n : string) (f : t) : t :=
  make (name f) (ret_type f) (providers f) (args f) n (alias_func f)
       (alias_exts f).

Definition set_alias_func (r : option string) (f : t) : t :=
  make (name f) (ret_type f) (providers f) (args f) (alias_name f) r
       (alias_exts f).

Definition set_alias_exts (l : list string) (f : t) : t :=
  make (name f) (ret_type f) (providers f) (args f) (alias_name f)
       (alias_func f) l.

(** The property [args_decl] *)
Definition args_decl (f : t) : string :=
  let result :=
    Str.join ", " (map (fun a => arg_type a ++ " " ++ arg_name a) (args f)) in
  if String.eqb result "" then "void" else result.

(** [add_arg(arg_type, arg_name, group=group)] *)
Definition add_arg (arg_type arg_name : string) (group : option string)
           (f : t) : t :=
  let arg_name :=
    if String.eqb arg_name "near" then "hither"
    else if String.eqb arg_name "far" then "yon"
    else arg_name in
  let a :=
    if Str.mem arg_type ["GLenum"; "GLbitfield"]
    then make_arg arg_type arg_name (Some group)
    else make_arg arg_type arg_name None in
  set_args (args f ++ [a]) f.

(** [add_provider(condition, loader, condition_name)] *)
Definition add_provider (condition loader condition_name : string) (f : t)
  : t :=
  set_providers
    (PyDict.set condition_name
                (GLProvider.init condition condition_name loader (name f))
                (providers f))
    f.

End GLFunction.

(** ** The registry document

    The XML document after element lookup: what [findall], [find], [get] and
    [all_text_until_element_name] return for the elements the generator
    reads. *)

Module Registry.

Record param : Type := make_param {
  param_type : string;
  param_name : string;
  param_group : option string
}.

Record command : Type := make_command {
  command_ret_type : string;
  command_name : string;
  command_params : list param;
  command_alias : option string
}.

(** A [feature] element: its attributes and the names of the commands under
    its [require] children. *)
Record feature : Type := make_feature {
  feature_api : string;
  feature_number : string;
  feature_name : string;
  feature_require : list string
}.

Record extension : Type := make_extension {
  extension_name : string;
  extension_supported : string;
  extension_require : list string
}.

Record t : Type := make {
  commands : list command;
  features : list feature;
  extensions : list extension
}.

End Registry.

(** ** class Generator

    The attributes for typedefs, enum constants and enum groups, the
    copyright comment and the output file belong to the emitters and are left
    out. *)

Module Generator.

Record t : Type := make {
  target : string;
  functions : PyDict.t GLFunction.t;
  sorted_functions : list string;
  supported_versions : list string;
  supported_extensions : list string;
  (** Human-readable provider names to the C enum token. *)
  provider_enum : PyDict.t string;
  (** Human-readable provider names to the C code detecting the provider. *)
  provider_condition : PyDict.t string;
  (** Human-readable provider names to the loader format string. *)
  provider_loader : PyDict.t string
}.

(** [Generator.__init__] *)
Definition init (target : string) : t :=
  make target PyDict.empty [] [] [] PyDict.empty PyDict.empty PyDict.empty.

Definition set_functions (fs : PyDict.t GLFunction.t) (g : t) : t :=
  make (target g) fs (sorted_functions g) (supported_versions g)
       (supported_extensions g) (provider_enum g) (provider_condition g)
       (provider_loader g).

Definition set_sorted_functions (l : list string) (g : t) : t :=
  make (target g) (functions g) l (supported_versions g)
       (supported_extensions g) (provider_enum g) (provider_condition g)
       (provider_loader g).

Definition set_supported_versions (l : list string) (g : t) : t :=
  make (target g) (functions g) (sorted_functions g) l
       (supported_extensions g) (provider_enum g) (provider_condition g)
       (provider_loader g).

Definition set_supported_extensions (l : list string) (g : t) : t :=
  make (target g) (functions g) (sorted_functions g) (supported_versions g)
       l (provider_enum g) (provider_condition g) (provider_loader g).

Definition set_provider_tables (e c l : PyDict.t string) (g : t) : t :=
  make (target g) (functions g) (sorted_functions g) (supported_versions g)
       (supported_extensions g) e c l.

(** [s.add(x)] on a set kept as a list without repetition. *)
Definition set_add (x : string) (s : list string) : list string :=
  if Str.mem x s then s else (s ++ [x])%list.

(** *** Registry Loader *)

(** The body of the loop of [parse_function_definitions]. *)
Definition parse_function_definition (c : Registry.command) (g : t) : t :=
  let name := Registry.command_name c in
  let func := GLFunction.init (Registry.command_ret_type c) name in
  let func :=
    fold_left
      (fun f p => GLFunction.add_arg (Registry.param_type p)
                                     (Registry.param_name p)
                                     (Registry.param_group p) f)
      (Registry.command_params c) func in
  let func :=
    match Registry.command_alias c with
    | Some a => GLFunction.set_alias_name a func
    | None => func
    end in
  set_functions (PyDict.set name func (functions g)) g.

Definition parse_function_definitions (reg : Registry.t) (g : t) : t :=
  fold_left (fun g c => parse_function_definition c g)
            (Registry.commands reg) g.

(** The body of the loop of [process_require_statements]. *)
Definition process_require_statement
           (condition loader human_name name : string) (g : t) : result t :=
  if String.eqb (target g) "wgl" && negb (Str.contains "wgl" name)
  then
    fs <- PyDict.del name (functions g) ;;
    Ok (set_functions fs g)
  else
    func <- PyDict.lookup name (functions g) ;;
    Ok (set_functions
          (PyDict.set name
                      (GLFunction.add_provider condition loader human_name func)
                      (functions g))
          g).

Definition process_require_statements
           (require : list string) (condition loader human_name : string)
           (g : t) : result t :=
  for_each (process_require_statement condition loader human_name) require g.

(** [re.match(r'([0-9])\.([0-9])', number)] followed by
    [int(m.group(1)) * 10 + int(m.group(2))]; without a match, [m] is
    [None] and [m.group] raises. *)
Definition parse_version (number : string) : result nat :=
  match number with
  | String d1 (String dot (String d2 _)) =>
      if Str.is_digit d1 && Ascii.eqb dot "."%char && Str.is_digit d2
      then Ok (Str.digit_value d1 * 10 + Str.digit_value d2)%nat
      else Raise AttributeError
  | _ => Raise AttributeError
  end.

(** What a [feature] block contributes: [None] for the api the loop skips,
    otherwise the human name, the condition and the loader. *)
Definition feature_provider (api number : string) (version : nat)
  : result (option (string * string * string)) :=
  let v := Str.of_version version in
  if String.eqb api "gl" then
    let human_name := "Desktop OpenGL " ++ number in
    let condition := "epoxy_is_desktop_gl()" in
    let loader := "epoxy_get_core_proc_address({0}, " ++ v ++ ")" in
    let condition :=
      if (11 <=? version)%nat
      then condition ++ " && epoxy_conservative_gl_version() >= " ++ v
      else condition in
    Ok (Some (human_name, condition, loader))
  else if String.eqb api "gles2" then
    let human_name := "OpenGL ES " ++ number in
    let condition := "!epoxy_is_desktop_gl() && epoxy_gl_version() >= " ++ v in
    let loader :=
      if (version <=? 20)%nat then "epoxy_gles2_dlsym({0})"
      else "epoxy_gles3_dlsym({0})" in
    Ok (Some (human_name, condition, loader))
  else if String.eqb api "gles1" then
    Ok (Some ("OpenGL ES 1.0",
              "!epoxy_is_desktop_gl() && epoxy_gl_version() >= 10 && epoxy_gl_version() < 20",
              "epoxy_gles1_dlsym({0})"))
  else if String.eqb api "glx" then
    let human_name := "GLX " ++ v in
    if (13 <? version)%nat
    then Ok (Some (human_name,
                   "epoxy_conservative_glx_version() >= " ++ v,
                   "glXGetProcAddress((const GLubyte *" ++ "){0})"))
    else Ok (Some (human_name, "true", "epoxy_glx_dlsym({0})"))
  else if String.eqb api "egl" then
    let human_name := "EGL " ++ v in
    let condition :=
      if (10 <? version)%nat
      then "epoxy_conservative_egl_version() >= " ++ v
      else "true" in
    Ok (Some (human_name, condition, "epoxy_egl_dlsym({0})"))
  else if String.eqb api "wgl" then
    Ok (Some ("WGL " ++ v, "true", "epoxy_gl_dlsym({0})"))
  else if String.eqb api "glsc2" then
    Ok None
  else
    Raise (SystemExit ("unknown API: " ++ String Str.quote api
                         ++ String Str.quote "")).

(** The body of the first loop of [parse_function_providers]. *)
Definition parse_feature (f : Registry.feature) (g : t) : result t :=
  version <- parse_version (Registry.feature_number f) ;;
  let g := set_supported_versions
             (set_add (Registry.feature_name f) (supported_versions g)) g in
  p <- feature_provider (Registry.feature_api f) (Registry.feature_number f)
                        version ;;
  match p with
  | None => Ok g
  | Some (human_name, condition, loader) =>
      process_require_statements (Registry.feature_require f)
                                 condition loader human_name g
  end.

(** The body of the second loop of [parse_function_providers]. *)
Definition parse_extension (e : Registry.extension) (g : t) : result t :=
  let extname := Registry.extension_name e in
  let g := set_supported_extensions
             (set_add extname (supported_extensions g)) g in
  let apis := Str.split "|"%char (Registry.extension_supported e) in
  let require := Registry.extension_require e in
  g <- (if Str.mem "glx" apis
        then process_require_statements
               require "epoxy_conservative_has_glx_extension(provider_name)"
               ("glXGetProcAddress((const GLubyte *" ++ "){0})") extname g
        else Ok g) ;;
  g <- (if Str.mem "egl" apis
        then process_require_statements
               require "epoxy_conservative_has_egl_extension(provider_name)"
               "eglGetProcAddress({0})" extname g
        else Ok g) ;;
  g <- (if Str.mem "wgl" apis
        then process_require_statements
               require "epoxy_conservative_has_wgl_extension(provider_name)"
               "wglGetProcAddress({0})" extname g
        else Ok g) ;;
  if Str.mem "gl" apis || Str.mem "gles1" apis || Str.mem "gles2" apis
  then process_require_statements
         require "epoxy_conservative_has_gl_extension(provider_name)"
         "epoxy_get_proc_address({0})" extname g
  else Ok g.

Definition parse_function_providers (reg : Registry.t) (g : t) : result t :=
  g <- for_each parse_feature (Registry.features reg) g ;;
  for_each parse_extension (Registry.extensions reg) g.

(** [parse], without the typedefs and enum constants. *)
Definition parse (reg : Registry.t) (g : t) : result t :=
  parse_function_providers reg (parse_function_definitions reg g).

Definition is_weird (f : GLFunction.t) : bool :=
  Str.contains "VLServer" (GLFunction.args_decl f)
  || Str.contains "DMparams" (GLFunction.args_decl f).

(** [drop_weird_glx_functions]: the names are collected first and deleted
    afterwards; each collected name is a key of the dictionary. *)
Definition drop_weird_glx_functions (g : t) : t :=
  let weird_functions :=
    map fst (filter (fun kv => is_weird (snd kv)) (functions g)) in
  set_functions
    (fold_left (fun fs name => PyDict.remove name fs) weird_functions
               (functions g))
    g.

(** [sort_functions]: the functions in the order of their names. *)
Definition sort_functions (g : t) : t :=
  set_sorted_functions
    (map fst (Sort.sort Str.leb (fun kv => GLFunction.name (snd kv))
                        (functions g)))
    g.

(** *** Alias Resolver *)

(** The [while] loop of [resolve_aliases]: [key] is the key under which
    [alias_func] is stored; one unit of fuel is one iteration. *)
Fixpoint find_alias_root (fuel : nat) (fs : PyDict.t GLFunction.t)
         (key : string) (alias_func : GLFunction.t)
  : result (string * GLFunction.t) :=
  if String.eqb (GLFunction.alias_name alias_func) (GLFunction.name alias_func)
  then Ok (key, alias_func)
  else
    match fuel with
    | O => OutOfFuel
    | S fuel' =>
        let key' := GLFunction.alias_name alias_func in
        next <- PyDict.lookup key' fs ;;
        find_alias_root fuel' fs key' next
    end.

(** The body of the [for] loop of [resolve_aliases], for the function
    stored under [key]. *)
Definition resolve_alias (fuel : nat) (key : string) (g : t) : result t :=
  func <- PyDict.lookup key (functions g) ;;
  if negb (String.eqb (GLFunction.alias_name func) (GLFunction.name func))
  then
    r <- find_alias_root fuel (functions g) key func ;;
    let (root_key, alias_func) := r in
    let func :=
      GLFunction.set_alias_func
        (Some root_key)
        (GLFunction.set_alias_name (GLFunction.name alias_func) func) in
    let alias_func :=
      GLFunction.set_alias_exts
        (GLFunction.alias_exts alias_func ++ [key]) alias_func in
    Ok (set_functions
          (PyDict.set root_key alias_func
                      (PyDict.set key func (functions g)))
          g)
  else Ok g.

Definition resolve_aliases (fuel : nat) (g : t) : result t :=
  for_each (resolve_alias fuel) (PyDict.keys (functions g)) g.

(** [fixup_bootstrap_function(name, loader)] *)
Definition fixup_bootstrap_function (name loader : string) (g : t) : t :=
  match PyDict.get name (functions g) with
  | None => g
  | Some func =>
      let func := GLFunction.set_providers PyDict.empty func in
      let func := GLFunction.add_provider "true" loader "always present" func in
      set_functions (PyDict.set name func (functions g)) g
  end.

(** *** Provider Interner *)

(** [assert c] *)
Definition assert (c : bool) : result unit :=
  if c then Ok tt else Raise AssertionError.

(** The body of the inner loop of [prepare_provider_enum]. *)
Definition intern_provider (provider : GLProvider.t) (g : t) : result t :=
  let label := GLProvider.condition_name provider in
  if PyDict.mem label (provider_enum g)
  then
    c <- PyDict.lookup label (provider_condition g) ;;
    _ <- assert (String.eqb c (GLProvider.condition provider)) ;;
    l <- PyDict.lookup label (provider_loader g) ;;
    _ <- assert (String.eqb l (GLProvider.loader provider)) ;;
    Ok g
  else
    Ok (set_provider_tables
          (PyDict.set label (GLProvider.enum provider) (provider_enum g))
          (PyDict.set label (GLProvider.condition provider)
                      (provider_condition g))
          (PyDict.set label (GLProvider.loader provider) (provider_loader g))
          g).

(** Every provider of every function, in the order of the two nested
    loops. *)
Definition all_providers (g : t) : list GLProvider.t :=
  flat_map (fun f => PyDict.values (GLFunction.providers f))
           (PyDict.values (functions g)).

Definition prepare_provider_enum (g : t) : result t :=
  let g :=
    set_provider_tables PyDict.empty (provider_condition g)
                        (provider_loader g) g in
  for_each intern_provider (all_providers g) g.

(** *** Resolution Planner *)

Definition half_aliases : PyDict.t string :=
  [ ("glBindVertexArray", "glBindVertexArrayAPPLE");
    ("glBindVertexArrayAPPLE", "glBindVertexArray");
    ("glBindFramebuffer", "glBindFramebufferEXT");
    ("glBindFramebufferEXT", "glBindFramebuffer");
    ("glBindRenderbuffer", "glBindRenderbufferEXT");
    ("glBindRenderbufferEXT", "glBindRenderbuffer") ].

(** Comparison of the tuples [provider_sort] returns; [False < True]. *)
Definition key_leb (a b : bool * string * string) : bool :=
  let '(a1, a2, a3) := a in
  let '(b1, b2, b3) := b in
  if Bool.eqb a1 b1 then
    match String.compare a2 b2 with
    | Lt => true
    | Gt => false
    | Eq => String.leb a3 b3
    end
  else negb a1.

(** The local function [provider_sort] of [write_function_ptr_resolver]. *)
Definition provider_sort (func : GLFunction.t) (provider : GLProvider.t)
  : bool * string * string :=
  (negb (String.eqb (GLProvider.name provider) (GLFunction.name func)),
   GLProvider.name provider,
   GLProvider.enum provider).

(** The providers of the functions referred to by [refs], in order. *)
Fixpoint providers_of (g : t) (refs : list string)
  : result (list GLProvider.t) :=
  match refs with
  | [] => Ok []
  | r :: refs' =>
      alias_func <- PyDict.lookup r (functions g) ;;
      rest <- providers_of g refs' ;;
      Ok (PyDict.values (GLFunction.providers alias_func) ++ rest)%list
  end.

(** The first half of [write_function_ptr_resolver]: the local list of all
    the providers of the alias group of [func], sorted. *)
Definition gather_providers (g : t) (func : GLFunction.t)
  : result (list GLProvider.t) :=
  alias_root <- match GLFunction.alias_func func with
                | Some r => PyDict.lookup r (functions g)
                | None => Ok func
                end ;;
  let providers := PyDict.values (GLFunction.providers alias_root) in
  exts <- providers_of g (GLFunction.alias_exts alias_root) ;;
  let providers := (providers ++ exts)%list in
  providers <-
    match PyDict.get (GLFunction.name func) half_aliases with
    | Some other =>
        alias_func <- PyDict.lookup other (functions g) ;;
        Ok (providers ++ PyDict.values (GLFunction.providers alias_func))%list
    | None => Ok providers
    end ;;
  Ok (Sort.sort key_leb (provider_sort func) providers).

End Generator.

(** ** The emitted dispatch source

    The C text written by [write_provider_resolver] and
    [write_function_ptr_resolver] is kept as the data its [format] calls fill
    in.  An offset into [entrypoint_strings] is represented by the function
    name written at that offset ([write_entrypoint_strings] enters every
    function of [sorted_functions]), an offset into [enum_string] by the
    human-readable name written there. *)

Module Emitted.

(** One provider of the generated tables: the enum constant declared by
    [write_provider_enums], its string written by
    [write_provider_enum_strings], and its [case] in the [switch] written by
    [write_provider_resolver].  The three loops run over the same
    [sorted(self.provider_enum.keys())]. *)
Record provider_case : Type := make_case {
  case_enum : string;
  case_string : string;
  case_condition : string;
  case_loader : string
}.

(** The body of a function written by [write_function_ptr_resolver]. *)
Inductive function_resolver : Type :=
| provider_resolver_call
    (name : string) (providers : list string)
    (entrypoints : list (option string))
| single_resolver_call (provider : string) (entrypoint : string).

Definition provider_case_of (g : Generator.t) (human_name : string)
  : result provider_case :=
  enum <- PyDict.lookup human_name (Generator.provider_enum g) ;;
  condition <- PyDict.lookup human_name (Generator.provider_condition g) ;;
  loader <- PyDict.lookup human_name (Generator.provider_loader g) ;;
  Ok (make_case enum human_name condition loader).

Fixpoint provider_cases_of (g : Generator.t) (human_names : list string)
  : result (list provider_case) :=
  match human_names with
  | [] => Ok []
  | h :: rest =>
      c <- provider_case_of g h ;;
      cs <- provider_cases_of g rest ;;
      Ok (c :: cs)
  end.

(** The provider tables and the [switch] of [write_provider_resolver]. *)
Definition write_provider_resolver (g : Generator.t)
  : result (list provider_case) :=
  provider_cases_of g (sorted_strings (PyDict.keys (Generator.provider_enum g))).

(** The second half of [write_function_ptr_resolver]. *)
Definition write_function_ptr_resolver (g : Generator.t) (func : GLFunction.t)
  : result function_resolver :=
  providers <- Generator.gather_providers g func ;;
  match providers with
  | [p] =>
      _ <- Generator.assert
             (String.eqb (GLProvider.name p) (GLFunction.name func)) ;;
      Ok (single_resolver_call (GLProvider.enum p) (GLFunction.name func))
  | _ =>
      Ok (provider_resolver_call
            (GLFunction.name func)
            (map GLProvider.enum providers)
            (if (1 <? List.length providers)%nat
             then map (fun p => Some (GLProvider.name p)) providers
             else [None]))
  end.

End Emitted.

(** ** Running the emitted resolver

    The meaning of the emitted C functions in a process: which conditions
    hold, what the loaders return and which failure handler is installed are
    given by the process. *)

Module Runtime.

Definition address : Type := nat.

Record process : Type := make_process {
  (** The value of a condition expression, with [provider_name] bound. *)
  holds : string -> string -> bool;
  (** The value of a loader expression for an entry-point name. *)
  load : string -> string -> address;
  (** [epoxy_resolver_failure_handler] *)
  failure_handler : option (string -> address)
}.

(** What the resolver does, in order: it evaluates a condition (with the
    value of [provider_name]), calls a loader for an entry point, calls the
    failure handler, prints a line to stderr. *)
Inductive event : Type :=
| Evaluate (condition : string) (provider_name : string)
| CallLoader (loader : string) (entrypoint : string)
| CallFailureHandler (name : string)
| Fprintf (line : string).

Inductive outcome : Type :=
| Returned (a : address)
| Aborted.

Definition find_case (cases : list Emitted.provider_case) (enum : string)
  : option Emitted.provider_case :=
  find (fun c => String.eqb (Emitted.case_enum c) enum) cases.

(** [enum_string + enum_string_offsets[providers[i]]] *)
Definition provider_string (cases : list Emitted.provider_case)
           (enum : string) : string :=
  match find_case cases enum with
  | Some c => Emitted.case_string c
  | None => ""
  end.

Definition entrypoint_string (e : option string) : string :=
  match e with Some s => s | None => "" end.

(** The first [for] loop of the emitted provider resolver: the events, and
    the address returned from inside the loop if any. *)
Fixpoint resolver_loop (cases : list Emitted.provider_case) (p : process)
         (providers : list string) (entrypoints : list (option string))
  : list event * option address :=
  match providers with
  | [] => ([], None)
  | enum :: providers' =>
      let provider_name := provider_string cases enum in
      let entrypoint := entrypoint_string (hd None entrypoints) in
      match find_case cases enum with
      | Some c =>
          if holds p (Emitted.case_condition c) provider_name
          then ([Evaluate (Emitted.case_condition c) provider_name;
                 CallLoader (Emitted.case_loader c) entrypoint],
                Some (load p (Emitted.case_loader c) entrypoint))
          else
            let (evs, r) :=
              resolver_loop cases p providers' (tl entrypoints) in
            (Evaluate (Emitted.case_condition c) provider_name :: evs, r)
      | None => resolver_loop cases p providers' (tl entrypoints)
      end
  end.

(** What the emitted provider resolver prints before [abort()]. *)
Definition failure_report (cases : list Emitted.provider_case)
           (name : string) (providers : list string) : list event :=
  (Fprintf ("No provider of " ++ name ++ " found.  Requires one of:")
   :: map (fun enum => Fprintf ("    " ++ provider_string cases enum)) providers
   ++ match providers with
      | [] => [Fprintf "    No known providers.  This is likely a bug in libepoxy code generation"]
      | _ => []
      end)%list.

(** The emitted function [<target>_provider_resolver]. *)
Definition provider_resolver (cases : list Emitted.provider_case) (p : process)
           (name : string) (providers : list string)
           (entrypoints : list (option string)) : list event * outcome :=
  match resolver_loop cases p providers entrypoints with
  | (evs, Some a) => (evs, Returned a)
  | (evs, None) =>
      match failure_handler p with
      | Some handler => ((evs ++ [CallFailureHandler name])%list,
                         Returned (handler name))
      | None => ((evs ++ failure_report cases name providers)%list, Aborted)
      end
  end.

(** The emitted function [<target>_single_resolver]. *)
Definition single_resolver (cases : list Emitted.provider_case) (p : process)
           (provider : string) (entrypoint : string) : list event * outcome :=
  provider_resolver cases p entrypoint [provider] [Some entrypoint].

(** The emitted function [epoxy_<name>_resolver]. *)
Definition run (cases : list Emitted.provider_case) (p : process)
           (r : Emitted.function_resolver) : list event * outcome :=
  match r with
  | Emitted.provider_resolver_call name providers entrypoints =>
      provider_resolver cases p name providers entrypoints
  | Emitted.single_resolver_call provider entrypoint =>
      single_resolver cases p provider entrypoint
  end.

End Runtime.

(** ** The main loop of the script, up to the emission *)

(** From [Generator(name)] to the last [fixup_bootstrap_function]. *)
Definition load_model (fuel : nat) (target : string) (reg : Registry.t)
  : result Generator.t :=
  let generator := Generator.init target in
  generator <- Generator.parse reg generator ;;
  let generator := Generator.drop_weird_glx_functions generator in
  let generator :=
    if PyDict.mem "wglUseFontBitmaps" (Generator.functions generator)
    then Generator.set_functions
           (PyDict.remove "wglUseFontBitmaps" (Generator.functions generator))
           generator
    else generator in
  let generator := Generator.sort_functions generator in
  generator <- Generator.resolve_aliases fuel generator ;;
  let generator :=
    Generator.fixup_bootstrap_function
      "glGetString" "epoxy_get_bootstrap_proc_address({0})" generator in
  let generator :=
    Generator.fixup_bootstrap_function
      "glGetIntegerv" "epoxy_get_bootstrap_proc_address({0})" generator in
  let generator :=
    Generator.fixup_bootstrap_function
      "glXGetProcAddress" "epoxy_glx_dlsym({0})" generator in
  Ok generator.

Definition generate (fuel : nat) (target : string) (reg : Registry.t)
  : result Generator.t :=
  generator <- load_model fuel target reg ;;
  Generator.prepare_provider_enum generator.



(** ** Notions used in the statements *)

(** The alias target recorded for [f]: the function stored under
    [f.alias_name]. *)
Definition root (g : Generator.t) (f : GLFunction.t) : option GLFunction.t :=
  PyDict.get (GLFunction.alias_name f) (Generator.functions g).

Definition self_named (f : GLFunction.t) : Prop :=
  GLFunction.alias_name f = GLFunction.name f.

(** The function table as [parse_function_definitions] builds it and the
    deletions of the loader leave it: every function is stored under its own
    name and no alias has been attached yet. *)
Definition freshly_parsed (g : Generator.t) : Prop :=
  PyDict.wf (Generator.functions g)
  /\ forall k f, In (k, f) (Generator.functions g) ->
                 GLFunction.name f = k
                 /\ GLFunction.alias_exts f = []
                 /\ GLFunction.alias_func f = None.

(** All the dependent-alias lists of the model, one after the other. *)
Definition all_alias_exts (g : Generator.t) : list string :=
  flat_map GLFunction.alias_exts (PyDict.values (Generator.functions g)).

(** A set of functions closed under the alias field with no self-naming
    member: every alias chain that enters it stays in it for ever. *)
Definition alias_trap (fs : PyDict.t GLFunction.t) (names : list string)
  : Prop :=
  forall k, In k names ->
            exists f, PyDict.get k fs = Some f
                      /\ GLFunction.alias_name f <> GLFunction.name f
                      /\ In (GLFunction.alias_name f) names.

(** *** Invariants of alias resolution *)

(** Every function is stored under its own name. *)
Definition names_ok (fs : PyDict.t GLFunction.t) : Prop :=
  forall k f, PyDict.get k fs = Some f -> GLFunction.name f = k.

Definition nonroot (fs : PyDict.t GLFunction.t) (k : string) : bool :=
  match PyDict.get k fs with
  | Some f => negb (String.eqb (GLFunction.alias_name f) (GLFunction.name f))
  | None => false
  end.

(** [f], stored under [k], has been resolved: its alias target is a
    self-naming function that lists it. *)
Definition attached (fs : PyDict.t GLFunction.t) (k : string)
           (f : GLFunction.t) : Prop :=
  exists r,
    PyDict.get (GLFunction.alias_name f) fs = Some r
    /\ self_named r
    /\ In k (GLFunction.alias_exts r)
    /\ GLFunction.alias_func f = Some (GLFunction.alias_name f).

Definition resolved_but (todo : list string) (fs : PyDict.t GLFunction.t)
  : Prop :=
  forall k f, PyDict.get k fs = Some f ->
              self_named f \/ In k todo \/ attached fs k f.

Definition exts_of (fs : PyDict.t GLFunction.t) : list string :=
  flat_map GLFunction.alias_exts (PyDict.values fs).

(** The table after the body of the loop of [resolve_aliases] has run for
    [func], stored under [key], whose root [r] is stored under [rk]. *)
Definition table_after (fs : PyDict.t GLFunction.t) (key rk : string)
           (func r : GLFunction.t) : PyDict.t GLFunction.t :=
  PyDict.set
    rk
    (GLFunction.set_alias_exts (GLFunction.alias_exts r ++ [key]) r)
    (PyDict.set
       key
       (GLFunction.set_alias_func
          (Some rk) (GLFunction.set_alias_name (GLFunction.name r) func))
       fs).

(** *** Provider interning *)

(** The provider tables hold the condition and the loader of [p] under its
    label. *)
Definition interned (g : Generator.t) (p : GLProvider.t) : Prop :=
  PyDict.mem (GLProvider.condition_name p) (Generator.provider_enum g) = true
  /\ PyDict.get (GLProvider.condition_name p) (Generator.provider_condition g)
     = Some (GLProvider.condition p)
  /\ PyDict.get (GLProvider.condition_name p) (Generator.provider_loader g)
     = Some (GLProvider.loader p).

(** Every label with an enum token has a condition and a loader. *)
Definition tables_ok (g : Generator.t) : Prop :=
  forall label,
    PyDict.mem label (Generator.provider_enum g) = true ->
    PyDict.mem label (Generator.provider_condition g) = true
    /\ PyDict.mem label (Generator.provider_loader g) = true.

(** Two bindings that share a label and differ in condition or loader. *)
Definition conflicting (p1 p2 : GLProvider.t) : Prop :=
  GLProvider.condition_name p1 = GLProvider.condition_name p2
  /\ (GLProvider.condition p1 <> GLProvider.condition p2
      \/ GLProvider.loader p1 <> GLProvider.loader p2).

(** *** Candidate order *)

(** The order [provider_sort] puts on the candidates of [func]: the
    candidates named like [func] come first; then the order of the
    entry-point names decides, and for equal names the order of the enum
    tokens. *)
Definition candidate_le (func : GLFunction.t) (p q : GLProvider.t) : Prop :=
  (GLProvider.name p = GLFunction.name func
   /\ GLProvider.name q <> GLFunction.name func)
  \/ ((GLProvider.name p = GLFunction.name func
       <-> GLProvider.name q = GLFunction.name func)
      /\ (String.compare (GLProvider.name p) (GLProvider.name q) = Lt
          \/ (GLProvider.name p = GLProvider.name q
              /\ String.leb (GLProvider.enum p) (GLProvider.enum q) = true))).

(** The sort key as the specification words it: own name first, then the
    human-readable label, then the enum token. *)
Definition provider_sort_by_label (func : GLFunction.t) (provider : GLProvider.t)
  : bool * string * string :=
  (negb (String.eqb (GLProvider.name provider) (GLFunction.name func)),
   GLProvider.condition_name provider,
   GLProvider.enum provider).

(** [l] is in the order of [leb]. *)
Fixpoint sortedb (A : Type) (leb : A -> A -> bool) (l : list A) : bool :=
  match l with
  | [] => true
  | a :: l' =>
      match l' with
      | [] => true
      | b :: _ => leb a b && sortedb leb l'
      end
  end.

(** *** References between functions *)

(** The references [f] holds to other functions lead to functions of the
    table. *)
Definition references_ok (g : Generator.t) (f : GLFunction.t) : Prop :=
  (forall r, GLFunction.alias_func f = Some r ->
             PyDict.mem r (Generator.functions g) = true)
  /\ (forall e, In e (GLFunction.alias_exts f) ->
                PyDict.mem e (Generator.functions g) = true).

Definition model_references_ok (g : Generator.t) : Prop :=
  forall k f, PyDict.get k (Generator.functions g) = Some f ->
              references_ok g f.

(** *** The emitted resolver *)

(** [p] was built by [GLProvider.__init__]: its enum token is the one the
    constructor computes from its label. *)
Definition constructed (p : GLProvider.t) : Prop :=
  GLProvider.enum p
  = GLProvider.enum (GLProvider.init (GLProvider.condition p)
                                     (GLProvider.condition_name p)
                                     (GLProvider.loader p)
                                     (GLProvider.name p)).

(** No two labels of the provider table share an enum token: the enum
    declaration of the emitted source declares no constant twice. *)
Definition distinct_enums (g : Generator.t) : Prop :=
  forall l1 l2 e,
    PyDict.get l1 (Generator.provider_enum g) = Some e ->
    PyDict.get l2 (Generator.provider_enum g) = Some e ->
    l1 = l2.

(** Every enum token of the provider table is the one computed from its
    label. *)
Definition enums_ok (g : Generator.t) : Prop :=
  forall label e,
    PyDict.get label (Generator.provider_enum g) = Some e ->
    e = GLProvider.enum (GLProvider.init "" label "" "").

(** The [case] the emitted [switch] takes for the enum token of [p] tests the
    condition of [p] and calls the loader of [p], and the string of the token
    is the label of [p]. *)
Definition case_for (cases : list Emitted.provider_case) (p : GLProvider.t)
  : Prop :=
  exists c,
    Runtime.find_case cases (GLProvider.enum p) = Some c
    /\ Emitted.case_string c = GLProvider.condition_name p
    /\ Emitted.case_condition c = GLProvider.condition p
    /\ Emitted.case_loader c = GLProvider.loader p.

(** The resolver evaluates the condition of the candidate [p]. *)
Definition evaluation (p : GLProvider.t) : Runtime.event :=
  Runtime.Evaluate (GLProvider.condition p) (GLProvider.condition_name p).

(** The line of the failure report for the candidate [p]. *)
Definition report_line (p : GLProvider.t) : Runtime.event :=
  Runtime.Fprintf ("    " ++ GLProvider.condition_name p).

(** The condition of the candidate [p] holds in the process. *)
Definition available (proc : Runtime.process) (p : GLProvider.t) : bool :=
  Runtime.holds proc (GLProvider.condition p) (GLProvider.condition_name p).

(** *** The loader's filters *)

(** No function of the table has VLServer or DMparams in its argument
    declaration. *)
Definition no_weird (fs : PyDict.t GLFunction.t) : Prop :=
  forall k f, PyDict.get k fs = Some f -> Generator.is_weird f = false.

(** For the target wgl, only functions with wgl in their name have provider
    bindings. *)
Definition wgl_only (g : Generator.t) : Prop :=
  Generator.target g = "wgl" ->
  forall k f, In (k, f) (Generator.functions g) ->
              GLFunction.providers f <> [] ->
              Str.contains "wgl" k = true.

(** *** Alias chains *)

(** The alias chain of [f] ends at a self-naming function after at most [n]
    steps through the table. *)
Fixpoint reaches_root (fs : PyDict.t GLFunction.t) (n : nat) (f : GLFunction.t)
  : Prop :=
  self_named f
  \/ match n with
     | O => False
     | S m => exists f', PyDict.get (GLFunction.alias_name f) fs = Some f'
                         /\ reaches_root fs m f'
     end.

(** What alias resolution does not touch: the name, the return type, the
    provider bindings and the arguments. *)
Definition same_payload (f f' : GLFunction.t) : Prop :=
  GLFunction.name f' = GLFunction.name f
  /\ GLFunction.ret_type f' = GLFunction.ret_type f
  /\ GLFunction.providers f' = GLFunction.providers f
  /\ GLFunction.args f' = GLFunction.args f.

(** [fs'] has the functions of [fs], under the same keys in the same order,
    with the same payload. *)
Definition same_payloads (fs fs' : PyDict.t GLFunction.t) : Prop :=
  PyDict.keys fs' = PyDict.keys fs
  /\ forall k f', PyDict.get k fs' = Some f' ->
                  exists f, PyDict.get k fs = Some f /\ same_payload f f'.

(** The references of every function lead to keys of the table. *)
Definition refs_in_keys (fs : PyDict.t GLFunction.t) : Prop :=
  forall k f, PyDict.get k fs = Some f ->
              (forall r, GLFunction.alias_func f = Some r ->
                         In r (PyDict.keys fs))
              /\ (forall e, In e (GLFunction.alias_exts f) ->
                            In e (PyDict.keys fs)).

(** A self-naming function has no alias target, and only self-naming
    functions have dependent aliases. *)
Definition root_shape (fs : PyDict.t GLFunction.t) : Prop :=
  forall k f, PyDict.get k fs = Some f ->
              (self_named f -> GLFunction.alias_func f = None)
              /\ (~ self_named f -> GLFunction.alias_exts f = []).

(** [fs'] has the functions of [fs], under the same keys in the same order,
    with the same name and alias fields. *)
Definition same_aliases (fs fs' : PyDict.t GLFunction.t) : Prop :=
  PyDict.keys fs' = PyDict.keys fs
  /\ forall k f', PyDict.get k fs' = Some f' ->
                  exists f, PyDict.get k fs = Some f
                            /\ GLFunction.name f' = GLFunction.name f
                            /\ GLFunction.alias_name f' = GLFunction.alias_name f
                            /\ GLFunction.alias_func f' = GLFunction.alias_func f
                            /\ GLFunction.alias_exts f' = GLFunction.alias_exts f.

(** The function table of a model whose aliases are resolved. *)
Definition aliases_resolved (fs : PyDict.t GLFunction.t) : Prop :=
  PyDict.wf fs
  /\ names_ok fs
  /\ refs_in_keys fs
  /\ resolved_but [] fs
  /\ root_shape fs.

(** *** Provider bindings *)

(** Every binding of every function is stored under its own label, loads
    the entry point named like the function that holds it, and has the enum
    token the constructor computes. *)
Definition bindings_ok (fs : PyDict.t GLFunction.t) : Prop :=
  forall k f, PyDict.get k fs = Some f ->
              PyDict.wf (GLFunction.providers f)
              /\ forall l p, PyDict.get l (GLFunction.providers f) = Some p ->
                             GLProvider.condition_name p = l
                             /\ GLProvider.name p = GLFunction.name f
                             /\ constructed p.

(** *** Alias groups *)

(** The functions whose bindings are the candidates of [func], stored under
    [k]: the root of its alias group, the dependent aliases of the root, and
    the near-alias partner of [func]. *)
Definition alias_group (g : Generator.t) (k : string) (func : GLFunction.t)
           (m : string) : Prop :=
  let rk := match GLFunction.alias_func func with
            | Some rk => rk
            | None => k
            end in
  m = rk
  \/ (exists r, PyDict.get rk (Generator.functions g) = Some r
                /\ In m (GLFunction.alias_exts r))
  \/ PyDict.get k Generator.half_aliases = Some m.

(** ** The string tables of the emitted source *)

Module Tables.

(** The terminator of a C string. *)
Definition nul : ascii := "000"%char.

(** The state of the loop of [write_entrypoint_strings]: the dictionary
    [entrypoint_string_offset], the local [offset], and the elements of the
    array [entrypoint_strings] written so far. *)
Record strings : Type := make_strings {
  string_offset : PyDict.t nat;
  offset : nat;
  elements : list ascii
}.

(** The body of the loop of [write_entrypoint_strings], for a function
    named [name]. *)
Definition entrypoint_string (name : string) (s : strings) : strings :=
  if PyDict.mem name (string_offset s)
  then s
  else make_strings
         (PyDict.set name (offset s) (string_offset s))
         (offset s + String.length name + 1)
         (elements s ++ list_ascii_of_string name ++ [nul])%list.

(** [write_entrypoint_strings]: the offsets it records and the array it
    writes, with the closing element. *)
Definition write_entrypoint_strings (g : Generator.t)
  : result (PyDict.t nat * list ascii) :=
  s <- for_each
         (fun r s =>
            func <- PyDict.lookup r (Generator.functions g) ;;
            Ok (entrypoint_string (GLFunction.name func) s))
         (Generator.sorted_functions g)
         (make_strings PyDict.empty 0 []) ;;
  Ok (string_offset s, (elements s ++ [nul])%list).

(** The C string that starts at the beginning of [mem]. *)
Fixpoint c_string (mem : list ascii) : string :=
  match mem with
  | [] => ""
  | c :: rest => if Ascii.eqb c nul then "" else String c (c_string rest)
  end.

(** The C string at [mem + off]. *)
Definition c_string_at (mem : list ascii) (off : nat) : string :=
  c_string (skipn off mem).

End Tables.

(** ** Enum constants

    The [enum] elements of the registry and what [parse_enums] keeps of
    them.  Every [enum] element is taken to have a [name] attribute; the
    attributes [value] and [group] may be missing. *)

Module Enums.

Record enum : Type := make_enum {
  enum_name : string;
  (** [enum.get('value')] *)
  enum_value : option string;
  (** The attribute [group], if present. *)
  enum_group : option string
}.

(** The attributes [groups], [enums] and [max_enum_name_len] of the
    generator. *)
Record t : Type := make {
  groups : PyDict.t (list string);
  enums : PyDict.t (option string);
  max_enum_name_len : nat
}.

(** As [Generator.__init__] leaves them. *)
Definition init : t := make PyDict.empty PyDict.empty 1.

(** The names [parse_enums] passes over. *)
Definition skipped : list string :=
  ["WGL_SWAP_OVERLAY"; "WGL_SWAP_UNDERLAY"; "WGL_SWAP_MAIN_PLANE"].

(** [enum.get('group', default='').split(',')] *)
Definition group_names (e : enum) : list string :=
  Str.split ","%char (match enum_group e with Some g => g | None => "" end).

(** The body of the inner loop of [parse_enums]. *)
Definition add_to_group (name group : string) (gs : PyDict.t (list string))
  : PyDict.t (list string) :=
  match PyDict.get group gs with
  | Some l => PyDict.set group (l ++ [name])%list gs
  | None => PyDict.set group [name] gs
  end.

(** The body of the outer loop of [parse_enums]. *)
Definition parse_enum (e : enum) (s : t) : t :=
  let name := enum_name e in
  if Str.mem name skipped then s
  else
    make (fold_left (fun gs group => add_to_group name group gs)
                    (group_names e) (groups s))
         (PyDict.set name (enum_value e) (enums s))
         (Nat.max (max_enum_name_len s) (String.length name)).

(** [parse_enums] *)
Definition parse_enums (reg : list enum) (s : t) : result t :=
  let s := fold_left (fun s e => parse_enum e s) reg s in
  gs <- PyDict.del "" (groups s) ;;
  Ok (make gs (enums s) (max_enum_name_len s)).

End Enums.

(** ** The thunks *)

Module Thunks.

(** The body of the loop of the property [args_list]; the state is the
    pair of [result] and [arg_number]. *)
Definition args_list_step (a : GLFunction.arg) (st : string * nat)
  : result (string * nat) :=
  let (res, arg_number) := st in
  arg_list_name <-
    (if String.eqb (GLFunction.arg_type a) "GLhandleARB"
     then
       _ <- Generator.assert (arg_number <? 6)%nat ;;
       Ok ("(uintptr_t)" ++ GLFunction.arg_name a)
     else Ok (GLFunction.arg_name a)) ;;
  let res := if negb (String.eqb res "") then res ++ ", " else res in
  Ok (res ++ arg_list_name, S arg_number).

(** The property [args_list] *)
Definition args_list (f : GLFunction.t) : result string :=
  st <- for_each args_list_step (GLFunction.args f) ("", 0%nat) ;;
  Ok (fst st).

(** The name an argument has in the argument list of the call. *)
Definition arg_list_name (a : GLFunction.arg) : string :=
  if String.eqb (GLFunction.arg_type a) "GLhandleARB"
  then "(uintptr_t)" ++ GLFunction.arg_name a
  else GLFunction.arg_name a.

End Thunks.

(** ** The defines of the header *)

Module Header.

(** [s.ljust(width)] *)
Definition ljust (width : nat) (s : string) : string :=
  s ++ string_of_list_ascii (repeat " "%char (width - String.length s)).

(** The names with their values, [None] when a value is missing: the sort
    by number and the concatenation in the last loop of [write_enums] raise
    TypeError for a value that is [None]. *)
Fixpoint with_values (s : Enums.t) (names : list string)
  : option (list (string * string)) :=
  match names with
  | [] => Some []
  | n :: rest =>
      match PyDict.get n (Enums.enums s), with_values s rest with
      | Some (Some v), Some l => Some ((n, v) :: l)
      | _, _ => None
      end
  end.

(** [sorted_by_number] of [write_enums], each name with its value. *)
Definition sorted_by_number (s : Enums.t) : option (list (string * string)) :=
  let sorted_by_name := sorted_strings (PyDict.keys (Enums.enums s)) in
  option_map (Sort.sort Str.leb snd) (with_values s sorted_by_name).

(** A line of the last loop of [write_enums]. *)
Definition define_line (s : Enums.t) (nv : string * string) : string :=
  "#define " ++ ljust (Enums.max_enum_name_len s + 3) (fst nv) ++ snd nv ++ "".

(** [write_enums]: the lines it writes, [None] when it raises TypeError. *)
Definition write_enums (g : Generator.t) (s : Enums.t)
  : option (list string) :=
  let versions :=
    map (fun name => "#define " ++ name ++ " 1")
        (sorted_strings (Generator.supported_versions g)) in
  let extensions :=
    map (fun name => "#define " ++ name ++ " 1")
        (sorted_strings (Generator.supported_extensions g)) in
  option_map
    (fun pairs =>
       (versions ++ "" :: extensions ++ "" :: map (define_line s) pairs)%list)
    (sorted_by_number s).

End Header.

(** *** String tables *)

(** Every recorded offset is the place in the array where the characters
    of the name start, followed by a terminator. *)
Definition strings_ok (s : Tables.strings) : Prop :=
  List.length (Tables.elements s) = Tables.offset s
  /\ PyDict.wf (Tables.string_offset s)
  /\ forall name off,
      PyDict.get name (Tables.string_offset s) = Some off ->
      exists pre post,
        Tables.elements s
        = (pre ++ list_ascii_of_string name ++ Tables.nul :: post)%list
        /\ List.length pre = off.

(** *** Required commands *)

(** The test of [process_require_statements] for the commands it does not
    wrap: the target is wgl and the name has no wgl in it. *)
Definition not_wrapped (g : Generator.t) (name : string) : bool :=
  String.eqb (Generator.target g) "wgl" && negb (Str.contains "wgl" name).

(** *** The interning tables *)

(** The three interning tables have the same labels in the same order, each
    once. *)
Definition tables_aligned (g : Generator.t) : Prop :=
  PyDict.wf (Generator.provider_enum g)
  /\ PyDict.keys (Generator.provider_condition g)
     = PyDict.keys (Generator.provider_enum g)
  /\ PyDict.keys (Generator.provider_loader g)
     = PyDict.keys (Generator.provider_enum g).

(** The [case] written for the binding [p]. *)
Definition case_of (p : GLProvider.t) : Emitted.provider_case :=
  Emitted.make_case (GLProvider.enum p) (GLProvider.condition_name p)
                    (GLProvider.condition p) (GLProvider.loader p).

(** *** Enum constants *)

(** [parse_enums] does not pass over the enum [e]. *)
Definition kept (e : Enums.enum) : Prop :=
  Str.mem (Enums.enum_name e) Enums.skipped = false.

(** The enum [e] has no group: the attribute is missing or empty, or one of
    its comma-separated parts is empty. *)
Definition groupless (e : Enums.enum) : Prop :=
  In "" (Enums.group_names e).

(** What the loop of [parse_enums] keeps true. *)
Definition enums_state_ok (s : Enums.t) : Prop :=
  PyDict.wf (Enums.groups s)
  /\ 1 <= Enums.max_enum_name_len s
  /\ (forall n, PyDict.mem n (Enums.enums s) = true ->
                Str.mem n Enums.skipped = false
                /\ String.length n <= Enums.max_enum_name_len s)
  /\ (forall g' l n, PyDict.get g' (Enums.groups s) = Some l -> In n l ->
                     PyDict.mem n (Enums.enums s) = true).

(** The order of the defines: by value, and by name among equal values. *)
Definition by_number_then_name (a b : string * string) : Prop :=
  String.compare (snd a) (snd b) = Lt
  \/ (snd a = snd b /\ String.leb (fst a) (fst b) = true).

(** *** Signatures *)

(** What [add_arg] guarantees of an argument: it is not named near or
    far, and it has the key group exactly when its type is GLenum or
    GLbitfield. *)
Definition arg_ok (a : GLFunction.arg) : Prop :=
  GLFunction.arg_name a <> "near"
  /\ GLFunction.arg_name a <> "far"
  /\ (GLFunction.arg_group a <> None
      <-> Str.mem (GLFunction.arg_type a) ["GLenum"; "GLbitfield"] = true).

(** The name an argument gets: near becomes hither and far becomes yon,
    every other name is kept. *)
Definition renamed (arg_name : string) : string :=
  if String.eqb arg_name "near" then "hither"
  else if String.eqb arg_name "far" then "yon"
  else arg_name.

(** The function [f], stored under [k], has the return type, the argument
    types and the argument names, renamed, of a command of the registry
    named [k]. *)
Definition signature_from (reg : Registry.t) (k : string) (f : GLFunction.t)
  : Prop :=
  exists c,
    In c (Registry.commands reg)
    /\ Registry.command_name c = k
    /\ GLFunction.ret_type f = Registry.command_ret_type c
    /\ map GLFunction.arg_type (GLFunction.args f)
       = map Registry.param_type (Registry.command_params c)
    /\ map GLFunction.arg_name (GLFunction.args f)
       = map (fun p => renamed (Registry.param_name p))
             (Registry.command_params c)
    /\ Forall arg_ok (GLFunction.args f).

Definition signatures_ok (reg : Registry.t) (fs : PyDict.t GLFunction.t)
  : Prop :=
  forall k f, PyDict.get k fs = Some f -> signature_from reg k f.

(** Every function of [fs'] is a function of [fs] with the same return
    type and arguments. *)
Definition same_signatures (fs fs' : PyDict.t GLFunction.t) : Prop :=
  forall k f', PyDict.get k fs' = Some f' ->
               exists f, PyDict.get k fs = Some f
                         /\ GLFunction.ret_type f' = GLFunction.ret_type f
                         /\ GLFunction.args f' = GLFunction.args f.

(** *** Declared aliases *)


(** *** Provider identifiers *)


(** ** Registries and models used by the examples *)

Module Examples.

Definition command (name : string) (alias : option string)
  : Registry.command :=
  Registry.make_command "void" name [] alias.

(** glFoo comes with core version 2.0 and with the extension GL_ARB_foo. *)
Definition core_and_extension : Registry.t :=
  Registry.make
    [ command "glFoo" None ]
    [ Registry.make_feature "gl" "2.0" "GL_VERSION_2_0" ["glFoo"] ]
    [ Registry.make_extension "GL_ARB_foo" "gl" ["glFoo"] ].


(** glFoo as the loader leaves it after the feature block of version 1.0. *)
Definition foo_with_core : GLFunction.t :=
  GLFunction.add_provider
    "epoxy_is_desktop_gl()" "epoxy_get_core_proc_address({0}, 10)"
    "Desktop OpenGL 1.0" (GLFunction.init "void" "glFoo").



(** A chain of three: glFooEXT names glFooARB, which names glFoo. *)
Definition alias_chain : Registry.t :=
  Registry.make
    [ command "glFooEXT" (Some "glFooARB");
      command "glFooARB" (Some "glFoo");
      command "glFoo" None ]
    [] [].

Definition alias_chain_model : Generator.t :=
  Generator.parse_function_definitions alias_chain (Generator.init "gl").

(** The feature blocks of OpenGL ES 1.0 as api gles1 and as api gles2 give
    the same label with different conditions. *)
Definition label_conflict : Registry.t :=
  Registry.make
    [ command "glA" None; command "glB" None ]
    [ Registry.make_feature "gles1" "1.0" "GL_VERSION_ES_CM_1_0" ["glA"];
      Registry.make_feature "gles2" "1.0" "GL_ES_VERSION_1_0" ["glB"] ]
    [].

Definition label_conflict_model : Generator.t :=
  match Generator.parse label_conflict (Generator.init "gl") with
  | Ok g => g
  | _ => Generator.init "gl"
  end.

(** glFoo is in core version 2.0; its aliases glFooARB and glFooEXT come with
    the extensions GL_ZZ_foo and GL_AA_foo. *)
Definition aliases_with_extensions : Registry.t :=
  Registry.make
    [ command "glFoo" None;
      command "glFooARB" (Some "glFoo");
      command "glFooEXT" (Some "glFoo") ]
    [ Registry.make_feature "gl" "2.0" "GL_VERSION_2_0" ["glFoo"] ]
    [ Registry.make_extension "GL_ZZ_foo" "gl" ["glFooARB"];
      Registry.make_extension "GL_AA_foo" "gl" ["glFooEXT"] ].

(** The candidates of the function [name] in the model generated from
    [reg]: entry-point name and label of each, in the order of the list, and
    whether the list is in the order of the specification's sort key. *)
Definition candidates_of (target : string) (reg : Registry.t) (name : string)
  : result (list (string * string) * bool) :=
  g <- generate 8 target reg ;;
  func <- PyDict.lookup name (Generator.functions g) ;;
  providers <- Generator.gather_providers g func ;;
  Ok (map (fun p => (GLProvider.name p, GLProvider.condition_name p)) providers,
      sortedb (fun p q => Generator.key_leb (provider_sort_by_label func p)
                                            (provider_sort_by_label func q))
              providers).

(** The vertex-array entry points of core version 3.0 and of the APPLE
    extension; neither names the other as its alias. *)
Definition vertex_array : Registry.t :=
  Registry.make
    [ command "glBindVertexArray" None;
      command "glBindVertexArrayAPPLE" None ]
    [ Registry.make_feature "gl" "3.0" "GL_VERSION_3_0" ["glBindVertexArray"] ]
    [ Registry.make_extension "GL_APPLE_vertex_array_object" "gl"
                              ["glBindVertexArrayAPPLE"] ].

Definition vertex_array_model : Generator.t :=
  match generate 1 "gl" vertex_array with
  | Ok g => g
  | _ => Generator.init "gl"
  end.



(** The model of [aliases_with_extensions] before and after interning. *)
Definition three_candidates_loaded : Generator.t :=
  match load_model 8 "gl" aliases_with_extensions with
  | Ok g => g
  | _ => Generator.init "gl"
  end.

Definition three_candidates_model : Generator.t :=
  match Generator.prepare_provider_enum three_candidates_loaded with
  | Ok g => g
  | _ => Generator.init "gl"
  end.

Definition three_candidates_cases : list Emitted.provider_case :=
  match Emitted.write_provider_resolver three_candidates_model with
  | Ok cases => cases
  | _ => []
  end.

(** The function glFoo of that model, its three candidates in the order of
    the list, and its resolver. *)
Definition glFoo : GLFunction.t :=
  match PyDict.get "glFoo" (Generator.functions three_candidates_model) with
  | Some f => f
  | None => GLFunction.init "void" "glFoo"
  end.

Definition candidate_core : GLProvider.t :=
  GLProvider.init
    "epoxy_is_desktop_gl() && epoxy_conservative_gl_version() >= 20"
    "Desktop OpenGL 2.0" "epoxy_get_core_proc_address({0}, 20)" "glFoo".

Definition candidate_arb : GLProvider.t :=
  GLProvider.init "epoxy_conservative_has_gl_extension(provider_name)"
                  "GL_ZZ_foo" "epoxy_get_proc_address({0})" "glFooARB".

Definition candidate_ext : GLProvider.t :=
  GLProvider.init "epoxy_conservative_has_gl_extension(provider_name)"
                  "GL_AA_foo" "epoxy_get_proc_address({0})" "glFooEXT".

Definition glFoo_resolver : Emitted.function_resolver :=
  match Emitted.write_function_ptr_resolver three_candidates_model glFoo with
  | Ok code => code
  | _ => Emitted.provider_resolver_call "" [] []
  end.

(** A process without desktop OpenGL in which every extension is present
    and no failure handler is installed; a loader returns the length of the
    entry-point name. *)
Definition extensions_only : Runtime.process :=
  Runtime.make_process
    (fun condition provider_name =>
       negb (prefix "epoxy_is_desktop_gl" condition))
    (fun loader entrypoint => String.length entrypoint)
    None.

(** A process in which no condition holds and no failure handler is
    installed. *)
Definition nothing_available : Runtime.process :=
  Runtime.make_process
    (fun condition provider_name => false)
    (fun loader entrypoint => String.length entrypoint)
    None.


(** Three commands of WGL 1.0: one named with the prefix wgl, one without
    wgl in its name, and one with wgl inside its name. *)
Definition wgl_names : Registry.t :=
  Registry.make
    [ command "wglCreateContext" None;
      command "SwapBuffers" None;
      command "GetwglThing" None ]
    [ Registry.make_feature "wgl" "1.0" "WGL_VERSION_1_0"
                            ["wglCreateContext"; "SwapBuffers"; "GetwglThing"] ]
    [].


(** glFooARB names glFoo as its alias, and glFoo is not declared. *)
Definition undeclared_alias_model : Generator.t :=
  Generator.parse_function_definitions
    (Registry.make [ command "glFooARB" (Some "glFoo") ] [] [])
    (Generator.init "gl").



(** glGetString of core version 1.0. *)
Definition get_string_with_version : Registry.t :=
  Registry.make
    [ Registry.make_command "const GLubyte *" "glGetString"
                            [ Registry.make_param "GLenum" "name" None ]
                            None ]
    [ Registry.make_feature "gl" "1.0" "GL_VERSION_1_0" ["glGetString"] ]
    [].

Definition get_string_model : Generator.t :=
  match load_model 1 "gl" get_string_with_version with
  | Ok g => g
  | _ => Generator.init "gl"
  end.

(** A registry that declares glGetString and glXGetProcAddress. *)
Definition get_string_and_glx : Registry.t :=
  Registry.make
    [ command "glGetString" None; command "glXGetProcAddress" None ]
    [] [].

(** The functions of [wgl_names] after the require block of WGL 1.0. *)
Definition wgl_required : Generator.t :=
  match
    Generator.process_require_statements
      ["wglCreateContext"; "SwapBuffers"; "GetwglThing"]
      "true" "epoxy_gl_dlsym({0})" "WGL 10"
      (Generator.parse_function_definitions wgl_names (Generator.init "wgl"))
  with
  | Ok g => g
  | _ => Generator.init "wgl"
  end.

(** An enum with two groups and an enum without a group. *)
Definition two_enums : list Enums.enum :=
  [ Enums.make_enum "GL_NONE" (Some "0") (Some "DrawBufferMode,PixelFormat");
    Enums.make_enum "GL_EXAMPLE_VALUE" (Some "0x0001") None ].

Definition two_enums_parsed : Enums.t :=
  match Enums.parse_enums two_enums Enums.init with
  | Ok s => s
  | _ => Enums.init
  end.

(** glDepthRange of core version 1.0, whose parameters are named near and
    far in the registry. *)
Definition depth_range : Registry.t :=
  Registry.make
    [ Registry.make_command "void" "glDepthRange"
                            [ Registry.make_param "GLdouble" "near" None;
                              Registry.make_param "GLdouble" "far" None ]
                            None ]
    [ Registry.make_feature "gl" "1.0" "GL_VERSION_1_0" ["glDepthRange"] ]
    [].

Definition depth_range_generated : Generator.t :=
  match generate 1 "gl" depth_range with
  | Ok g => g
  | _ => Generator.init "gl"
  end.

Definition depth_range_function : GLFunction.t :=
  match PyDict.get "glDepthRange" (Generator.functions depth_range_generated) with
  | Some f => f
  | None => GLFunction.init "void" "glDepthRange"
  end.

(** glX names an undeclared command as its alias; glA and glB name each
    other. *)
Definition cycle_behind_undeclared : Generator.t :=
  Generator.parse_function_definitions
    (Registry.make
       [ command "glX" (Some "glMissing");
         command "glA" (Some "glB");
         command "glB" (Some "glA") ]
       [] [])
    (Generator.init "gl").

End Examples.

(* ================================================================== *)
(** * Properties *)
(* ================================================================== *)

(** ** The order on strings *)

Lemma ascii_compare_refl (a : ascii) : Ascii.compare a a = Eq.
Proof. unfold Ascii.compare. apply N.compare_refl. Qed.

Lemma ascii_compare_lt_trans (a b c : ascii) :
  Ascii.compare a b = Lt -> Ascii.compare b c = Lt -> Ascii.compare a c = Lt.
Proof.
  unfold Ascii.compare. rewrite !N.compare_lt_iff. apply N.lt_trans.
Qed.

Lemma string_compare_refl (s : string) : String.compare s s = Eq.
Proof.
  induction s as [|a s IH]; simpl; [reflexivity|].
  now rewrite ascii_compare_refl.
Qed.

Lemma string_compare_eq (s1 s2 : string) :
  String.compare s1 s2 = Eq <-> s1 = s2.
Proof.
  split; [apply String.compare_eq_iff|].
  intros ->. apply string_compare_refl.
Qed.

Lemma string_compare_lt_trans (s1 s2 s3 : string) :
  String.compare s1 s2 = Lt -> String.compare s2 s3 = Lt ->
  String.compare s1 s3 = Lt.
Proof.
  revert s2 s3.
  induction s1 as [|a s1 IH]; intros [|b s2] [|c s3]; simpl;
    try discriminate; try reflexivity.
  destruct (Ascii.compare a b) eqn:Hab; try discriminate;
    destruct (Ascii.compare b c) eqn:Hbc; try discriminate; intros H1 H2.
  - apply Ascii.compare_eq_iff in Hab, Hbc. subst.
    rewrite ascii_compare_refl. eauto.
  - apply Ascii.compare_eq_iff in Hab. subst. now rewrite Hbc.
  - apply Ascii.compare_eq_iff in Hbc. subst. now rewrite Hab.
  - now rewrite (ascii_compare_lt_trans _ _ _ Hab Hbc).
Qed.

Lemma string_compare_gt_lt (s1 s2 : string) :
  String.compare s1 s2 = Gt <-> String.compare s2 s1 = Lt.
Proof.
  rewrite (String.compare_antisym s2 s1).
  destruct (String.compare s1 s2); simpl; split; congruence.
Qed.

Lemma string_leb_refl (s : string) : String.leb s s = true.
Proof. unfold String.leb. now rewrite string_compare_refl. Qed.

Lemma string_leb_trans (s1 s2 s3 : string) :
  String.leb s1 s2 = true -> String.leb s2 s3 = true ->
  String.leb s1 s3 = true.
Proof.
  unfold String.leb.
  destruct (String.compare s1 s2) eqn:H12; try discriminate;
    destruct (String.compare s2 s3) eqn:H23; try discriminate; intros _ _.
  - apply string_compare_eq in H12, H23. subst.
    now rewrite string_compare_refl.
  - apply string_compare_eq in H12. subst. now rewrite H23.
  - apply string_compare_eq in H23. subst. now rewrite H12.
  - now rewrite (string_compare_lt_trans _ _ _ H12 H23).
Qed.

Lemma string_leb_false_lt (s1 s2 : string) :
  String.leb s1 s2 = false -> String.compare s2 s1 = Lt.
Proof.
  unfold String.leb. destruct (String.compare s1 s2) eqn:H; try discriminate.
  intros _. now apply string_compare_gt_lt.
Qed.

(** ** Stable sorting *)

Section SortFacts.
Variables (A K : Type) (le : K -> K -> bool) (key : A -> K).
Hypothesis le_total : forall a b, le a b = true \/ le b a = true.
Hypothesis le_trans :
  forall a b c, le a b = true -> le b c = true -> le a c = true.

Lemma insert_perm (x : A) (l : list A) :
  Permutation (Sort.insert le key x l) (x :: l).
Proof.
  induction l as [|y l IH]; simpl; [apply Permutation_refl|].
  destruct (le (key x) (key y)); [apply Permutation_refl|].
  eapply Permutation_trans; [apply perm_skip, IH|apply perm_swap].
Qed.

Lemma sort_perm (l : list A) : Permutation (Sort.sort le key l) l.
Proof.
  induction l as [|x l IH]; simpl; [constructor|].
  eapply Permutation_trans; [apply insert_perm|now apply perm_skip].
Qed.

Lemma insert_sorted (x : A) (l : list A) :
  StronglySorted (Sort.key_le le key) l -> StronglySorted (Sort.key_le le key) (Sort.insert le key x l).
Proof.
  induction 1 as [|y l Hs IH Hall]; simpl.
  - constructor; constructor.
  - destruct (le (key x) (key y)) eqn:Hxy.
    + constructor; [now constructor|].
      constructor; [exact Hxy|].
      rewrite Forall_forall in *. intros z Hz.
      unfold Sort.key_le in *. eauto.
    + constructor; [exact IH|].
      assert (Hyx : Sort.key_le le key y x).
      { unfold Sort.key_le. destruct (le_total (key x) (key y)); congruence. }
      rewrite Forall_forall in *. intros z Hz.
      apply (Permutation_in _ (insert_perm x l)) in Hz.
      destruct Hz as [<-|Hz]; auto.
Qed.

Lemma sort_sorted (l : list A) : StronglySorted (Sort.key_le le key) (Sort.sort le key l).
Proof.
  induction l as [|x l IH]; simpl; [constructor|now apply insert_sorted].
Qed.

(** The sort is stable: elements whose keys are equal in the order keep the
    order they had in the input. *)
Lemma insert_filter (P : A -> bool) (x : A) (l : list A) :
  (forall a b, P a = true -> P b = true -> le (key a) (key b) = true) ->
  filter P (Sort.insert le key x l) = filter P (x :: l).
Proof.
  intros Hclass. induction l as [|y l IH]; [reflexivity|].
  cbn [Sort.insert]. destruct (le (key x) (key y)) eqn:Hxy; [reflexivity|].
  cbn [filter] in *. rewrite IH.
  destruct (P x) eqn:Hx, (P y) eqn:Hy; try reflexivity.
  rewrite (Hclass x y Hx Hy) in Hxy. discriminate.
Qed.

Lemma sort_stable (P : A -> bool) (l : list A) :
  (forall a b, P a = true -> P b = true -> le (key a) (key b) = true) ->
  filter P (Sort.sort le key l) = filter P l.
Proof.
  intros Hclass. induction l as [|x l IH]; [reflexivity|].
  cbn [Sort.sort]. rewrite (insert_filter _ _ _ Hclass).
  cbn [filter]. now rewrite IH.
Qed.

Lemma sort_In (x : A) (l : list A) : In x (Sort.sort le key l) <-> In x l.
Proof.
  split; apply Permutation_in;
    [apply sort_perm|apply Permutation_sym, sort_perm].
Qed.

Lemma sort_length (l : list A) :
  List.length (Sort.sort le key l) = List.length l.
Proof. apply Permutation_length, sort_perm. Qed.

End SortFacts.

(** ** Dictionaries *)

Section PyDictFacts.
Variable V : Type.
Implicit Types (d : PyDict.t V) (k : string) (v : V).

Lemma get_In d k v : PyDict.get k d = Some v -> In (k, v) d.
Proof.
  induction d as [|[k' v'] d IH]; simpl; [discriminate|].
  destruct (String.eqb_spec k k') as [->|Hne].
  - intros [= ->]. now left.
  - intros H. right. auto.
Qed.

Lemma get_In_keys d k v : PyDict.get k d = Some v -> In k (PyDict.keys d).
Proof.
  intros H. apply get_In in H. apply (in_map fst) in H. exact H.
Qed.

Lemma get_None_not_In d k : PyDict.get k d = None <-> ~ In k (PyDict.keys d).
Proof.
  induction d as [|[k' v'] d IH]; simpl; [tauto|].
  destruct (String.eqb_spec k k') as [->|Hne].
  - split; [discriminate|]. intros H. exfalso. apply H. now left.
  - rewrite IH. split; intros H; [intros [E|Hin]; [congruence|tauto]|tauto].
Qed.

Lemma In_get d k v : PyDict.wf d -> In (k, v) d -> PyDict.get k d = Some v.
Proof.
  unfold PyDict.wf, PyDict.keys.
  induction d as [|[k' v'] d IH]; simpl; [tauto|].
  intros Hnd [E|Hin].
  - injection E as -> ->. now rewrite String.eqb_refl.
  - inversion Hnd as [|? ? Hnotin Hnd']; subst.
    destruct (String.eqb_spec k k') as [->|Hne]; [|auto].
    exfalso. apply Hnotin. apply (in_map fst) in Hin. exact Hin.
Qed.

Lemma mem_true d k : PyDict.mem k d = true <-> exists v, PyDict.get k d = Some v.
Proof.
  unfold PyDict.mem. destruct (PyDict.get k d) as [v|].
  - split; eauto.
  - split; [discriminate|]. intros [v H]. discriminate.
Qed.

Lemma mem_false d k : PyDict.mem k d = false <-> PyDict.get k d = None.
Proof.
  unfold PyDict.mem. destruct (PyDict.get k d); split; congruence.
Qed.

Lemma get_set_same d k v : PyDict.get k (PyDict.set k v d) = Some v.
Proof.
  induction d as [|[k' v'] d IH]; simpl.
  - now rewrite String.eqb_refl.
  - destruct (String.eqb_spec k k') as [->|Hne]; simpl.
    + now rewrite String.eqb_refl.
    + destruct (String.eqb_spec k k'); [contradiction|exact IH].
Qed.

Lemma get_set_other d k k' v :
  k' <> k -> PyDict.get k' (PyDict.set k v d) = PyDict.get k' d.
Proof.
  intros Hne. induction d as [|[k0 v0] d IH]; simpl.
  - destruct (String.eqb_spec k' k); [contradiction|reflexivity].
  - destruct (String.eqb_spec k k0) as [->|Hne0]; simpl.
    + destruct (String.eqb_spec k' k0); [contradiction|reflexivity].
    + now rewrite IH.
Qed.

Lemma keys_set_present d k v :
  PyDict.mem k d = true -> PyDict.keys (PyDict.set k v d) = PyDict.keys d.
Proof.
  unfold PyDict.mem, PyDict.keys.
  induction d as [|[k' v'] d IH]; simpl; [discriminate|].
  destruct (String.eqb_spec k k') as [->|Hne]; simpl; [reflexivity|].
  intros H. now rewrite IH.
Qed.

Lemma keys_set_absent d k v :
  PyDict.mem k d = false ->
  PyDict.keys (PyDict.set k v d) = (PyDict.keys d ++ [k])%list.
Proof.
  unfold PyDict.mem, PyDict.keys.
  induction d as [|[k' v'] d IH]; simpl; [reflexivity|].
  destruct (String.eqb_spec k k') as [->|Hne]; simpl; [discriminate|].
  intros H. now rewrite IH.
Qed.

Lemma keys_set_In d k k' v :
  In k' (PyDict.keys (PyDict.set k v d)) <-> k' = k \/ In k' (PyDict.keys d).
Proof.
  destruct (PyDict.mem k d) eqn:Hm.
  - rewrite keys_set_present by assumption.
    split; [tauto|]. intros [->|H]; [|exact H].
    apply mem_true in Hm. destruct Hm as [v0 Hv0]. eapply get_In_keys; eauto.
  - rewrite keys_set_absent by assumption. rewrite in_app_iff. simpl.
    split; intros H; [destruct H as [H|[H|[]]]; auto|destruct H; auto].
Qed.

Lemma wf_set d k v : PyDict.wf d -> PyDict.wf (PyDict.set k v d).
Proof.
  unfold PyDict.wf. intros Hnd.
  destruct (PyDict.mem k d) eqn:Hm.
  - now rewrite keys_set_present.
  - rewrite keys_set_absent by assumption.
    apply NoDup_app; [exact Hnd|repeat constructor; intros []|].
    intros x Hx [<-|[]]. apply mem_false, get_None_not_In in Hm. tauto.
Qed.

Lemma count_absent d k : ~ In k (PyDict.keys d) -> PyDict.count k d = 0.
Proof.
  unfold PyDict.count, PyDict.keys.
  induction d as [|[k' v'] d IH]; simpl; [reflexivity|].
  intros H. destruct (String.eqb_spec k k') as [->|Hne]; [tauto|].
  apply IH. tauto.
Qed.

Lemma count_present d k :
  PyDict.wf d -> In k (PyDict.keys d) -> PyDict.count k d = 1.
Proof.
  unfold PyDict.wf.
  induction d as [|[k' v'] d IH]; simpl; [tauto|].
  intros Hnd Hin. inversion Hnd as [|? ? Hnotin Hnd']; subst.
  unfold PyDict.count. simpl.
  destruct (String.eqb_spec k k') as [->|Hne]; simpl.
  - f_equal. now apply count_absent.
  - apply IH; [exact Hnd'|]. destruct Hin; congruence.
Qed.

Lemma wf_nil : PyDict.wf (@PyDict.empty V).
Proof. constructor. Qed.

Lemma values_In d v : In v (PyDict.values d) <-> exists k, In (k, v) d.
Proof.
  unfold PyDict.values. rewrite in_map_iff. split.
  - intros [[k v'] [E H]]. simpl in E. subst. eauto.
  - intros [k H]. exists (k, v). auto.
Qed.

End PyDictFacts.

(** ** Characters of a replaced string *)

Lemma has_char_append (c : ascii) (s1 s2 : string) :
  Str.has_char c (s1 ++ s2) = Str.has_char c s1 || Str.has_char c s2.
Proof.
  induction s1 as [|a s1 IH]; simpl; [reflexivity|].
  now rewrite IH, orb_assoc.
Qed.

Lemma replace_from_cons (skip : nat) (old new : string) (c : ascii) (s : string) :
  Str.replace_from skip old new (String c s) =
  match skip with
  | S k => Str.replace_from k old new s
  | O =>
      if prefix old (String c s)
      then new ++ Str.replace_from (String.length old - 1) old new s
      else String c (Str.replace_from 0 old new s)
  end.
Proof. reflexivity. Qed.

Lemma prefix_first_char (a : ascii) (old' : string) (c : ascii) (s : string) :
  prefix (String a old') (String c s) = true -> a = c.
Proof.
  simpl. destruct (ascii_dec a c); [auto|discriminate].
Qed.

Lemma prefix_one_char (a c : ascii) (s : string) :
  prefix (String a EmptyString) (String c s) = Ascii.eqb a c.
Proof.
  simpl. destruct (ascii_dec a c) as [->|Hne].
  - rewrite Ascii.eqb_refl. now destruct s.
  - symmetry. now apply Ascii.eqb_neq.
Qed.

Lemma replace_from_chars (c : ascii) (old new s : string) :
  forall skip,
    Str.has_char c (Str.replace_from skip old new s) = true ->
    Str.has_char c s = true \/ Str.has_char c new = true.
Proof.
  induction s as [|a s IH]; intros skip; [discriminate|].
  rewrite replace_from_cons. cbn [Str.has_char].
  destruct skip as [|k].
  - destruct (prefix old (String a s)).
    + rewrite has_char_append, orb_true_iff. intros [H|H]; [now right|].
      apply IH in H. rewrite orb_true_iff. tauto.
    + cbn [Str.has_char]. rewrite !orb_true_iff. intros [H|H]; [tauto|].
      apply IH in H. tauto.
  - intros H. apply IH in H. rewrite orb_true_iff. tauto.
Qed.

Lemma replace_char_gone (a : ascii) (new s : string) :
  Str.has_char a new = false ->
  Str.has_char a (Str.replace (String a EmptyString) new s) = false.
Proof.
  intros Hnew. unfold Str.replace.
  induction s as [|c s IH]; [reflexivity|].
  rewrite replace_from_cons, prefix_one_char.
  destruct (Ascii.eqb a c) eqn:Hac.
  - rewrite has_char_append, Hnew. exact IH.
  - cbn [Str.has_char]. now rewrite Hac, IH.
Qed.

Lemma replace_absent (a : ascii) (old' new s : string) :
  Str.has_char a s = false -> Str.replace (String a old') new s = s.
Proof.
  unfold Str.replace.
  induction s as [|c s IH]; [reflexivity|].
  cbn [Str.has_char]. rewrite orb_false_iff. intros [Hac Hs].
  rewrite replace_from_cons.
  destruct (prefix (String a old') (String c s)) eqn:Hp.
  - apply prefix_first_char in Hp. subst. now rewrite Ascii.eqb_refl in Hac.
  - now rewrite IH.
Qed.

Lemma replace_keeps_absent (c : ascii) (old new s : string) :
  Str.has_char c s = false -> Str.has_char c new = false ->
  Str.has_char c (Str.replace old new s) = false.
Proof.
  intros Hs Hnew.
  destruct (Str.has_char c (Str.replace old new s)) eqn:H; [|reflexivity].
  apply replace_from_chars in H. destruct H; congruence.
Qed.

(** ** Provider identifiers *)

Lemma enum_of_init (c label l n : string) :
  GLProvider.enum (GLProvider.init c label l n) =
  "PROVIDER_"
    ++ Str.replace "." "_"
         (Str.replace Str.escaped_quote "" (Str.replace " " "_" label)).
Proof. reflexivity. Qed.

Lemma enum_depends_on_label (c1 c2 label l1 l2 n1 n2 : string) :
  GLProvider.enum (GLProvider.init c1 label l1 n1) =
  GLProvider.enum (GLProvider.init c2 label l2 n2).
Proof. now rewrite !enum_of_init. Qed.

Lemma enum_no_space_no_dot (c label l n : string) :
  Str.has_char " " (GLProvider.enum (GLProvider.init c label l n)) = false
  /\ Str.has_char "." (GLProvider.enum (GLProvider.init c label l n)) = false.
Proof.
  rewrite enum_of_init, !has_char_append. split.
  - apply orb_false_iff. split; [reflexivity|].
    apply replace_keeps_absent; [|reflexivity].
    apply replace_keeps_absent; [|reflexivity].
    now apply replace_char_gone.
  - apply orb_false_iff. split; [reflexivity|].
    now apply replace_char_gone.
Qed.

Lemma enum_of_plain_label (c label l n : string) :
  Str.has_char " " label = false ->
  Str.has_char "." label = false ->
  Str.has_char Str.backslash label = false ->
  GLProvider.enum (GLProvider.init c label l n) = "PROVIDER_" ++ label.
Proof.
  intros Hsp Hdot Hbs. rewrite enum_of_init.
  rewrite (replace_absent " " "" "_" label Hsp).
  unfold Str.escaped_quote.
  rewrite (replace_absent Str.backslash _ "" label Hbs).
  now rewrite (replace_absent "." "" "_" label Hdot).
Qed.

(** ** Adding a provider under a label that is already bound *)

(** C10: for every function, [add_provider] under a condition label that
    already has a binding on that function replaces the earlier binding in
    place: the labels of the function and their order are unchanged, exactly
    one binding is stored under the label, and it is the provider built from
    the later call's condition and loader (for the function's own name); the
    bindings under other labels are untouched.  [add_provider] is a total
    function: it returns the updated function whatever the condition and the
    loader are, equal to the earlier ones or not. *)
Theorem add_provider_replaces_in_place
        (f : GLFunction.t) (condition loader condition_name : string)
        (earlier : GLProvider.t) :
  PyDict.wf (GLFunction.providers f) ->
  PyDict.get condition_name (GLFunction.providers f) = Some earlier ->
  let f' := GLFunction.add_provider condition loader condition_name f in
  PyDict.keys (GLFunction.providers f') = PyDict.keys (GLFunction.providers f)
  /\ PyDict.count condition_name (GLFunction.providers f') = 1
  /\ (exists p,
         PyDict.get condition_name (GLFunction.providers f') = Some p
         /\ p = GLProvider.init condition condition_name loader
                                (GLFunction.name f)
         /\ GLProvider.condition p = condition
         /\ GLProvider.loader p = loader)
  /\ (forall k, k <> condition_name ->
                PyDict.get k (GLFunction.providers f')
                = PyDict.get k (GLFunction.providers f)).
Proof.
  intros Hwf Hget f'. subst f'. unfold GLFunction.add_provider. simpl.
  assert (Hmem : PyDict.mem condition_name (GLFunction.providers f) = true).
  { apply mem_true. eauto. }
  split; [now apply keys_set_present|].
  split.
  - apply count_present; [now apply wf_set|].
    apply keys_set_In. now left.
  - split.
    + eexists. split; [apply get_set_same|]. repeat split.
    + intros k Hk. now apply get_set_other.
Qed.

Lemma add_provider_replaces_in_place_witness :
  let f' :=
    GLFunction.add_provider "true" "epoxy_gl_dlsym({0})" "Desktop OpenGL 1.0"
                            Examples.foo_with_core in
  PyDict.keys (GLFunction.providers f') = ["Desktop OpenGL 1.0"]
  /\ PyDict.count "Desktop OpenGL 1.0" (GLFunction.providers f') = 1.
Proof.
  intros f'.
  assert (Hwf : PyDict.wf (GLFunction.providers Examples.foo_with_core)).
  { repeat constructor. simpl. tauto. }
  destruct (@add_provider_replaces_in_place
              Examples.foo_with_core "true" "epoxy_gl_dlsym({0})"
              "Desktop OpenGL 1.0"
              (GLProvider.init "epoxy_is_desktop_gl()" "Desktop OpenGL 1.0"
                               "epoxy_get_core_proc_address({0}, 10)" "glFoo")
              Hwf eq_refl) as [Hkeys [Hcount _]].
  split; [exact Hkeys|exact Hcount].
Defined.

(** ** Alias resolution *)

Lemma bind_Ok (A B : Type) (m : result A) (k : A -> result B) (b : B) :
  bind m k = Ok b -> exists a, m = Ok a /\ k a = Ok b.
Proof. destruct m; simpl; [eauto|discriminate|discriminate]. Qed.

Lemma lookup_Ok (V : Type) (k : string) (d : PyDict.t V) (v : V) :
  PyDict.lookup k d = Ok v <-> PyDict.get k d = Some v.
Proof.
  unfold PyDict.lookup. destruct (PyDict.get k d); split; congruence.
Qed.

Lemma find_alias_root_spec (fuel : nat) (fs : PyDict.t GLFunction.t) :
  forall key f rk r,
    PyDict.get key fs = Some f ->
    Generator.find_alias_root fuel fs key f = Ok (rk, r) ->
    PyDict.get rk fs = Some r /\ self_named r.
Proof.
  unfold self_named.
  induction fuel as [|fuel IH]; intros key f rk r Hget; simpl;
    destruct (String.eqb_spec (GLFunction.alias_name f) (GLFunction.name f))
      as [Heq|Hne]; try discriminate.
  - intros [= <- <-]. auto.
  - intros [= <- <-]. auto.
  - intros H. apply bind_Ok in H. destruct H as [next [Hl H]].
    apply lookup_Ok in Hl. eauto.
Qed.

(** More iterations do not change a walk that has finished. *)
Lemma find_alias_root_fuel (fs : PyDict.t GLFunction.t) (n m : nat) :
  n <= m ->
  forall key f,
    Generator.find_alias_root n fs key f <> OutOfFuel ->
    Generator.find_alias_root m fs key f = Generator.find_alias_root n fs key f.
Proof.
  revert m. induction n as [|n IH]; intros m Hle key f; simpl.
  - destruct m; simpl;
      destruct (String.eqb (GLFunction.alias_name f) (GLFunction.name f));
      congruence.
  - destruct m as [|m]; [lia|]. simpl.
    destruct (String.eqb (GLFunction.alias_name f) (GLFunction.name f));
      [reflexivity|].
    destruct (PyDict.lookup (GLFunction.alias_name f) fs) as [next|e|];
      simpl; try reflexivity.
    apply IH. lia.
Qed.

Lemma resolve_alias_fuel (n m : nat) (key : string) (g : Generator.t) :
  n <= m ->
  Generator.resolve_alias n key g <> OutOfFuel ->
  Generator.resolve_alias m key g = Generator.resolve_alias n key g.
Proof.
  intros Hle. unfold Generator.resolve_alias.
  destruct (PyDict.lookup key (Generator.functions g)) as [func|e|]; simpl;
    try reflexivity.
  destruct (negb (GLFunction.alias_name func =? GLFunction.name func));
    [|reflexivity].
  intros H.
  rewrite (find_alias_root_fuel (Generator.functions g) Hle); [reflexivity|].
  intros E. rewrite E in H. now apply H.
Qed.

Lemma resolve_aliases_loop_fuel (n m : nat) (keys : list string) :
  n <= m ->
  forall g,
    for_each (Generator.resolve_alias n) keys g <> OutOfFuel ->
    for_each (Generator.resolve_alias m) keys g =
    for_each (Generator.resolve_alias n) keys g.
Proof.
  intros Hle. induction keys as [|k keys IH]; intros g; simpl; [reflexivity|].
  intros H.
  assert (Hk : Generator.resolve_alias n k g <> OutOfFuel).
  { intros E. rewrite E in H. now apply H. }
  rewrite (resolve_alias_fuel k g Hle Hk).
  destruct (Generator.resolve_alias n k g) as [g1|e|]; simpl in *;
    [now apply IH|reflexivity|reflexivity].
Qed.

Lemma resolve_aliases_fuel (n m : nat) (g : Generator.t) :
  n <= m ->
  Generator.resolve_aliases n g <> OutOfFuel ->
  Generator.resolve_aliases m g = Generator.resolve_aliases n g.
Proof. intros. now apply resolve_aliases_loop_fuel. Qed.

Lemma load_model_fuel (n m : nat) (target : string) (reg : Registry.t) :
  n <= m ->
  load_model n target reg <> OutOfFuel ->
  load_model m target reg = load_model n target reg.
Proof.
  intros Hle. unfold load_model.
  destruct (Generator.parse reg (Generator.init target)) as [g0|e|]; simpl;
    try reflexivity.
  set (g1 := Generator.sort_functions _).
  intros H.
  rewrite (resolve_aliases_fuel g1 Hle); [reflexivity|].
  intros E. rewrite E in H. now apply H.
Qed.

Lemma generate_fuel (n m : nat) (target : string) (reg : Registry.t) :
  n <= m ->
  generate n target reg <> OutOfFuel ->
  generate m target reg = generate n target reg.
Proof.
  intros Hle H. unfold generate in *.
  rewrite (load_model_fuel target reg Hle); [reflexivity|].
  intros E. rewrite E in H. now apply H.
Qed.

Lemma generate_deterministic
      (fuel1 fuel2 : nat) (target : string) (reg : Registry.t)
      (g1 g2 : Generator.t) :
  generate fuel1 target reg = Ok g1 ->
  generate fuel2 target reg = Ok g2 ->
  g1 = g2.
Proof.
  intros H1 H2.
  assert (E1 : generate (Nat.max fuel1 fuel2) target reg = Ok g1).
  { rewrite (@generate_fuel fuel1); [exact H1|lia|congruence]. }
  assert (E2 : generate (Nat.max fuel1 fuel2) target reg = Ok g2).
  { rewrite (@generate_fuel fuel2); [exact H2|lia|congruence]. }
  congruence.
Qed.

(** What one iteration of the [for] loop of [resolve_aliases] does. *)
Lemma resolve_alias_spec (fuel : nat) (key : string) (g g' : Generator.t) :
  Generator.resolve_alias fuel key g = Ok g' ->
  exists func,
    PyDict.get key (Generator.functions g) = Some func
    /\ ((self_named func /\ g' = g)
        \/ (~ self_named func
            /\ exists rk r,
                PyDict.get rk (Generator.functions g) = Some r
                /\ self_named r
                /\ rk <> key
                /\ g' = Generator.set_functions
                          (PyDict.set
                             rk
                             (GLFunction.set_alias_exts
                                (GLFunction.alias_exts r ++ [key]) r)
                             (PyDict.set
                                key
                                (GLFunction.set_alias_func
                                   (Some rk)
                                   (GLFunction.set_alias_name
                                      (GLFunction.name r) func))
                                (Generator.functions g)))
                          g)).
Proof.
  unfold Generator.resolve_alias. intros H.
  apply bind_Ok in H. destruct H as [func [Hl H]].
  apply lookup_Ok in Hl. exists func. split; [exact Hl|].
  unfold self_named.
  destruct (String.eqb_spec (GLFunction.alias_name func) (GLFunction.name func))
    as [Heq|Hne]; simpl in H.
  - left. split; [exact Heq|congruence].
  - right. split; [exact Hne|].
    apply bind_Ok in H. destruct H as [[rk r] [Hroot H]].
    destruct (find_alias_root_spec _ _ _ Hl Hroot) as [Hr Hself].
    exists rk, r. repeat split; try assumption.
    + intros ->. unfold self_named in Hself. congruence.
    + congruence.
Qed.





(** ** Alias cycles *)


(** ** Invariants of alias resolution *)

Lemma set_split (V : Type) (k : string) (d : PyDict.t V) (v : V) :
  PyDict.get k d = Some v ->
  exists l1 l2,
    d = (l1 ++ (k, v) :: l2)%list
    /\ forall v', PyDict.set k v' d = (l1 ++ (k, v') :: l2)%list.
Proof.
  induction d as [|[k0 v0] d IH]; simpl; [discriminate|].
  destruct (String.eqb_spec k k0) as [->|Hne].
  - intros [= ->]. exists [], d. split; [reflexivity|]. intros v'. reflexivity.
  - intros H. destruct (IH H) as [l1 [l2 [-> Hset]]].
    exists ((k0, v0) :: l1), l2. split; [reflexivity|].
    intros v'. simpl. now rewrite Hset.
Qed.

Lemma exts_of_set (fs : PyDict.t GLFunction.t) (k : string)
      (f f' : GLFunction.t) (extra : list string) :
  PyDict.get k fs = Some f ->
  GLFunction.alias_exts f' = (GLFunction.alias_exts f ++ extra)%list ->
  Permutation (exts_of (PyDict.set k f' fs)) (extra ++ exts_of fs).
Proof.
  intros Hget Hexts.
  destruct (set_split _ _ Hget) as [l1 [l2 [-> Hset]]].
  rewrite Hset. unfold exts_of, PyDict.values.
  rewrite !map_app, !flat_map_app. simpl. rewrite Hexts.
  rewrite <- !app_assoc.
  rewrite (app_assoc extra).
  apply Permutation_sym.
  eapply Permutation_trans;
    [apply Permutation_app_tail, Permutation_app_comm|].
  rewrite <- app_assoc. apply Permutation_app_head.
  rewrite !app_assoc. apply Permutation_app_tail.
  apply Permutation_app_comm.
Qed.

Lemma mem_of_get (V : Type) (k : string) (d : PyDict.t V) (v : V) :
  PyDict.get k d = Some v -> PyDict.mem k d = true.
Proof. intros H. apply mem_true. eauto. Qed.

Section ResolveStep.
Variables (fs : PyDict.t GLFunction.t) (key rk : string)
          (func r : GLFunction.t).
Hypothesis Hwf : PyDict.wf fs.
Hypothesis Hnames : names_ok fs.
Hypothesis Hfunc : PyDict.get key fs = Some func.
Hypothesis Hnonself : ~ self_named func.
Hypothesis Hr : PyDict.get rk fs = Some r.
Hypothesis Hself : self_named r.
Hypothesis Hne : rk <> key.

Lemma fs_after_get (k : string) :
  PyDict.get k (table_after fs key rk func r) =
  if String.eqb k rk
  then Some (GLFunction.set_alias_exts (GLFunction.alias_exts r ++ [key]) r)
  else if String.eqb k key
       then Some (GLFunction.set_alias_func
                    (Some rk)
                    (GLFunction.set_alias_name (GLFunction.name r) func))
       else PyDict.get k fs.
Proof.
  unfold table_after.
  destruct (String.eqb_spec k rk) as [->|H1]; [apply get_set_same|].
  rewrite get_set_other by assumption.
  destruct (String.eqb_spec k key) as [->|H2]; [apply get_set_same|].
  now rewrite get_set_other.
Qed.

Lemma fs_after_wf : PyDict.wf (table_after fs key rk func r).
Proof. unfold table_after. now do 2 apply wf_set. Qed.

Lemma fs_after_keys : PyDict.keys (table_after fs key rk func r) = PyDict.keys fs.
Proof.
  unfold table_after. rewrite keys_set_present.
  - apply keys_set_present. eapply mem_of_get; eauto.
  - apply mem_true. rewrite get_set_other by assumption. eauto.
Qed.

Lemma fs_after_names : names_ok (table_after fs key rk func r).
Proof.
  intros k f. rewrite fs_after_get.
  destruct (String.eqb_spec k rk) as [->|H1].
  - intros [= <-]. simpl. now apply Hnames.
  - destruct (String.eqb_spec k key) as [->|H2].
    + intros [= <-]. simpl. now apply Hnames.
    + apply Hnames.
Qed.

Lemma fs_after_nonroot (k : string) : nonroot (table_after fs key rk func r) k = nonroot fs k.
Proof.
  unfold nonroot. rewrite fs_after_get.
  destruct (String.eqb_spec k rk) as [->|H1].
  - now rewrite Hr.
  - destruct (String.eqb_spec k key) as [->|H2]; [|reflexivity].
    rewrite Hfunc. simpl.
    rewrite (Hnames _ Hr), (Hnames _ Hfunc).
    destruct (String.eqb_spec rk key); [contradiction|].
    destruct (String.eqb_spec (GLFunction.alias_name func) key) as [E|];
      [|reflexivity].
    exfalso. apply Hnonself. unfold self_named.
    now rewrite (Hnames _ Hfunc).
Qed.

Lemma fs_after_exts : Permutation (exts_of (table_after fs key rk func r)) (key :: exts_of fs).
Proof.
  unfold table_after.
  eapply Permutation_trans.
  - apply (@exts_of_set _ rk r _ [key]); [|reflexivity].
    now rewrite get_set_other.
  - simpl. apply perm_skip.
    eapply Permutation_trans.
    + apply (@exts_of_set _ key func _ []); [exact Hfunc|].
      simpl. now rewrite app_nil_r.
    + apply Permutation_refl.
Qed.

Lemma fs_after_resolved (todo : list string) :
  resolved_but (key :: todo) fs -> resolved_but todo (table_after fs key rk func r).
Proof.
  intros Hres k f. rewrite fs_after_get.
  destruct (String.eqb_spec k rk) as [->|H1].
  - intros [= <-]. left. exact Hself.
  - destruct (String.eqb_spec k key) as [->|H2].
    + intros [= <-]. right. right.
      exists (GLFunction.set_alias_exts (GLFunction.alias_exts r ++ [key]) r).
      simpl. rewrite (Hnames _ Hr), fs_after_get, String.eqb_refl.
      repeat split.
      * exact Hself.
      * apply in_or_app. right. now left.
    + intros Hf. destruct (Hres k f Hf) as [Hs|[[E|Hin]|Hatt]].
      * now left.
      * congruence.
      * right. now left.
      * right. right. destruct Hatt as [r1 [Hr1 [Hs1 [Hin1 Hfn]]]].
        destruct (String.eqb_spec (GLFunction.alias_name f) rk) as [E|E].
        -- exists (GLFunction.set_alias_exts
                     (GLFunction.alias_exts r ++ [key]) r).
           rewrite fs_after_get, E, String.eqb_refl.
           rewrite E in Hr1. assert (r1 = r) by congruence. subst r1.
           repeat split; [exact Hself| |now rewrite <- E].
           simpl. apply in_or_app. now left.
        -- exists r1. rewrite fs_after_get.
           destruct (String.eqb_spec (GLFunction.alias_name f) rk);
             [contradiction|].
           destruct (String.eqb_spec (GLFunction.alias_name f) key) as [E'|E'].
           ++ exfalso. rewrite E' in Hr1.
              assert (r1 = func) by congruence. subst r1. contradiction.
           ++ repeat split; assumption.
Qed.

End ResolveStep.

Lemma nonroot_true (fs : PyDict.t GLFunction.t) (k : string) (f : GLFunction.t) :
  PyDict.get k fs = Some f -> (nonroot fs k = true <-> ~ self_named f).
Proof.
  intros H. unfold nonroot, self_named. rewrite H.
  destruct (String.eqb_spec (GLFunction.alias_name f) (GLFunction.name f));
    simpl; split; congruence.
Qed.

Lemma resolve_loop_inv (fuel : nat) (rest : list string) :
  forall keys g g',
    for_each (Generator.resolve_alias fuel) keys g = Ok g' ->
    PyDict.wf (Generator.functions g) ->
    names_ok (Generator.functions g) ->
    resolved_but (keys ++ rest) (Generator.functions g) ->
    PyDict.wf (Generator.functions g')
    /\ names_ok (Generator.functions g')
    /\ PyDict.keys (Generator.functions g') = PyDict.keys (Generator.functions g)
    /\ (forall k, nonroot (Generator.functions g') k
                  = nonroot (Generator.functions g) k)
    /\ resolved_but rest (Generator.functions g')
    /\ Permutation (exts_of (Generator.functions g'))
                   (filter (nonroot (Generator.functions g)) keys
                    ++ exts_of (Generator.functions g)).
Proof.
  induction keys as [|key keys IH]; intros g g' Hrun Hwf Hnames Hres.
  - injection Hrun as <-. repeat split; auto.
  - simpl in Hrun. apply bind_Ok in Hrun. destruct Hrun as [g1 [Hstep Hrun]].
    destruct (resolve_alias_spec _ _ _ Hstep)
      as [func [Hfunc [[Hs ->]|[Hns [rk [r [Hr [Hself [Hne ->]]]]]]]]].
    + assert (Hres' : resolved_but (keys ++ rest) (Generator.functions g)).
      { intros k f Hf. destruct (Hres k f Hf) as [H|[[E|H]|H]]; auto.
        subst k. left. congruence. }
      destruct (IH _ _ Hrun Hwf Hnames Hres')
        as [H1 [H2 [H3 [H4 [H5 H6]]]]].
      repeat split; auto.
      simpl.
      destruct (nonroot (Generator.functions g) key) eqn:E; [|exact H6].
      apply (nonroot_true _ _ Hfunc) in E. contradiction.
    + set (g1 := Generator.set_functions _ g) in *.
      set (fs := Generator.functions g) in *.
      assert (E1 : Generator.functions g1 = table_after fs key rk func r)
        by reflexivity.
      assert (Hwf1 : PyDict.wf (Generator.functions g1))
        by (rewrite E1; now apply fs_after_wf).
      assert (Hnames1 : names_ok (Generator.functions g1))
        by (rewrite E1; now apply fs_after_names).
      assert (Hres1 : resolved_but (keys ++ rest) (Generator.functions g1))
        by (rewrite E1; now apply fs_after_resolved).
      destruct (IH _ _ Hrun Hwf1 Hnames1 Hres1)
        as [H1 [H2 [H3 [H4 [H5 H6]]]]].
      assert (Hnr : forall k, nonroot (Generator.functions g1) k = nonroot fs k)
        by (intros k; rewrite E1; now apply fs_after_nonroot).
      repeat split; auto.
      * rewrite H3, E1. now apply fs_after_keys.
      * intros k. now rewrite H4.
      * simpl. rewrite (proj2 (nonroot_true _ _ Hfunc) Hns).
        eapply Permutation_trans; [exact H6|].
        rewrite (filter_ext _ _ Hnr), E1.
        eapply Permutation_trans;
          [apply Permutation_app_head; now apply fs_after_exts|].
        apply Permutation_sym, Permutation_middle.
Qed.

Lemma freshly_parsed_names (g : Generator.t) :
  freshly_parsed g -> names_ok (Generator.functions g).
Proof.
  intros [_ H] k f Hget. apply get_In in Hget. now destruct (H k f Hget).
Qed.

Lemma freshly_parsed_exts (g : Generator.t) :
  freshly_parsed g -> exts_of (Generator.functions g) = [].
Proof.
  intros [_ H]. unfold exts_of, PyDict.values.
  induction (Generator.functions g) as [|[k f] fs IH]; [reflexivity|].
  simpl. destruct (H k f (or_introl eq_refl)) as [_ [-> _]]. simpl.
  apply IH. intros k' f' Hin. apply H. now right.
Qed.

(** ** Alias roots *)

(** C3: after alias resolution has completed on a freshly parsed function
    table, the recorded alias target of the recorded alias target of every
    function is that target itself, and every function whose declared alias
    target differs from its own name occurs exactly once in all the
    dependent-alias lists together, namely in the list of its root, a
    self-naming function which it records as its alias target. *)
Theorem resolve_aliases_flattens
        (fuel : nat) (g g' : Generator.t) :
  freshly_parsed g ->
  Generator.resolve_aliases fuel g = Ok g' ->
  (forall k f,
      PyDict.get k (Generator.functions g') = Some f ->
      exists r, root g' f = Some r /\ root g' r = Some r)
  /\ (forall k f,
         PyDict.get k (Generator.functions g) = Some f ->
         GLFunction.alias_name f <> GLFunction.name f ->
         count_occ string_dec (all_alias_exts g') k = 1
         /\ exists f' r,
             PyDict.get k (Generator.functions g') = Some f'
             /\ root g' f' = Some r
             /\ self_named r
             /\ In k (GLFunction.alias_exts r)
             /\ GLFunction.alias_func f' = Some (GLFunction.name r)).
Proof.
  intros Hfresh Hrun. unfold Generator.resolve_aliases in Hrun.
  assert (Hres0 : resolved_but (PyDict.keys (Generator.functions g) ++ [])
                               (Generator.functions g)).
  { intros k f Hf. right. left. rewrite app_nil_r.
    eapply get_In_keys; eauto. }
  destruct (@resolve_loop_inv fuel [] _ g g' Hrun (proj1 Hfresh)
                              (freshly_parsed_names Hfresh) Hres0)
    as [Hwf [Hnames [Hkeys [Hnr [Hres Hperm]]]]].
  rewrite (freshly_parsed_exts Hfresh), app_nil_r in Hperm.
  assert (Hroot : forall k f,
             PyDict.get k (Generator.functions g') = Some f ->
             attached (Generator.functions g') k f ->
             exists r, root g' f = Some r /\ root g' r = Some r
                       /\ self_named r /\ In k (GLFunction.alias_exts r)
                       /\ GLFunction.alias_func f = Some (GLFunction.name r)).
  { intros k f Hf [r [Hr [Hs [Hin Hfn]]]]. exists r. unfold root.
    rewrite Hs, (Hnames _ _ Hr). repeat split; auto. }
  split.
  - intros k f Hf. destruct (Hres k f Hf) as [Hs|[[]|Hatt]].
    + exists f. unfold root. rewrite Hs, (Hnames _ _ Hf). auto.
    + destruct (Hroot k f Hf Hatt) as [r [H1 [H2 _]]]. eauto.
  - intros k f Hf Hne. split.
    + unfold all_alias_exts. fold (exts_of (Generator.functions g')).
      rewrite (proj1 (Permutation_count_occ string_dec _ _) Hperm).
      apply NoDup_count_occ'.
      * apply NoDup_filter. exact (proj1 Hfresh).
      * apply filter_In. split; [eapply get_In_keys; eauto|].
        now apply (nonroot_true _ _ Hf).
    + assert (Hk : In k (PyDict.keys (Generator.functions g')))
        by (rewrite Hkeys; eapply get_In_keys; eauto).
      destruct (PyDict.get k (Generator.functions g')) as [f'|] eqn:Hf';
        [|apply get_None_not_In in Hf'; contradiction].
      assert (Hns : ~ self_named f').
      { apply (nonroot_true _ _ Hf'). rewrite Hnr.
        now apply (nonroot_true _ _ Hf). }
      destruct (Hres k f' Hf') as [Hs|[[]|Hatt]]; [contradiction|].
      destruct (Hroot k f' Hf' Hatt) as [r [H1 [_ [H3 [H4 H5]]]]].
      exists f', r. auto.
Qed.

Lemma resolve_aliases_flattens_witness :
  exists g',
    Generator.resolve_aliases 2 Examples.alias_chain_model = Ok g'
    /\ count_occ string_dec (all_alias_exts g') "glFooEXT" = 1
    /\ exists f' r,
        PyDict.get "glFooEXT" (Generator.functions g') = Some f'
        /\ root g' f' = Some r
        /\ self_named r
        /\ In "glFooEXT" (GLFunction.alias_exts r)
        /\ GLFunction.alias_func f' = Some (GLFunction.name r).
Proof.
  eexists. split; [vm_compute; reflexivity|].
  assert (Hfresh : freshly_parsed Examples.alias_chain_model).
  { split.
    - repeat constructor; simpl; intuition discriminate.
    - intros k f [E|[E|[E|[]]]]; injection E as <- <-; repeat split. }
  refine (proj2 (@resolve_aliases_flattens 2 Examples.alias_chain_model _
                   Hfresh eq_refl)
                "glFooEXT" _ eq_refl _).
  simpl. discriminate.
Defined.

(** ** Provider identifiers and reproducible generation *)


(** ** Provider interning *)

Lemma assert_Ok (c : bool) (u : unit) : Generator.assert c = Ok u -> c = true.
Proof. destruct c; [reflexivity|discriminate]. Qed.

Lemma lookup_of_mem (V : Type) (k : string) (d : PyDict.t V) :
  PyDict.mem k d = true -> exists v, PyDict.lookup k d = Ok v /\ PyDict.get k d = Some v.
Proof.
  intros H. apply mem_true in H. destruct H as [v H]. exists v.
  unfold PyDict.lookup. now rewrite H.
Qed.

Lemma mem_set (V : Type) (k k' : string) (v : V) (d : PyDict.t V) :
  PyDict.mem k' (PyDict.set k v d) = String.eqb k' k || PyDict.mem k' d.
Proof.
  unfold PyDict.mem. destruct (String.eqb_spec k' k) as [->|Hne].
  - now rewrite get_set_same.
  - now rewrite get_set_other.
Qed.

(** One iteration of the inner loop of [prepare_provider_enum]: it either
    keeps the tables and has checked [p] against them, or enters [p] under a
    new label, or fails an assertion. *)
Lemma intern_provider_spec (p : GLProvider.t) (g : Generator.t) :
  tables_ok g ->
  match Generator.intern_provider p g with
  | Ok g' =>
      Generator.functions g' = Generator.functions g
      /\ tables_ok g'
      /\ interned g' p
      /\ (forall q, interned g q -> interned g' q)
  | Raise e =>
      e = AssertionError
      /\ PyDict.mem (GLProvider.condition_name p) (Generator.provider_enum g)
         = true
      /\ (PyDict.get (GLProvider.condition_name p)
                     (Generator.provider_condition g)
          <> Some (GLProvider.condition p)
          \/ PyDict.get (GLProvider.condition_name p)
                        (Generator.provider_loader g)
             <> Some (GLProvider.loader p))
  | OutOfFuel => False
  end.
Proof.
  intros Hok. unfold Generator.intern_provider.
  destruct (PyDict.mem (GLProvider.condition_name p) (Generator.provider_enum g))
    eqn:Hmem.
  - destruct (Hok _ Hmem) as [Hc Hl].
    destruct (lookup_of_mem _ _ Hc) as [c [-> Hgc]].
    destruct (lookup_of_mem _ _ Hl) as [l [-> Hgl]]. simpl.
    destruct (String.eqb_spec c (GLProvider.condition p)) as [->|Hnc]; simpl.
    + destruct (String.eqb_spec l (GLProvider.loader p)) as [->|Hnl]; simpl.
      * split; [reflexivity|]. split; [exact Hok|].
        split; [|auto]. unfold interned. auto.
      * split; [reflexivity|]. split; [reflexivity|]. right. congruence.
    + split; [reflexivity|]. split; [reflexivity|]. left. congruence.
  - simpl. split; [reflexivity|]. split; [|split].
    + intros label. simpl. rewrite !mem_set.
      destruct (String.eqb label (GLProvider.condition_name p)); simpl; auto.
    + unfold interned. simpl. rewrite mem_set, String.eqb_refl.
      now rewrite !get_set_same.
    + intros q [Hq1 [Hq2 Hq3]]. unfold interned. simpl.
      assert (Hne : GLProvider.condition_name q <> GLProvider.condition_name p)
        by (intros E; congruence).
      rewrite mem_set, Hq1, orb_true_r.
      now rewrite !get_set_other.
Qed.

Lemma intern_loop_spec (ps : list GLProvider.t) :
  forall g,
    tables_ok g ->
    match for_each Generator.intern_provider ps g with
    | Ok g' =>
        Generator.functions g' = Generator.functions g
        /\ tables_ok g'
        /\ (forall p, In p ps -> interned g' p)
        /\ (forall q, interned g q -> interned g' q)
    | Raise e => e = AssertionError
    | OutOfFuel => False
    end.
Proof.
  induction ps as [|p ps IH]; intros g Hok; simpl.
  - split; [reflexivity|]. split; [exact Hok|]. split; [intros p []|auto].
  - pose proof (intern_provider_spec p Hok) as Hstep.
    destruct (Generator.intern_provider p g) as [g1|e|]; simpl;
      [|tauto|exact Hstep].
    destruct Hstep as [Hfs [Hok1 [Hp Hkeep]]].
    specialize (IH g1 Hok1).
    destruct (for_each Generator.intern_provider ps g1) as [g2|e|];
      [|exact IH|exact IH].
    destruct IH as [Hfs2 [Hok2 [Hps Hkeep2]]].
    split; [congruence|]. split; [exact Hok2|]. split; [|auto].
    intros q [<-|Hq]; auto.
Qed.

Lemma interned_agree (g : Generator.t) (p1 p2 : GLProvider.t) :
  interned g p1 -> interned g p2 ->
  GLProvider.condition_name p1 = GLProvider.condition_name p2 ->
  GLProvider.condition p1 = GLProvider.condition p2
  /\ GLProvider.loader p1 = GLProvider.loader p2.
Proof.
  intros [_ [Hc1 Hl1]] [_ [Hc2 Hl2]] E. rewrite E in *.
  split; congruence.
Qed.

Lemma prepare_provider_enum_spec (g : Generator.t) :
  match Generator.prepare_provider_enum g with
  | Ok g' =>
      Generator.functions g' = Generator.functions g
      /\ tables_ok g'
      /\ (forall p, In p (Generator.all_providers g) -> interned g' p)
  | Raise e => e = AssertionError
  | OutOfFuel => False
  end.
Proof.
  unfold Generator.prepare_provider_enum.
  set (g0 := Generator.set_provider_tables _ _ _ g).
  assert (Hok : tables_ok g0) by (intros label; discriminate).
  pose proof (intern_loop_spec (Generator.all_providers g0) Hok) as H.
  destruct (for_each Generator.intern_provider (Generator.all_providers g0) g0)
    as [g'|e|]; [|exact H|exact H].
  destruct H as [Hfs [Hok' [Hps _]]].
  split; [exact Hfs|]. split; [exact Hok'|exact Hps].
Qed.

(** C4: interning the providers of a model in which two bindings share a
    condition label and differ in condition text or in loader template
    raises AssertionError; and when interning succeeds, the function table
    is unchanged and any two of its bindings that share a label have the
    same condition and the same loader. *)
Theorem prepare_provider_enum_rejects_conflicts (g : Generator.t) :
  (forall p1 p2,
      In p1 (Generator.all_providers g) ->
      In p2 (Generator.all_providers g) ->
      conflicting p1 p2 ->
      Generator.prepare_provider_enum g = Raise AssertionError)
  /\ (forall g',
         Generator.prepare_provider_enum g = Ok g' ->
         Generator.functions g' = Generator.functions g
         /\ forall p1 p2,
             In p1 (Generator.all_providers g') ->
             In p2 (Generator.all_providers g') ->
             GLProvider.condition_name p1 = GLProvider.condition_name p2 ->
             GLProvider.condition p1 = GLProvider.condition p2
             /\ GLProvider.loader p1 = GLProvider.loader p2).
Proof.
  pose proof (prepare_provider_enum_spec g) as H.
  split.
  - intros p1 p2 H1 H2 [Hlabel Hdiff].
    destruct (Generator.prepare_provider_enum g) as [g'|e|];
      [|now subst e|destruct H].
    destruct H as [_ [_ Hint]].
    destruct (@interned_agree g' p1 p2 (Hint _ H1) (Hint _ H2) Hlabel)
      as [Hc Hl].
    destruct Hdiff; contradiction.
  - intros g' E. rewrite E in H. destruct H as [Hfs [_ Hint]].
    split; [exact Hfs|].
    unfold Generator.all_providers. rewrite Hfs.
    intros p1 p2 H1 H2. apply (@interned_agree g'); now apply Hint.
Qed.

Lemma prepare_provider_enum_rejects_conflicts_witness :
  Generator.prepare_provider_enum Examples.label_conflict_model
  = Raise AssertionError.
Proof.
  refine (proj1 (prepare_provider_enum_rejects_conflicts
                   Examples.label_conflict_model)
                (GLProvider.init
                   "!epoxy_is_desktop_gl() && epoxy_gl_version() >= 10 && epoxy_gl_version() < 20"
                   "OpenGL ES 1.0" "epoxy_gles1_dlsym({0})" "glA")
                (GLProvider.init
                   "!epoxy_is_desktop_gl() && epoxy_gl_version() >= 10"
                   "OpenGL ES 1.0" "epoxy_gles2_dlsym({0})" "glB")
                _ _ _).
  - vm_compute. left. reflexivity.
  - vm_compute. right. left. reflexivity.
  - split; [reflexivity|]. left. vm_compute. discriminate.
Defined.

(** ** The order of the candidates *)

Lemma key_leb_total (a b : bool * string * string) :
  Generator.key_leb a b = true \/ Generator.key_leb b a = true.
Proof.
  destruct a as [[a1 a2] a3], b as [[b1 b2] b3]. unfold Generator.key_leb.
  destruct a1, b1; simpl; auto;
    rewrite (String.compare_antisym b2 a2);
    destruct (String.compare a2 b2) eqn:E; simpl; auto;
    apply String.leb_total.
Qed.

Lemma key_leb_trans (a b c : bool * string * string) :
  Generator.key_leb a b = true -> Generator.key_leb b c = true ->
  Generator.key_leb a c = true.
Proof.
  destruct a as [[a1 a2] a3], b as [[b1 b2] b3], c as [[c1 c2] c3].
  unfold Generator.key_leb.
  destruct a1, b1, c1; simpl; try discriminate; auto;
    destruct (String.compare a2 b2) eqn:Eab; try discriminate;
    destruct (String.compare b2 c2) eqn:Ebc; try discriminate;
    intros Hab Hbc;
    try (apply string_compare_eq in Eab; subst);
    try (apply string_compare_eq in Ebc; subst);
    rewrite ?string_compare_refl, ?Eab, ?Ebc; auto;
    try (eapply string_leb_trans; eassumption);
    now rewrite (string_compare_lt_trans _ _ _ Eab Ebc).
Qed.

Lemma key_leb_candidate_le (func : GLFunction.t) (p q : GLProvider.t) :
  Sort.key_le Generator.key_leb (Generator.provider_sort func) p q ->
  candidate_le func p q.
Proof.
  unfold Sort.key_le, Generator.provider_sort, Generator.key_leb, candidate_le.
  destruct (String.eqb_spec (GLProvider.name p) (GLFunction.name func))
    as [Hp|Hp];
    destruct (String.eqb_spec (GLProvider.name q) (GLFunction.name func))
      as [Hq|Hq]; simpl; try discriminate.
  - destruct (String.compare (GLProvider.name p) (GLProvider.name q)) eqn:E;
      try discriminate; intros H; right; (split; [tauto|]).
    + right. split; [now apply string_compare_eq|exact H].
    + now left.
  - intros _. now left.
  - destruct (String.compare (GLProvider.name p) (GLProvider.name q)) eqn:E;
      try discriminate; intros H; right; (split; [tauto|]).
    + right. split; [now apply string_compare_eq|exact H].
    + now left.
Qed.

Lemma StronglySorted_impl (A : Type) (R1 R2 : A -> A -> Prop) (l : list A) :
  (forall a b, R1 a b -> R2 a b) -> StronglySorted R1 l -> StronglySorted R2 l.
Proof.
  intros Himp. induction 1 as [|a l Hs IH Hall]; constructor; auto.
  eapply Forall_impl; [|exact Hall]. auto.
Qed.

Lemma gather_providers_sorted (g : Generator.t) (func : GLFunction.t)
      (ps : list GLProvider.t) :
  Generator.gather_providers g func = Ok ps ->
  StronglySorted (candidate_le func) ps.
Proof.
  unfold Generator.gather_providers. intros H.
  apply bind_Ok in H. destruct H as [alias_root [_ H]].
  apply bind_Ok in H. destruct H as [exts [_ H]].
  apply bind_Ok in H. destruct H as [providers [_ H]].
  injection H as <-.
  eapply StronglySorted_impl; [apply key_leb_candidate_le|].
  apply sort_sorted; [apply key_leb_total|apply key_leb_trans].
Qed.

(** C2, as stated, fails: the candidates of glFoo that bear another
    entry-point name come in the order of those names, glFooARB before
    glFooEXT, although the label GL_AA_foo of the second is smaller than the
    label GL_ZZ_foo of the first; the list is not in the order of the label. *)
Lemma candidates_not_in_label_order :
  Examples.candidates_of "gl" Examples.aliases_with_extensions "glFoo"
  = Ok ([ ("glFoo", "Desktop OpenGL 2.0");
          ("glFooARB", "GL_ZZ_foo");
          ("glFooEXT", "GL_AA_foo") ],
        false)
  /\ String.ltb "GL_AA_foo" "GL_ZZ_foo" = true.
Proof. split; vm_compute; reflexivity. Qed.

(** C2, amended: the gathered candidates of a function are ordered by
    (1) candidates whose entry-point name equals the function's own name
    first, (2) then in the lexicographic order of the entry-point name, and
    (3) for equal entry-point names in the order of the canonical provider
    identifier.  In particular two candidates with the function's own
    entry-point name and the labels Desktop OpenGL 2.0 and GL_ARB_foo come
    in this order, whatever order they were gathered in, as they do for glFoo
    in the model generated from a registry with both. *)
Theorem candidates_in_provider_sort_order :
  (forall g func ps,
      Generator.gather_providers g func = Ok ps ->
      StronglySorted (candidate_le func) ps)
  /\ (forall func c1 l1 c2 l2,
         let core := GLProvider.init c1 "Desktop OpenGL 2.0" l1
                                     (GLFunction.name func) in
         let ext := GLProvider.init c2 "GL_ARB_foo" l2 (GLFunction.name func) in
         Sort.sort Generator.key_leb (Generator.provider_sort func) [ext; core]
         = [core; ext]
         /\ Sort.sort Generator.key_leb (Generator.provider_sort func)
                      [core; ext]
            = [core; ext])
  /\ Examples.candidates_of "gl" Examples.core_and_extension "glFoo"
     = Ok ([ ("glFoo", "Desktop OpenGL 2.0"); ("glFoo", "GL_ARB_foo") ], true).
Proof.
  split; [exact gather_providers_sorted|]. split; [|vm_compute; reflexivity].
  intros func c1 l1 c2 l2 core ext.
  assert (Hce : Generator.key_leb (Generator.provider_sort func core)
                                  (Generator.provider_sort func ext) = true).
  { unfold Generator.provider_sort, Generator.key_leb. simpl GLProvider.name.
    rewrite Bool.eqb_reflx, string_compare_refl. reflexivity. }
  assert (Hec : Generator.key_leb (Generator.provider_sort func ext)
                                  (Generator.provider_sort func core) = false).
  { unfold Generator.provider_sort, Generator.key_leb. simpl GLProvider.name.
    rewrite Bool.eqb_reflx, string_compare_refl. reflexivity. }
  split; cbn [Sort.sort Sort.insert]; now rewrite ?Hce, ?Hec.
Qed.

Lemma candidates_in_provider_sort_order_witness :
  StronglySorted (candidate_le Examples.glFoo)
                 [Examples.candidate_core; Examples.candidate_arb;
                  Examples.candidate_ext].
Proof.
  assert (Hps : Generator.gather_providers Examples.three_candidates_model
                                           Examples.glFoo
                = Ok [Examples.candidate_core; Examples.candidate_arb;
                      Examples.candidate_ext])
    by (vm_compute; reflexivity).
  exact (proj1 candidates_in_provider_sort_order
               Examples.three_candidates_model Examples.glFoo _ Hps).
Defined.

(** ** Near-alias pairs *)

Lemma providers_of_Ok (g : Generator.t) (refs : list string) :
  (forall e, In e refs -> PyDict.mem e (Generator.functions g) = true) ->
  exists ps, Generator.providers_of g refs = Ok ps.
Proof.
  induction refs as [|r refs IH]; intros H; simpl; [eauto|].
  destruct (lookup_of_mem _ _ (H r (or_introl eq_refl))) as [f [-> _]].
  destruct IH as [ps ->]; [intros e He; apply H; now right|].
  simpl. eauto.
Qed.

(** The list that is sorted at the end of the gathering. *)
Lemma gather_providers_half_alias
      (g : Generator.t) (func other : GLFunction.t) (b : string) :
  model_references_ok g ->
  references_ok g func ->
  PyDict.get (GLFunction.name func) Generator.half_aliases = Some b ->
  PyDict.get b (Generator.functions g) = Some other ->
  exists ps,
    Generator.gather_providers g func = Ok ps
    /\ forall p, In p (PyDict.values (GLFunction.providers other)) -> In p ps.
Proof.
  intros Hmodel [Hfunc Hexts] Hhalf Hother. unfold Generator.gather_providers.
  assert (Hroot : exists alias_root,
             match GLFunction.alias_func func with
             | Some r => PyDict.lookup r (Generator.functions g)
             | None => Ok func
             end = Ok alias_root
             /\ references_ok g alias_root).
  { destruct (GLFunction.alias_func func) as [r|] eqn:E.
    - destruct (lookup_of_mem _ _ (Hfunc r eq_refl)) as [f [-> Hf]].
      exists f. split; [reflexivity|]. eapply Hmodel; eauto.
    - exists func. split; [reflexivity|]. split; [|exact Hexts].
      intros r Hr. congruence. }
  destruct Hroot as [alias_root [-> [_ Hrexts]]]. cbn [bind].
  destruct (providers_of_Ok g _ Hrexts) as [exts ->]. cbn [bind].
  rewrite Hhalf. unfold PyDict.lookup. rewrite Hother. cbn [bind].
  eexists. split; [reflexivity|].
  intros p Hp. apply sort_In. apply in_or_app. now right.
Qed.

Lemma half_aliases_symmetric (a b : string) :
  PyDict.get a Generator.half_aliases = Some b ->
  PyDict.get b Generator.half_aliases = Some a.
Proof.
  intros H. apply get_In in H. unfold Generator.half_aliases in H.
  repeat (destruct H as [H|H]; [injection H as <- <-; reflexivity|]).
  destruct H.
Qed.

(** C7: for every pair of the near-alias table whose two functions are in
    the model, the candidate list gathered for either member exists and
    holds every provider binding of the other member, whether or not one is
    an alias of the other in the registry; and the table pairs the second
    member with the first. *)
Theorem half_aliases_are_candidates
        (g : Generator.t) (a b : string) (fa fb : GLFunction.t) :
  model_references_ok g ->
  PyDict.get a Generator.half_aliases = Some b ->
  PyDict.get a (Generator.functions g) = Some fa ->
  GLFunction.name fa = a ->
  PyDict.get b (Generator.functions g) = Some fb ->
  GLFunction.name fb = b ->
  PyDict.get b Generator.half_aliases = Some a
  /\ (exists ps,
         Generator.gather_providers g fa = Ok ps
         /\ forall p, In p (PyDict.values (GLFunction.providers fb)) ->
                      In p ps)
  /\ (exists ps,
         Generator.gather_providers g fb = Ok ps
         /\ forall p, In p (PyDict.values (GLFunction.providers fa)) ->
                      In p ps).
Proof.
  intros Hmodel Hab Hfa Hna Hfb Hnb.
  pose proof (half_aliases_symmetric _ Hab) as Hba.
  split; [exact Hba|]. split.
  - apply (@gather_providers_half_alias g fa fb b); auto.
    + eapply Hmodel; eauto.
    + now rewrite Hna.
  - apply (@gather_providers_half_alias g fb fa a); auto.
    + eapply Hmodel; eauto.
    + now rewrite Hnb.
Qed.

Lemma half_aliases_are_candidates_witness :
  exists ps,
    Generator.gather_providers
      Examples.vertex_array_model
      (GLFunction.add_provider
         "epoxy_is_desktop_gl() && epoxy_conservative_gl_version() >= 30"
         "epoxy_get_core_proc_address({0}, 30)" "Desktop OpenGL 3.0"
         (GLFunction.init "void" "glBindVertexArray"))
    = Ok ps
    /\ In (GLProvider.init "epoxy_conservative_has_gl_extension(provider_name)"
                           "GL_APPLE_vertex_array_object"
                           "epoxy_get_proc_address({0})"
                           "glBindVertexArrayAPPLE")
          ps.
Proof.
  assert (Hmodel : model_references_ok Examples.vertex_array_model).
  { intros k f Hf. apply get_In in Hf. vm_compute in Hf.
    destruct Hf as [Hf|[Hf|[]]]; injection Hf as <- <-;
      (split; [intros r Hr; discriminate|intros e []]). }
  destruct (@half_aliases_are_candidates
              Examples.vertex_array_model
              "glBindVertexArray" "glBindVertexArrayAPPLE"
              _ _ Hmodel eq_refl eq_refl eq_refl eq_refl eq_refl)
    as [_ [[ps [Hps Hin]] _]].
  exists ps. split; [exact Hps|].
  apply Hin. left. reflexivity.
Defined.

(** ** The choice between the two resolver bodies *)

Lemma write_function_ptr_resolver_cases
      (g : Generator.t) (func : GLFunction.t) (ps : list GLProvider.t) :
  Generator.gather_providers g func = Ok ps ->
  Emitted.write_function_ptr_resolver g func =
  match ps with
  | [p] =>
      if String.eqb (GLProvider.name p) (GLFunction.name func)
      then Ok (Emitted.single_resolver_call (GLProvider.enum p)
                                            (GLFunction.name func))
      else Raise AssertionError
  | _ =>
      Ok (Emitted.provider_resolver_call
            (GLFunction.name func)
            (map GLProvider.enum ps)
            (if (1 <? List.length ps)%nat
             then map (fun p => Some (GLProvider.name p)) ps
             else [None]))
  end.
Proof.
  intros H. unfold Emitted.write_function_ptr_resolver. rewrite H.
  cbn [bind]. destruct ps as [|p [|q ps]]; try reflexivity.
  unfold Generator.assert.
  now destruct (String.eqb (GLProvider.name p) (GLFunction.name func)).
Qed.




(** ** The provider table after interning *)

Lemma constructed_enum (p : GLProvider.t) :
  constructed p ->
  GLProvider.enum p
  = GLProvider.enum (GLProvider.init "" (GLProvider.condition_name p) "" "").
Proof.
  unfold constructed. intros ->. apply enum_depends_on_label.
Qed.

Lemma intern_provider_enums (p : GLProvider.t) (g g' : Generator.t) :
  constructed p -> enums_ok g ->
  Generator.intern_provider p g = Ok g' ->
  enums_ok g'
  /\ PyDict.get (GLProvider.condition_name p) (Generator.provider_enum g')
     = Some (GLProvider.enum p)
  /\ (forall l e, PyDict.get l (Generator.provider_enum g) = Some e ->
                  PyDict.get l (Generator.provider_enum g') = Some e).
Proof.
  intros Hp Hok. unfold Generator.intern_provider.
  destruct (PyDict.mem (GLProvider.condition_name p) (Generator.provider_enum g))
    eqn:Hmem.
  - intros H.
    apply bind_Ok in H. destruct H as [c [_ H]].
    apply bind_Ok in H. destruct H as [u1 [_ H]].
    apply bind_Ok in H. destruct H as [l [_ H]].
    apply bind_Ok in H. destruct H as [u2 [_ H]].
    injection H as <-. split; [exact Hok|]. split; [|auto].
    apply mem_true in Hmem. destruct Hmem as [e He]. rewrite He.
    f_equal. rewrite (Hok _ _ He). symmetry. now apply constructed_enum.
  - intros [= <-]. unfold enums_ok. simpl. split; [|split].
    + intros label e.
      destruct (String.eqb_spec label (GLProvider.condition_name p))
        as [->|Hne].
      * rewrite get_set_same. intros [= <-]. now apply constructed_enum.
      * rewrite get_set_other by assumption. apply Hok.
    + apply get_set_same.
    + intros l e He. rewrite get_set_other; [exact He|].
      intros ->. apply mem_false in Hmem. congruence.
Qed.

Lemma intern_loop_enums (ps : list GLProvider.t) :
  forall g g',
    (forall p, In p ps -> constructed p) ->
    enums_ok g ->
    for_each Generator.intern_provider ps g = Ok g' ->
    enums_ok g'
    /\ (forall p, In p ps ->
                  PyDict.get (GLProvider.condition_name p)
                             (Generator.provider_enum g')
                  = Some (GLProvider.enum p))
    /\ (forall l e, PyDict.get l (Generator.provider_enum g) = Some e ->
                    PyDict.get l (Generator.provider_enum g') = Some e).
Proof.
  induction ps as [|p ps IH]; intros g g' Hps Hok H; simpl in H.
  - injection H as <-. split; [exact Hok|]. split; [intros p []|auto].
  - apply bind_Ok in H. destruct H as [g1 [Hstep H]].
    destruct (intern_provider_enums (Hps p (or_introl eq_refl)) Hok Hstep)
      as [Hok1 [Hp Hkeep1]].
    destruct (IH g1 g' (fun q Hq => Hps q (or_intror Hq)) Hok1 H)
      as [Hok' [Hrest Hkeep]].
    split; [exact Hok'|]. split; [|auto].
    intros q [<-|Hq]; auto.
Qed.

(** After interning, the three provider tables hold the enum token, the
    condition and the loader of every provider of the model. *)
Lemma prepare_provider_enum_tables (g0 g : Generator.t) :
  Generator.prepare_provider_enum g0 = Ok g ->
  (forall p, In p (Generator.all_providers g0) -> constructed p) ->
  Generator.functions g = Generator.functions g0
  /\ forall p,
      In p (Generator.all_providers g0) ->
      PyDict.get (GLProvider.condition_name p) (Generator.provider_enum g)
      = Some (GLProvider.enum p)
      /\ PyDict.get (GLProvider.condition_name p)
                    (Generator.provider_condition g)
         = Some (GLProvider.condition p)
      /\ PyDict.get (GLProvider.condition_name p) (Generator.provider_loader g)
         = Some (GLProvider.loader p).
Proof.
  intros H Hps.
  pose proof (prepare_provider_enum_spec g0) as Hspec. rewrite H in Hspec.
  destruct Hspec as [Hfs [_ Hint]]. split; [exact Hfs|].
  unfold Generator.prepare_provider_enum in H.
  set (g1 := Generator.set_provider_tables _ _ _ g0) in H.
  assert (Hok : enums_ok g1) by (intros label e; discriminate).
  destruct (intern_loop_enums _ Hps Hok H) as [_ [Henum _]].
  intros p Hp. destruct (Hint p Hp) as [_ [Hc Hl]]. auto.
Qed.

(** ** The emitted provider table *)

Lemma provider_cases_of_find
      (g : Generator.t) (p : GLProvider.t) (labels : list string) :
  forall cases,
    Emitted.provider_cases_of g labels = Ok cases ->
    distinct_enums g ->
    PyDict.get (GLProvider.condition_name p) (Generator.provider_enum g)
    = Some (GLProvider.enum p) ->
    PyDict.get (GLProvider.condition_name p) (Generator.provider_condition g)
    = Some (GLProvider.condition p) ->
    PyDict.get (GLProvider.condition_name p) (Generator.provider_loader g)
    = Some (GLProvider.loader p) ->
    In (GLProvider.condition_name p) labels ->
    case_for cases p.
Proof.
  induction labels as [|h labels IH]; intros cases H Hdist He Hc Hl Hin;
    [destruct Hin|].
  simpl in H. apply bind_Ok in H. destruct H as [c [Hcase H]].
  apply bind_Ok in H. destruct H as [cs [Hrest H]]. injection H as <-.
  unfold Emitted.provider_case_of in Hcase.
  apply bind_Ok in Hcase. destruct Hcase as [e [Hge Hcase]].
  apply bind_Ok in Hcase. destruct Hcase as [cd [Hgc Hcase]].
  apply bind_Ok in Hcase. destruct Hcase as [ld [Hgl Hcase]].
  injection Hcase as <-.
  apply lookup_Ok in Hge, Hgc, Hgl.
  unfold case_for, Runtime.find_case. simpl.
  destruct (String.eqb_spec e (GLProvider.enum p)) as [->|Hne].
  - assert (h = GLProvider.condition_name p) by (eapply Hdist; eauto).
    subst h. eexists. split; [reflexivity|]. simpl.
    repeat split; congruence.
  - apply IH; auto.
    destruct Hin as [->|Hin]; [congruence|exact Hin].
Qed.

Lemma write_provider_resolver_case
      (g : Generator.t) (cases : list Emitted.provider_case)
      (p : GLProvider.t) :
  Emitted.write_provider_resolver g = Ok cases ->
  distinct_enums g ->
  PyDict.get (GLProvider.condition_name p) (Generator.provider_enum g)
  = Some (GLProvider.enum p) ->
  PyDict.get (GLProvider.condition_name p) (Generator.provider_condition g)
  = Some (GLProvider.condition p) ->
  PyDict.get (GLProvider.condition_name p) (Generator.provider_loader g)
  = Some (GLProvider.loader p) ->
  case_for cases p.
Proof.
  intros H Hdist He Hc Hl.
  eapply provider_cases_of_find; eauto.
  unfold sorted_strings. apply sort_In. eapply get_In_keys; eauto.
Qed.

(** ** Where the candidates come from *)

Lemma In_all_providers (g : Generator.t) (k : string) (f : GLFunction.t)
      (p : GLProvider.t) :
  PyDict.get k (Generator.functions g) = Some f ->
  In p (PyDict.values (GLFunction.providers f)) ->
  In p (Generator.all_providers g).
Proof.
  intros Hf Hp. unfold Generator.all_providers. apply in_flat_map.
  exists f. split; [|exact Hp].
  apply values_In. exists k. now apply get_In.
Qed.

Lemma providers_of_In (g : Generator.t) (refs : list string) :
  forall ps p,
    Generator.providers_of g refs = Ok ps -> In p ps ->
    In p (Generator.all_providers g).
Proof.
  induction refs as [|r refs IH]; intros ps p H Hp; simpl in H.
  - injection H as <-. destruct Hp.
  - apply bind_Ok in H. destruct H as [f [Hf H]].
    apply bind_Ok in H. destruct H as [rest [Hrest H]]. injection H as <-.
    apply lookup_Ok in Hf. apply in_app_or in Hp. destruct Hp as [Hp|Hp].
    + eapply In_all_providers; eauto.
    + eapply IH; eauto.
Qed.

Lemma gather_providers_In
      (g : Generator.t) (k : string) (func : GLFunction.t)
      (ps : list GLProvider.t) (p : GLProvider.t) :
  PyDict.get k (Generator.functions g) = Some func ->
  Generator.gather_providers g func = Ok ps ->
  In p ps ->
  In p (Generator.all_providers g).
Proof.
  intros Hfunc H Hp. unfold Generator.gather_providers in H.
  apply bind_Ok in H. destruct H as [alias_root [Hroot H]].
  apply bind_Ok in H. destruct H as [exts [Hexts H]].
  apply bind_Ok in H. destruct H as [providers [Hprov H]].
  injection H as <-. apply sort_In in Hp.
  assert (Hr : exists kr, PyDict.get kr (Generator.functions g)
                          = Some alias_root).
  { destruct (GLFunction.alias_func func) as [r|].
    - apply lookup_Ok in Hroot. eauto.
    - injection Hroot as <-. eauto. }
  destruct Hr as [kr Hr].
  assert (Hbase : forall q,
             In q (PyDict.values (GLFunction.providers alias_root) ++ exts) ->
             In q (Generator.all_providers g)).
  { intros q Hq. apply in_app_or in Hq. destruct Hq as [Hq|Hq].
    - exact (@In_all_providers g kr alias_root q Hr Hq).
    - eapply providers_of_In; eauto. }
  destruct (PyDict.get (GLFunction.name func) Generator.half_aliases)
    as [other|].
  - apply bind_Ok in Hprov. destruct Hprov as [alias_func [Ho Hprov]].
    injection Hprov as <-. apply lookup_Ok in Ho.
    apply in_app_or in Hp. destruct Hp as [Hp|Hp]; [now apply Hbase|].
    exact (@In_all_providers g other alias_func p Ho Hp).
  - injection Hprov as <-. now apply Hbase.
Qed.

(** ** Running the emitted resolver *)

Lemma resolver_loop_miss
      (cases : list Emitted.provider_case) (proc : Runtime.process)
      (ps : list GLProvider.t) :
  (forall p, In p ps -> case_for cases p) ->
  (forall p, In p ps -> available proc p = false) ->
  Runtime.resolver_loop cases proc
                        (map GLProvider.enum ps)
                        (map (fun p => Some (GLProvider.name p)) ps)
  = (map evaluation ps, None).
Proof.
  induction ps as [|p ps IH]; intros Hcase Hfalse; [reflexivity|].
  cbn [map Runtime.resolver_loop hd tl].
  destruct (Hcase p (or_introl eq_refl)) as [c [Hfind [Hs [Hc Hl]]]].
  unfold Runtime.provider_string. rewrite Hfind, Hs, Hc.
  pose proof (Hfalse p (or_introl eq_refl)) as Hp. unfold available in Hp.
  rewrite Hp.
  rewrite (IH (fun q Hq => Hcase q (or_intror Hq))
              (fun q Hq => Hfalse q (or_intror Hq))).
  reflexivity.
Qed.

Lemma resolver_loop_hit
      (cases : list Emitted.provider_case) (proc : Runtime.process)
      (l1 : list GLProvider.t) (p : GLProvider.t) (l2 : list GLProvider.t) :
  (forall q, In q (l1 ++ p :: l2) -> case_for cases q) ->
  (forall q, In q l1 -> available proc q = false) ->
  available proc p = true ->
  Runtime.resolver_loop
    cases proc
    (map GLProvider.enum (l1 ++ p :: l2))
    (map (fun q => Some (GLProvider.name q)) (l1 ++ p :: l2))
  = ((map evaluation l1
      ++ [evaluation p;
          Runtime.CallLoader (GLProvider.loader p) (GLProvider.name p)])%list,
     Some (Runtime.load proc (GLProvider.loader p) (GLProvider.name p))).
Proof.
  induction l1 as [|q l1 IH]; intros Hcase Hfalse Htrue;
    cbn [app map Runtime.resolver_loop hd tl].
  - destruct (Hcase p (or_introl eq_refl)) as [c [Hfind [Hs [Hc Hl]]]].
    unfold Runtime.provider_string. rewrite Hfind, Hs, Hc, Hl.
    unfold available in Htrue. rewrite Htrue. reflexivity.
  - destruct (Hcase q (or_introl eq_refl)) as [c [Hfind [Hs [Hc Hl]]]].
    unfold Runtime.provider_string. rewrite Hfind, Hs, Hc.
    pose proof (Hfalse q (or_introl eq_refl)) as Hq. unfold available in Hq.
    rewrite Hq.
    rewrite (IH (fun r Hr => Hcase r (or_intror Hr))
                (fun r Hr => Hfalse r (or_intror Hr)) Htrue).
    reflexivity.
Qed.

Lemma failure_report_lines
      (cases : list Emitted.provider_case) (name : string)
      (ps : list GLProvider.t) :
  (forall p, In p ps -> case_for cases p) ->
  ps <> [] ->
  Runtime.failure_report cases name (map GLProvider.enum ps)
  = Runtime.Fprintf ("No provider of " ++ name ++ " found.  Requires one of:")
    :: map report_line ps.
Proof.
  intros Hcase Hne. unfold Runtime.failure_report. f_equal.
  destruct ps as [|p0 ps0] eqn:E; [contradiction|]. rewrite <- E in *.
  replace (match map GLProvider.enum ps with
           | [] => _
           | _ :: _ => []
           end) with (@nil Runtime.event) by (now rewrite E).
  rewrite app_nil_r, map_map. clear E Hne.
  induction ps as [|p ps IH]; [reflexivity|]. simpl. f_equal.
  - unfold report_line, Runtime.provider_string.
    destruct (Hcase p (or_introl eq_refl)) as [c [Hfind [Hs _]]].
    now rewrite Hfind, Hs.
  - apply IH. intros q Hq. apply Hcase. now right.
Qed.

(** The resolver body of a function with candidates runs the general
    procedure on the enum tokens and the entry-point names of the candidates,
    in list order. *)
Lemma run_emitted
      (g : Generator.t) (func : GLFunction.t) (ps : list GLProvider.t)
      (code : Emitted.function_resolver)
      (cases : list Emitted.provider_case) (proc : Runtime.process) :
  Generator.gather_providers g func = Ok ps ->
  ps <> [] ->
  Emitted.write_function_ptr_resolver g func = Ok code ->
  Runtime.run cases proc code
  = Runtime.provider_resolver cases proc (GLFunction.name func)
                              (map GLProvider.enum ps)
                              (map (fun p => Some (GLProvider.name p)) ps).
Proof.
  intros Hg Hne Hw. rewrite (write_function_ptr_resolver_cases _ _ Hg) in Hw.
  destruct ps as [|p [|q ps]]; [contradiction| |].
  - destruct (String.eqb_spec (GLProvider.name p) (GLFunction.name func))
      as [E|E]; [|discriminate].
    injection Hw as <-. simpl. unfold Runtime.single_resolver. now rewrite E.
  - injection Hw as <-. reflexivity.
Qed.

(** C1: for a function of an interned model whose candidate list is not
    empty, the resolver body the generator writes, run in any process,
    evaluates the candidates' conditions in list order; at the first
    candidate whose condition holds it calls that candidate's loader for
    that candidate's entry-point name and returns the result, having
    evaluated no later condition; when no condition holds it calls the
    failure handler with the function's name if one is installed and
    returns what the handler returns, and otherwise prints the header and
    one line for the label of every candidate, in list order, and aborts
    without returning. *)
Theorem emitted_resolver_contract
        (g0 g : Generator.t) (cases : list Emitted.provider_case)
        (k : string) (func : GLFunction.t) (ps : list GLProvider.t)
        (code : Emitted.function_resolver) (proc : Runtime.process) :
  (forall p, In p (Generator.all_providers g0) -> constructed p) ->
  Generator.prepare_provider_enum g0 = Ok g ->
  distinct_enums g ->
  Emitted.write_provider_resolver g = Ok cases ->
  PyDict.get k (Generator.functions g) = Some func ->
  Generator.gather_providers g func = Ok ps ->
  ps <> [] ->
  Emitted.write_function_ptr_resolver g func = Ok code ->
  (forall l1 p l2,
      ps = (l1 ++ p :: l2)%list ->
      (forall q, In q l1 -> available proc q = false) ->
      available proc p = true ->
      Runtime.run cases proc code
      = ((map evaluation l1
          ++ [evaluation p;
              Runtime.CallLoader (GLProvider.loader p) (GLProvider.name p)])%list,
         Runtime.Returned
           (Runtime.load proc (GLProvider.loader p) (GLProvider.name p))))
  /\ ((forall q, In q ps -> available proc q = false) ->
      Runtime.run cases proc code
      = match Runtime.failure_handler proc with
        | Some handler =>
            ((map evaluation ps
              ++ [Runtime.CallFailureHandler (GLFunction.name func)])%list,
             Runtime.Returned (handler (GLFunction.name func)))
        | None =>
            ((map evaluation ps
              ++ Runtime.Fprintf ("No provider of " ++ GLFunction.name func
                                    ++ " found.  Requires one of:")
                 :: map report_line ps)%list,
             Runtime.Aborted)
        end).
Proof.
  intros Hcons Hprep Hdist Hcases Hfunc Hgather Hne Hcode.
  destruct (@prepare_provider_enum_tables g0 g Hprep Hcons) as [Hfs Htab].
  assert (Hcase : forall p, In p ps -> case_for cases p).
  { intros p Hp.
    pose proof (@gather_providers_In g k func ps p Hfunc Hgather Hp) as Hall.
    unfold Generator.all_providers in Hall. rewrite Hfs in Hall.
    destruct (Htab p Hall) as [He [Hc Hl]].
    now apply (@write_provider_resolver_case g cases p Hcases Hdist). }
  rewrite (@run_emitted g func ps code cases proc Hgather Hne Hcode).
  unfold Runtime.provider_resolver. split.
  - intros l1 p l2 -> Hfalse Htrue.
    now rewrite (@resolver_loop_hit cases proc l1 p l2 Hcase Hfalse Htrue).
  - intros Hfalse. rewrite (@resolver_loop_miss cases proc ps Hcase Hfalse).
    destruct (Runtime.failure_handler proc) as [handler|]; [reflexivity|].
    now rewrite (@failure_report_lines cases (GLFunction.name func) ps Hcase Hne).
Qed.

Lemma emitted_resolver_contract_witness :
  Runtime.run Examples.three_candidates_cases Examples.extensions_only
              Examples.glFoo_resolver
  = ([evaluation Examples.candidate_core;
      evaluation Examples.candidate_arb;
      Runtime.CallLoader "epoxy_get_proc_address({0})" "glFooARB"],
     Runtime.Returned 8)
  /\ Runtime.run Examples.three_candidates_cases Examples.nothing_available
                 Examples.glFoo_resolver
     = ([evaluation Examples.candidate_core;
         evaluation Examples.candidate_arb;
         evaluation Examples.candidate_ext;
         Runtime.Fprintf "No provider of glFoo found.  Requires one of:";
         Runtime.Fprintf "    Desktop OpenGL 2.0";
         Runtime.Fprintf "    GL_ZZ_foo";
         Runtime.Fprintf "    GL_AA_foo"],
        Runtime.Aborted).
Proof.
  assert (Hcons : forall p,
             In p (Generator.all_providers Examples.three_candidates_loaded) ->
             constructed p).
  { intros p Hp. vm_compute in Hp.
    destruct Hp as [<-|[<-|[<-|[]]]]; reflexivity. }
  assert (Hdist : distinct_enums Examples.three_candidates_model).
  { intros l1 l2 e H1 H2. apply get_In in H1, H2. vm_compute in H1, H2.
    destruct H1 as [H1|[H1|[H1|[]]]], H2 as [H2|[H2|[H2|[]]]];
      congruence. }
  assert (Hps : Generator.gather_providers Examples.three_candidates_model
                                           Examples.glFoo
                = Ok [Examples.candidate_core; Examples.candidate_arb;
                      Examples.candidate_ext])
    by (vm_compute; reflexivity).
  split.
  - refine (proj1 (@emitted_resolver_contract
                     Examples.three_candidates_loaded
                     Examples.three_candidates_model
                     Examples.three_candidates_cases
                     "glFoo" Examples.glFoo _
                     Examples.glFoo_resolver Examples.extensions_only
                     Hcons eq_refl Hdist eq_refl eq_refl Hps _ eq_refl)
                  [Examples.candidate_core] Examples.candidate_arb
                  [Examples.candidate_ext] eq_refl _ eq_refl).
    + discriminate.
    + intros q [<-|[]]. reflexivity.
  - refine (proj2 (@emitted_resolver_contract
                     Examples.three_candidates_loaded
                     Examples.three_candidates_model
                     Examples.three_candidates_cases
                     "glFoo" Examples.glFoo _
                     Examples.glFoo_resolver Examples.nothing_available
                     Hcons eq_refl Hdist eq_refl eq_refl Hps _ eq_refl)
                  _).
    + discriminate.
    + intros q Hq. reflexivity.
Defined.

(** ** The loader's filters *)

Section RemoveFacts.
Variable V : Type.
Implicit Types (d : PyDict.t V) (k : string) (v : V).

Lemma In_set d k v kv :
  In kv (PyDict.set k v d) -> kv = (k, v) \/ In kv d.
Proof.
  induction d as [|[k0 v0] d IH]; simpl.
  - intros [<-|[]]. now left.
  - destruct (String.eqb_spec k k0) as [->|Hne]; simpl.
    + intros [<-|H]; auto.
    + intros [<-|H]; auto. destruct (IH H); auto.
Qed.

Lemma In_remove d k kv : In kv (PyDict.remove k d) -> In kv d.
Proof.
  induction d as [|[k0 v0] d IH]; simpl; [tauto|].
  destruct (String.eqb k k0); simpl; [auto|].
  intros [<-|H]; auto.
Qed.

Lemma get_remove_other d k k' :
  k' <> k -> PyDict.get k' (PyDict.remove k d) = PyDict.get k' d.
Proof.
  intros Hne. induction d as [|[k0 v0] d IH]; simpl; [reflexivity|].
  destruct (String.eqb_spec k k0) as [->|Hk]; simpl.
  - destruct (String.eqb_spec k' k0); [contradiction|reflexivity].
  - now rewrite IH.
Qed.

Lemma wf_remove d k : PyDict.wf d -> PyDict.wf (PyDict.remove k d).
Proof.
  unfold PyDict.wf, PyDict.keys.
  induction d as [|[k0 v0] d IH]; simpl; [auto|].
  intros Hnd. inversion Hnd as [|? ? Hnotin Hnd']; subst.
  destruct (String.eqb k k0); simpl; [exact Hnd'|].
  constructor; [|auto].
  intros Hin. apply Hnotin. apply in_map_iff in Hin.
  destruct Hin as [[k1 v1] [E Hin]]. simpl in E. subst k1.
  apply In_remove in Hin. exact (in_map fst _ _ Hin).
Qed.

Lemma get_remove_same d k :
  PyDict.wf d -> PyDict.get k (PyDict.remove k d) = None.
Proof.
  unfold PyDict.wf, PyDict.keys.
  induction d as [|[k0 v0] d IH]; simpl; [reflexivity|].
  intros Hnd. inversion Hnd as [|? ? Hnotin Hnd']; subst.
  destruct (String.eqb_spec k k0) as [->|Hne]; simpl.
  - now apply get_None_not_In.
  - destruct (String.eqb_spec k k0); [contradiction|auto].
Qed.

Lemma remove_all_get (names : list string) :
  forall d,
    PyDict.wf d ->
    forall k,
      PyDict.get k (fold_left (fun fs n => PyDict.remove n fs) names d)
      = if Str.mem k names then None else PyDict.get k d.
Proof.
  induction names as [|n names IH]; intros d Hwf k; simpl; [reflexivity|].
  rewrite (IH _ (wf_remove n Hwf)).
  destruct (String.eqb_spec k n) as [->|Hne]; simpl.
  - rewrite (get_remove_same n Hwf). now destruct (Str.mem n names).
  - now rewrite get_remove_other.
Qed.

Lemma remove_all_wf d (names : list string) :
  PyDict.wf d ->
  PyDict.wf (fold_left (fun fs n => PyDict.remove n fs) names d).
Proof.
  revert d. induction names as [|n names IH]; intros d Hwf; simpl; auto.
  apply IH. now apply wf_remove.
Qed.

Lemma In_remove_all d (names : list string) kv :
  In kv (fold_left (fun fs n => PyDict.remove n fs) names d) -> In kv d.
Proof.
  revert d. induction names as [|n names IH]; intros d; simpl; auto.
  intros H. apply IH in H. eapply In_remove; eauto.
Qed.

End RemoveFacts.

Lemma str_mem_In (x : string) (l : list string) :
  Str.mem x l = true <-> In x l.
Proof.
  unfold Str.mem. rewrite existsb_exists. split.
  - intros [y [Hy E]]. apply String.eqb_eq in E. now subst.
  - intros H. exists x. split; [exact H|apply String.eqb_refl].
Qed.

(** [drop_weird_glx_functions] keeps exactly the functions that are not
    weird. *)
Lemma drop_weird_get (g : Generator.t) (k : string) (f : GLFunction.t) :
  PyDict.wf (Generator.functions g) ->
  PyDict.get k (Generator.functions (Generator.drop_weird_glx_functions g))
  = Some f
  <-> PyDict.get k (Generator.functions g) = Some f
      /\ Generator.is_weird f = false.
Proof.
  intros Hwf. unfold Generator.drop_weird_glx_functions. simpl.
  rewrite (remove_all_get _ Hwf).
  set (weird := map fst (filter _ (Generator.functions g))).
  split.
  - destruct (Str.mem k weird) eqn:Hm; [discriminate|]. intros Hf.
    split; [exact Hf|].
    destruct (Generator.is_weird f) eqn:Hw; [|reflexivity].
    assert (Hin : In k weird).
    { apply in_map_iff. exists (k, f). split; [reflexivity|].
      apply filter_In. split; [now apply get_In|exact Hw]. }
    apply str_mem_In in Hin. congruence.
  - intros [Hf Hw].
    destruct (Str.mem k weird) eqn:Hm; [|exact Hf].
    apply str_mem_In in Hm. apply in_map_iff in Hm.
    destruct Hm as [[k' f'] [E Hin]]. simpl in E. subst k'.
    apply filter_In in Hin. destruct Hin as [Hin Hw']. simpl in Hw'.
    apply (In_get _ _ Hwf) in Hin. congruence.
Qed.

(** ** What the loader establishes *)

Lemma for_each_invariant (A S : Type) (body : A -> S -> result S)
      (I : S -> Prop) :
  (forall x s s', body x s = Ok s' -> I s -> I s') ->
  forall xs s s', for_each body xs s = Ok s' -> I s -> I s'.
Proof.
  intros Hstep. induction xs as [|x xs IH]; intros s s' H Hs; simpl in H.
  - now injection H as <-.
  - apply bind_Ok in H. destruct H as [s1 [H1 H]]. eauto.
Qed.

Section LoaderInvariant.
Variable I : Generator.t -> Prop.
Hypothesis I_ext :
  forall g g',
    Generator.target g' = Generator.target g ->
    Generator.functions g' = Generator.functions g ->
    I g -> I g'.
Hypothesis I_step :
  forall condition loader human_name name g g',
    Generator.process_require_statement condition loader human_name name g
    = Ok g' ->
    I g -> I g'.

Lemma process_require_statements_invariant
      (require : list string) (condition loader human_name : string)
      (g g' : Generator.t) :
  Generator.process_require_statements require condition loader human_name g
  = Ok g' ->
  I g -> I g'.
Proof.
  unfold Generator.process_require_statements.
  apply for_each_invariant. apply I_step.
Qed.

Lemma parse_feature_invariant (f : Registry.feature) (g g' : Generator.t) :
  Generator.parse_feature f g = Ok g' -> I g -> I g'.
Proof.
  unfold Generator.parse_feature. intros H Hg.
  apply bind_Ok in H. destruct H as [version [_ H]].
  apply bind_Ok in H. destruct H as [p [_ H]].
  set (g1 := Generator.set_supported_versions _ g) in H.
  assert (H1 : I g1) by (apply I_ext with (g := g); auto).
  destruct p as [[[human_name condition] loader]|].
  - eapply process_require_statements_invariant; eauto.
  - now injection H as <-.
Qed.

Lemma parse_extension_invariant (e : Registry.extension) (g g' : Generator.t) :
  Generator.parse_extension e g = Ok g' -> I g -> I g'.
Proof.
  unfold Generator.parse_extension. intros H Hg.
  set (g0 := Generator.set_supported_extensions _ g) in H.
  assert (H0 : I g0) by (apply I_ext with (g := g); auto).
  apply bind_Ok in H. destruct H as [g1 [E1 H]].
  assert (H1 : I g1).
  { destruct (Str.mem "glx" _);
      [eapply process_require_statements_invariant; eauto|congruence]. }
  apply bind_Ok in H. destruct H as [g2 [E2 H]].
  assert (H2 : I g2).
  { destruct (Str.mem "egl" _);
      [eapply process_require_statements_invariant; eauto|congruence]. }
  apply bind_Ok in H. destruct H as [g3 [E3 H]].
  assert (H3 : I g3).
  { destruct (Str.mem "wgl" _);
      [eapply process_require_statements_invariant; eauto|congruence]. }
  destruct (_ || _);
    [eapply process_require_statements_invariant; eauto|congruence].
Qed.

Lemma parse_function_providers_invariant
      (reg : Registry.t) (g g' : Generator.t) :
  Generator.parse_function_providers reg g = Ok g' -> I g -> I g'.
Proof.
  unfold Generator.parse_function_providers. intros H Hg.
  apply bind_Ok in H. destruct H as [g1 [H1 H]].
  eapply (for_each_invariant _ I parse_extension_invariant); eauto.
  eapply (for_each_invariant _ I parse_feature_invariant); eauto.
Qed.

End LoaderInvariant.

Lemma add_args_fields (params : list Registry.param) :
  forall func,
    let func' :=
      fold_left
        (fun f p => GLFunction.add_arg (Registry.param_type p)
                                       (Registry.param_name p)
                                       (Registry.param_group p) f)
        params func in
    GLFunction.name func' = GLFunction.name func
    /\ GLFunction.providers func' = GLFunction.providers func
    /\ GLFunction.alias_exts func' = GLFunction.alias_exts func
    /\ GLFunction.alias_func func' = GLFunction.alias_func func.
Proof.
  induction params as [|p params IH]; intros func; simpl; [auto|].
  destruct (IH (GLFunction.add_arg (Registry.param_type p)
                                   (Registry.param_name p)
                                   (Registry.param_group p) func))
    as [H1 [H2 [H3 H4]]].
  rewrite H1, H2, H3, H4. auto.
Qed.

(** The function [parse_function_definitions] stores for a command. *)
Lemma parse_function_definition_entry (c : Registry.command) (g : Generator.t) :
  exists func,
    Generator.functions (Generator.parse_function_definition c g)
    = PyDict.set (Registry.command_name c) func (Generator.functions g)
    /\ GLFunction.name func = Registry.command_name c
    /\ GLFunction.providers func = []
    /\ GLFunction.alias_exts func = []
    /\ GLFunction.alias_func func = None.
Proof.
  unfold Generator.parse_function_definition.
  destruct (add_args_fields
              (Registry.command_params c)
              (GLFunction.init (Registry.command_ret_type c)
                               (Registry.command_name c)))
    as [H1 [H2 [H3 H4]]].
  eexists. split; [reflexivity|].
  destruct (Registry.command_alias c); simpl; auto.
Qed.

Lemma parse_function_definitions_fresh (reg : Registry.t) (target : string) :
  let g := Generator.parse_function_definitions reg (Generator.init target) in
  freshly_parsed g
  /\ Generator.target g = target
  /\ forall k f, In (k, f) (Generator.functions g) ->
                 GLFunction.providers f = [].
Proof.
  unfold Generator.parse_function_definitions.
  assert (H : forall cs g,
             (freshly_parsed g
              /\ Generator.target g = target
              /\ forall k f, In (k, f) (Generator.functions g) ->
                             GLFunction.providers f = []) ->
             let g' := fold_left
                         (fun g c => Generator.parse_function_definition c g)
                         cs g in
             freshly_parsed g'
             /\ Generator.target g' = target
             /\ forall k f, In (k, f) (Generator.functions g') ->
                            GLFunction.providers f = []).
  { induction cs as [|c cs IH]; intros g Hg; simpl; [exact Hg|].
    apply IH. destruct Hg as [[Hwf Hfresh] [Ht Hnone]].
    destruct (parse_function_definition_entry c g)
      as [func [Hfs [Hn [Hp [He Ha]]]]].
    split; [split|split].
    - rewrite Hfs. now apply wf_set.
    - intros k f Hin. rewrite Hfs in Hin. apply In_set in Hin.
      destruct Hin as [[= -> ->]|Hin]; auto.
    - exact Ht.
    - intros k f Hin. rewrite Hfs in Hin. apply In_set in Hin.
      destruct Hin as [[= -> ->]|Hin]; eauto. }
  apply H. split; [split|split]; simpl; auto.
  - constructor.
  - intros k f [].
  - intros k f [].
Qed.

Lemma del_Ok (V : Type) (k : string) (d d' : PyDict.t V) :
  PyDict.del k d = Ok d' -> d' = PyDict.remove k d.
Proof.
  unfold PyDict.del. destruct (PyDict.mem k d); [|discriminate].
  now intros [= <-].
Qed.

(** What [process_require_statement] does to the function table. *)
Lemma process_require_statement_spec
      (condition loader human_name name : string) (g g' : Generator.t) :
  Generator.process_require_statement condition loader human_name name g
  = Ok g' ->
  Generator.target g' = Generator.target g
  /\ ((Generator.target g = "wgl"
       /\ Str.contains "wgl" name = false
       /\ Generator.functions g' = PyDict.remove name (Generator.functions g))
      \/ ((Generator.target g = "wgl" -> Str.contains "wgl" name = true)
          /\ exists func,
              PyDict.get name (Generator.functions g) = Some func
              /\ Generator.functions g'
                 = PyDict.set name
                              (GLFunction.add_provider condition loader
                                                       human_name func)
                              (Generator.functions g))).
Proof.
  unfold Generator.process_require_statement.
  destruct (String.eqb_spec (Generator.target g) "wgl") as [Ht|Ht];
    destruct (Str.contains "wgl" name) eqn:Hc; simpl; intros H.
  - apply bind_Ok in H. destruct H as [func [Hf H]]. injection H as <-.
    apply lookup_Ok in Hf. split; [reflexivity|]. right. split; eauto.
  - apply bind_Ok in H. destruct H as [fs [Hd H]]. injection H as <-.
    apply del_Ok in Hd. split; [reflexivity|]. left. auto.
  - apply bind_Ok in H. destruct H as [func [Hf H]]. injection H as <-.
    apply lookup_Ok in Hf. split; [reflexivity|]. right. split; eauto.
  - apply bind_Ok in H. destruct H as [func [Hf H]]. injection H as <-.
    apply lookup_Ok in Hf. split; [reflexivity|]. right.
    split; [contradiction|eauto].
Qed.

Lemma process_require_statement_fresh
      (condition loader human_name name : string) (g g' : Generator.t) :
  Generator.process_require_statement condition loader human_name name g
  = Ok g' ->
  freshly_parsed g -> freshly_parsed g'.
Proof.
  intros H [Hwf Hfresh].
  destruct (process_require_statement_spec _ _ _ _ _ H)
    as [_ [[_ [_ Hfs]]|[_ [func [Hf Hfs]]]]];
    unfold freshly_parsed; rewrite Hfs.
  - split; [now apply wf_remove|].
    intros k f Hin. apply In_remove in Hin. auto.
  - split; [now apply wf_set|].
    intros k f Hin. apply In_set in Hin. destruct Hin as [[= -> ->]|Hin]; auto.
    apply get_In in Hf. destruct (Hfresh _ _ Hf) as [H1 [H2 H3]]. auto.
Qed.

Lemma process_require_statement_wgl_only
      (condition loader human_name name : string) (g g' : Generator.t) :
  Generator.process_require_statement condition loader human_name name g
  = Ok g' ->
  wgl_only g -> wgl_only g'.
Proof.
  intros H Hg.
  destruct (process_require_statement_spec _ _ _ _ _ H)
    as [Ht [[_ [_ Hfs]]|[Hc [func [Hf Hfs]]]]];
    intros Ht' k f Hin Hp; rewrite Ht in Ht'; rewrite Hfs in Hin.
  - apply In_remove in Hin. eapply Hg; eauto.
  - apply In_set in Hin. destruct Hin as [[= -> ->]|Hin]; [auto|].
    eapply Hg; eauto.
Qed.

Lemma parse_fresh (reg : Registry.t) (target : string) (g : Generator.t) :
  Generator.parse reg (Generator.init target) = Ok g ->
  freshly_parsed g /\ wgl_only g /\ Generator.target g = target.
Proof.
  unfold Generator.parse. intros H.
  destruct (parse_function_definitions_fresh reg target) as [Hf [Ht Hnone]].
  split; [|split].
  - eapply (parse_function_providers_invariant freshly_parsed); eauto.
    + intros g1 g2 _ E [H1 H2]. unfold freshly_parsed. now rewrite E.
    + apply process_require_statement_fresh.
  - eapply (parse_function_providers_invariant wgl_only); eauto.
    + intros g1 g2 E1 E2 Hg1 Ht2. rewrite E2. apply Hg1. congruence.
    + apply process_require_statement_wgl_only.
    + intros _ k f Hin Hp. exfalso. apply Hp. eauto.
  - eapply (parse_function_providers_invariant
              (fun g => Generator.target g = target)); eauto.
    + intros g1 g2 E _ E1. congruence.
    + intros c l h n g1 g2 Hs E.
      destruct (process_require_statement_spec _ _ _ _ _ Hs) as [Ht' _].
      congruence.
Qed.

(** ** The table after the loader *)

Lemma is_weird_args (f f' : GLFunction.t) :
  GLFunction.args f' = GLFunction.args f ->
  Generator.is_weird f' = Generator.is_weird f.
Proof.
  intros E. unfold Generator.is_weird, GLFunction.args_decl. now rewrite E.
Qed.

Lemma resolve_alias_keeps (fuel : nat) (key : string) (g g' : Generator.t) :
  Generator.resolve_alias fuel key g = Ok g' ->
  Generator.sorted_functions g' = Generator.sorted_functions g
  /\ PyDict.keys (Generator.functions g') = PyDict.keys (Generator.functions g)
  /\ (no_weird (Generator.functions g) -> no_weird (Generator.functions g')).
Proof.
  intros H.
  destruct (resolve_alias_spec _ _ _ H)
    as [func [Hfunc [[_ ->]|[_ [rk [r [Hr [_ [Hne ->]]]]]]]]]; [auto|].
  split; [reflexivity|]. split.
  - simpl. now apply fs_after_keys.
  - intros Hnw k f. simpl.
    change (PyDict.set rk _ (PyDict.set key _ (Generator.functions g)))
      with (table_after (Generator.functions g) key rk func r).
    rewrite fs_after_get.
    destruct (String.eqb k rk).
    + intros [= <-]. rewrite <- (Hnw _ _ Hr). now apply is_weird_args.
    + destruct (String.eqb k key).
      * intros [= <-]. rewrite <- (Hnw _ _ Hfunc). now apply is_weird_args.
      * apply Hnw.
Qed.

Lemma resolve_aliases_keeps (fuel : nat) (g g' : Generator.t) :
  Generator.resolve_aliases fuel g = Ok g' ->
  Generator.sorted_functions g' = Generator.sorted_functions g
  /\ PyDict.keys (Generator.functions g') = PyDict.keys (Generator.functions g)
  /\ (no_weird (Generator.functions g) -> no_weird (Generator.functions g')).
Proof.
  unfold Generator.resolve_aliases.
  generalize (PyDict.keys (Generator.functions g)) at 1. intros keys.
  revert g. induction keys as [|key keys IH]; intros g H; simpl in H.
  - injection H as <-. auto.
  - apply bind_Ok in H. destruct H as [g1 [H1 H]].
    destruct (resolve_alias_keeps _ _ _ H1) as [A1 [B1 C1]].
    destruct (IH _ H) as [A2 [B2 C2]].
    split; [congruence|]. split; [congruence|auto].
Qed.

Lemma fixup_bootstrap_function_keeps (name loader : string) (g : Generator.t) :
  let g' := Generator.fixup_bootstrap_function name loader g in
  Generator.sorted_functions g' = Generator.sorted_functions g
  /\ PyDict.keys (Generator.functions g') = PyDict.keys (Generator.functions g)
  /\ (no_weird (Generator.functions g) -> no_weird (Generator.functions g')).
Proof.
  unfold Generator.fixup_bootstrap_function.
  destruct (PyDict.get name (Generator.functions g)) as [func|] eqn:Hf;
    [|auto].
  simpl. split; [reflexivity|]. split.
  - apply keys_set_present. eapply mem_of_get; eauto.
  - intros Hnw k f.
    destruct (String.eqb_spec k name) as [->|Hne].
    + rewrite get_set_same. intros [= <-].
      rewrite <- (Hnw _ _ Hf). now apply is_weird_args.
    + rewrite get_set_other by assumption. apply Hnw.
Qed.

Lemma sort_functions_keys (g : Generator.t) (k : string) :
  In k (Generator.sorted_functions (Generator.sort_functions g))
  <-> In k (PyDict.keys (Generator.functions g)).
Proof.
  unfold Generator.sort_functions, PyDict.keys. simpl.
  rewrite !in_map_iff. split; intros [kv [E H]]; exists kv; (split; [exact E|]).
  - now apply sort_In in H.
  - now apply sort_In.
Qed.

(** The model handed to the interner and the emitters holds no weird
    function, and its sorted list, over which every emitter runs, names
    exactly the functions of the table. *)
Lemma load_model_filters
      (fuel : nat) (target : string) (reg : Registry.t) (g : Generator.t) :
  load_model fuel target reg = Ok g ->
  no_weird (Generator.functions g)
  /\ forall k, In k (Generator.sorted_functions g)
               <-> In k (PyDict.keys (Generator.functions g)).
Proof.
  unfold load_model. intros H.
  apply bind_Ok in H. destruct H as [g0 [Hparse H]].
  apply bind_Ok in H. destruct H as [g4 [Hres H]]. injection H as <-.
  destruct (parse_fresh _ _ Hparse) as [[Hwf0 _] _].
  set (g1 := Generator.drop_weird_glx_functions g0) in *.
  assert (Hnw1 : no_weird (Generator.functions g1)).
  { intros k f Hf. now apply (drop_weird_get g0 k f Hwf0) in Hf. }
  assert (Hwf1 : PyDict.wf (Generator.functions g1))
    by (now apply remove_all_wf).
  set (g2 := if PyDict.mem "wglUseFontBitmaps" (Generator.functions g1)
             then _ else g1) in *.
  assert (Hnw2 : no_weird (Generator.functions g2)).
  { unfold g2. destruct (PyDict.mem "wglUseFontBitmaps" _); [|exact Hnw1].
    intros k f. simpl.
    destruct (String.eqb_spec k "wglUseFontBitmaps") as [->|Hne].
    - now rewrite get_remove_same.
    - rewrite get_remove_other by assumption. apply Hnw1. }
  set (g3 := Generator.sort_functions g2) in *.
  destruct (resolve_aliases_keeps _ _ Hres) as [A4 [B4 C4]].
  destruct (fixup_bootstrap_function_keeps
              "glGetString" "epoxy_get_bootstrap_proc_address({0})" g4)
    as [A5 [B5 C5]].
  set (g5 := Generator.fixup_bootstrap_function "glGetString" _ g4) in *.
  destruct (fixup_bootstrap_function_keeps
              "glGetIntegerv" "epoxy_get_bootstrap_proc_address({0})" g5)
    as [A6 [B6 C6]].
  set (g6 := Generator.fixup_bootstrap_function "glGetIntegerv" _ g5) in *.
  destruct (fixup_bootstrap_function_keeps
              "glXGetProcAddress" "epoxy_glx_dlsym({0})" g6)
    as [A7 [B7 C7]].
  split; [auto|].
  intros k. rewrite A7, A6, A5, A4, B7, B6, B5, B4.
  change (Generator.functions g3) with (Generator.functions g2).
  apply sort_functions_keys.
Qed.

(** The table [resolve_aliases] receives in the main loop is freshly
    parsed. *)
Lemma resolve_aliases_input_fresh
      (target : string) (reg : Registry.t) (g0 : Generator.t) :
  Generator.parse reg (Generator.init target) = Ok g0 ->
  let g1 := Generator.drop_weird_glx_functions g0 in
  let g2 :=
    if PyDict.mem "wglUseFontBitmaps" (Generator.functions g1)
    then Generator.set_functions
           (PyDict.remove "wglUseFontBitmaps" (Generator.functions g1)) g1
    else g1 in
  freshly_parsed (Generator.sort_functions g2).
Proof.
  intros Hparse g1 g2.
  destruct (parse_fresh _ _ Hparse) as [[Hwf0 Hfresh0] _].
  assert (H1 : freshly_parsed g1).
  { split; [now apply remove_all_wf|].
    intros k f Hin. apply In_remove_all in Hin. auto. }
  assert (H2 : freshly_parsed g2).
  { unfold g2. destruct (PyDict.mem "wglUseFontBitmaps" _); [|exact H1].
    destruct H1 as [Hwf1 Hfresh1]. split; [now apply wf_remove|].
    intros k f Hin. apply In_remove in Hin. auto. }
  exact H2.
Qed.

Lemma intern_provider_keeps (p : GLProvider.t) (g g' : Generator.t) :
  Generator.intern_provider p g = Ok g' ->
  Generator.functions g' = Generator.functions g
  /\ Generator.sorted_functions g' = Generator.sorted_functions g.
Proof.
  unfold Generator.intern_provider.
  destruct (PyDict.mem _ _).
  - intros H.
    apply bind_Ok in H. destruct H as [c [_ H]].
    apply bind_Ok in H. destruct H as [u1 [_ H]].
    apply bind_Ok in H. destruct H as [l [_ H]].
    apply bind_Ok in H. destruct H as [u2 [_ H]].
    injection H as <-. auto.
  - intros [= <-]. auto.
Qed.

Lemma prepare_provider_enum_keeps (g g' : Generator.t) :
  Generator.prepare_provider_enum g = Ok g' ->
  Generator.functions g' = Generator.functions g
  /\ Generator.sorted_functions g' = Generator.sorted_functions g.
Proof.
  unfold Generator.prepare_provider_enum. intros H.
  eapply (for_each_invariant
            Generator.intern_provider
            (fun s => Generator.functions s = Generator.functions g
                      /\ Generator.sorted_functions s
                         = Generator.sorted_functions g));
    [|exact H|split; reflexivity].
  intros p s s' Hs [E1 E2].
  destruct (intern_provider_keeps _ _ Hs) as [F1 F2]. split; congruence.
Qed.

(** ** Dropped commands *)




(** ** Alias resolution: termination, missing targets, what is kept *)

Lemma find_alias_root_reaches (fs : PyDict.t GLFunction.t) (n : nat) :
  forall key f,
    reaches_root fs n f ->
    exists rk r, Generator.find_alias_root n fs key f = Ok (rk, r).
Proof.
  induction n as [|n IH]; intros key f H; simpl in *;
    destruct (String.eqb_spec (GLFunction.alias_name f) (GLFunction.name f))
      as [E|E]; eauto.
  - destruct H as [H|[]]. contradiction.
  - destruct H as [H|[f' [Hf' H]]]; [contradiction|].
    unfold PyDict.lookup. rewrite Hf'. simpl. now apply IH.
Qed.

Lemma reaches_root_self (fs : PyDict.t GLFunction.t) (n : nat)
      (f : GLFunction.t) :
  self_named f -> reaches_root fs n f.
Proof. destruct n; simpl; auto. Qed.

Section ReachAfterStep.
Variables (fs : PyDict.t GLFunction.t) (key rk : string)
          (func r : GLFunction.t).
Hypothesis Hnames : names_ok fs.
Hypothesis Hfunc : PyDict.get key fs = Some func.
Hypothesis Hnonself : ~ self_named func.
Hypothesis Hr : PyDict.get rk fs = Some r.
Hypothesis Hself : self_named r.
Hypothesis Hne : rk <> key.

Lemma reaches_root_after (n : nat) :
  forall k f,
    PyDict.get k fs = Some f ->
    reaches_root fs n f ->
    exists f', PyDict.get k (table_after fs key rk func r) = Some f'
               /\ reaches_root (table_after fs key rk func r) n f'.
Proof.
  induction n as [|n IH]; intros k f Hf Hreach.
  - destruct Hreach as [Hs|[]].
    rewrite fs_after_get.
    destruct (String.eqb_spec k rk) as [->|H1].
    + eexists. split; [reflexivity|]. now left.
    + destruct (String.eqb_spec k key) as [->|H2].
      * assert (f = func) by congruence. subst. contradiction.
      * exists f. split; [exact Hf|]. now left.
  - rewrite fs_after_get.
    destruct (String.eqb_spec k rk) as [->|H1].
    + eexists. split; [reflexivity|]. apply reaches_root_self. exact Hself.
    + destruct (String.eqb_spec k key) as [->|H2].
      * eexists. split; [reflexivity|]. right.
        exists (GLFunction.set_alias_exts (GLFunction.alias_exts r ++ [key]) r).
        split.
        -- simpl. rewrite (Hnames _ Hr), fs_after_get.
           now rewrite String.eqb_refl.
        -- apply reaches_root_self. exact Hself.
      * exists f. split; [exact Hf|].
        destruct Hreach as [Hs|[f1 [Hf1 Hreach]]]; [now left|].
        right. destruct (IH _ _ Hf1 Hreach) as [f1' [Hf1' Hreach']]. eauto.
Qed.

Lemma all_reach_after (n : nat) :
  (forall k f, PyDict.get k fs = Some f -> reaches_root fs n f) ->
  forall k f', PyDict.get k (table_after fs key rk func r) = Some f' ->
               reaches_root (table_after fs key rk func r) n f'.
Proof.
  intros Hall k f' Hf'.
  assert (Hpre : exists f, PyDict.get k fs = Some f).
  { rewrite fs_after_get in Hf'.
    destruct (String.eqb_spec k rk) as [->|H1]; [eauto|].
    destruct (String.eqb_spec k key) as [->|H2]; eauto. }
  destruct Hpre as [f Hf].
  destruct (reaches_root_after n _ Hf (Hall _ _ Hf)) as [f'' [Hf'' Hreach]].
  congruence.
Qed.

End ReachAfterStep.

Lemma resolve_loop_terminates (n : nat) (keys : list string) :
  forall g,
    names_ok (Generator.functions g) ->
    (forall k f, PyDict.get k (Generator.functions g) = Some f ->
                 reaches_root (Generator.functions g) n f) ->
    (forall k, In k keys -> In k (PyDict.keys (Generator.functions g))) ->
    exists g', for_each (Generator.resolve_alias n) keys g = Ok g'.
Proof.
  induction keys as [|key keys IH]; intros g Hnames Hall Hkeys; simpl;
    [eauto|].
  assert (Hfunc : exists func,
             PyDict.get key (Generator.functions g) = Some func).
  { destruct (PyDict.get key (Generator.functions g)) as [func|] eqn:E;
      [eauto|].
    apply get_None_not_In in E. exfalso. apply E, Hkeys. now left. }
  destruct Hfunc as [func Hfunc].
  assert (Hstep : exists g1, Generator.resolve_alias n key g = Ok g1).
  { unfold Generator.resolve_alias, PyDict.lookup. rewrite Hfunc. simpl.
    destruct (negb _); [|eauto].
    destruct (find_alias_root_reaches _ n key func (Hall _ _ Hfunc))
      as [rk [r ->]].
    simpl. eauto. }
  destruct Hstep as [g1 Hstep]. rewrite Hstep. simpl.
  destruct (resolve_alias_spec _ _ _ Hstep)
    as [func' [Hfunc' [[_ ->]|[Hns [rk [r [Hr [Hself [Hne ->]]]]]]]]].
  - apply IH; auto. intros k Hk. apply Hkeys. now right.
  - assert (func' = func) by congruence. subst func'.
    apply IH.
    + simpl. now apply fs_after_names.
    + simpl. now apply all_reach_after.
    + intros k Hk. simpl.
      change (PyDict.set rk _ (PyDict.set key _ (Generator.functions g)))
        with (table_after (Generator.functions g) key rk func r).
      rewrite fs_after_keys by assumption. apply Hkeys. now right.
Qed.

(** With as many iterations as the longest alias chain has steps, alias
    resolution finishes with a model: in a table whose functions are stored
    under their names and whose alias chains all end at a self-naming
    function within [n] steps, [resolve_aliases] returns. *)
Theorem resolve_aliases_terminates (n : nat) (g : Generator.t) :
  names_ok (Generator.functions g) ->
  (forall k f, PyDict.get k (Generator.functions g) = Some f ->
               reaches_root (Generator.functions g) n f) ->
  exists g', Generator.resolve_aliases n g = Ok g'.
Proof.
  intros Hnames Hall. unfold Generator.resolve_aliases.
  apply resolve_loop_terminates; auto.
Qed.

Lemma resolve_aliases_terminates_witness :
  exists g', Generator.resolve_aliases 2 Examples.alias_chain_model = Ok g'.
Proof.
  apply resolve_aliases_terminates.
  - intros k f H. apply get_In in H. vm_compute in H.
    destruct H as [H|[H|[H|[]]]]; injection H as <- <-; reflexivity.
  - intros k f H. apply get_In in H. vm_compute in H.
    destruct H as [H|[H|[H|[]]]]; injection H as <- <-;
      repeat first [ left; reflexivity
                   | right; eexists; split; [reflexivity|] ].
Defined.

(** *** An alias that names no declared command *)

Lemma resolve_alias_undeclared (fuel : nat) (key : string) (g : Generator.t)
      (f : GLFunction.t) :
  PyDict.get key (Generator.functions g) = Some f ->
  GLFunction.alias_name f <> GLFunction.name f ->
  PyDict.get (GLFunction.alias_name f) (Generator.functions g) = None ->
  Generator.resolve_alias (S fuel) key g
  = Raise (KeyError (GLFunction.alias_name f)).
Proof.
  intros Hf Hne Hnone. unfold Generator.resolve_alias, PyDict.lookup.
  rewrite Hf. simpl.
  destruct (String.eqb_spec (GLFunction.alias_name f) (GLFunction.name f));
    [contradiction|].
  simpl. unfold PyDict.lookup. now rewrite Hnone.
Qed.

Lemma resolve_loop_undeclared (fuel : nat) (key : string) (f : GLFunction.t)
      (keys : list string) :
  forall g,
    PyDict.get key (Generator.functions g) = Some f ->
    GLFunction.alias_name f <> GLFunction.name f ->
    PyDict.get (GLFunction.alias_name f) (Generator.functions g) = None ->
    In key keys ->
    forall g', for_each (Generator.resolve_alias fuel) keys g <> Ok g'.
Proof.
  induction keys as [|k keys IH]; intros g Hf Hne Hnone Hin g';
    [destruct Hin|].
  simpl.
  destruct (Generator.resolve_alias fuel k g) as [g1|e|] eqn:Hstep; simpl;
    [|discriminate|discriminate].
  destruct (resolve_alias_spec _ _ _ Hstep)
    as [func [Hfunc [[Hs ->]|[Hns [rk [r [Hr [Hself [Hrk ->]]]]]]]]].
  - destruct Hin as [->|Hin]; [|now apply IH].
    assert (func = f) by congruence. subst. contradiction.
  - assert (Hk : k <> key).
    { intros ->. assert (func = f) by congruence. subst func.
      destruct fuel as [|fuel].
      - unfold Generator.resolve_alias, PyDict.lookup in Hstep.
        rewrite Hf in Hstep. simpl in Hstep.
        destruct (String.eqb_spec (GLFunction.alias_name f)
                                  (GLFunction.name f));
          [contradiction|discriminate Hstep].
      - rewrite (resolve_alias_undeclared fuel key g Hf Hne Hnone) in Hstep.
        discriminate. }
    destruct Hin as [->|Hin]; [contradiction|].
    assert (Hrk' : rk <> key).
    { intros ->. assert (r = f) by congruence. subst. contradiction. }
    apply IH; auto; simpl; rewrite !get_set_other; auto;
      intros E; congruence.
Qed.

(** A function whose alias names a command that is not declared stops the
    generator: the loop body of [resolve_aliases] raises KeyError with the
    missing name when it comes to that function, and [resolve_aliases]
    produces no model, whatever the other functions are. *)
Theorem resolve_aliases_undeclared_target
        (g : Generator.t) (key : string) (f : GLFunction.t) :
  PyDict.get key (Generator.functions g) = Some f ->
  GLFunction.alias_name f <> GLFunction.name f ->
  PyDict.get (GLFunction.alias_name f) (Generator.functions g) = None ->
  (forall fuel,
      Generator.resolve_alias (S fuel) key g
      = Raise (KeyError (GLFunction.alias_name f)))
  /\ (forall fuel g', Generator.resolve_aliases fuel g <> Ok g').
Proof.
  intros Hf Hne Hnone. split.
  - intros fuel. now apply resolve_alias_undeclared.
  - intros fuel g'. unfold Generator.resolve_aliases.
    eapply resolve_loop_undeclared; eauto.
    eapply get_In_keys; eauto.
Qed.

Lemma resolve_aliases_undeclared_target_witness :
  Generator.resolve_alias 1 "glFooARB" Examples.undeclared_alias_model
  = Raise (KeyError "glFoo").
Proof.
  exact (proj1 (@resolve_aliases_undeclared_target
                  Examples.undeclared_alias_model "glFooARB" _
                  eq_refl ltac:(discriminate) eq_refl) 0).
Defined.

(** *** What alias resolution keeps *)

Lemma same_payload_refl (f : GLFunction.t) : same_payload f f.
Proof. repeat split. Qed.

Lemma same_payloads_refl (fs : PyDict.t GLFunction.t) : same_payloads fs fs.
Proof.
  split; [reflexivity|]. intros k f Hf. exists f. split; [exact Hf|].
  apply same_payload_refl.
Qed.

Lemma same_payloads_trans (fs1 fs2 fs3 : PyDict.t GLFunction.t) :
  same_payloads fs1 fs2 -> same_payloads fs2 fs3 -> same_payloads fs1 fs3.
Proof.
  intros [K12 P12] [K23 P23]. split; [congruence|].
  intros k f3 Hf3. destruct (P23 k f3 Hf3) as [f2 [Hf2 [A2 [B2 [C2 D2]]]]].
  destruct (P12 k f2 Hf2) as [f1 [Hf1 [A1 [B1 [C1 D1]]]]].
  exists f1. split; [exact Hf1|]. repeat split; congruence.
Qed.

Lemma table_after_payloads
      (fs : PyDict.t GLFunction.t) (key rk : string) (func r : GLFunction.t) :
  PyDict.get key fs = Some func ->
  PyDict.get rk fs = Some r ->
  rk <> key ->
  same_payloads fs (table_after fs key rk func r).
Proof.
  intros Hfunc Hr Hne. split; [now apply fs_after_keys|].
  intros k f'. rewrite fs_after_get.
  destruct (String.eqb_spec k rk) as [->|H1].
  - intros [= <-]. exists r. split; [exact Hr|]. repeat split.
  - destruct (String.eqb_spec k key) as [->|H2].
    + intros [= <-]. exists func. split; [exact Hfunc|]. repeat split.
    + intros Hf. exists f'. split; [exact Hf|]. apply same_payload_refl.
Qed.

Lemma table_after_refs
      (fs : PyDict.t GLFunction.t) (key rk : string) (func r : GLFunction.t) :
  PyDict.get key fs = Some func ->
  PyDict.get rk fs = Some r ->
  rk <> key ->
  refs_in_keys fs ->
  refs_in_keys (table_after fs key rk func r).
Proof.
  intros Hfunc Hr Hne Hrefs k f'.
  rewrite fs_after_keys by assumption. rewrite fs_after_get.
  destruct (String.eqb_spec k rk) as [->|H1].
  - intros [= <-]. simpl. destruct (Hrefs _ _ Hr) as [Ha He].
    split; [exact Ha|].
    intros e He'. apply in_app_or in He'. destruct He' as [He'|[<-|[]]]; auto.
    eapply get_In_keys; eauto.
  - destruct (String.eqb_spec k key) as [->|H2].
    + intros [= <-]. simpl. destruct (Hrefs _ _ Hfunc) as [Ha He].
      split; [|exact He].
      intros r0 [= <-]. eapply get_In_keys; eauto.
    + apply Hrefs.
Qed.

Lemma resolve_alias_payloads (fuel : nat) (key : string) (g g' : Generator.t) :
  Generator.resolve_alias fuel key g = Ok g' ->
  same_payloads (Generator.functions g) (Generator.functions g')
  /\ (refs_in_keys (Generator.functions g) ->
      refs_in_keys (Generator.functions g'))
  /\ Generator.target g' = Generator.target g
  /\ Generator.provider_enum g' = Generator.provider_enum g
  /\ Generator.provider_condition g' = Generator.provider_condition g
  /\ Generator.provider_loader g' = Generator.provider_loader g.
Proof.
  intros H.
  destruct (resolve_alias_spec _ _ _ H)
    as [func [Hfunc [[_ ->]|[_ [rk [r [Hr [_ [Hne ->]]]]]]]]].
  - split; [apply same_payloads_refl|]. split; [exact (fun H => H)|].
    repeat split.
  - split; [now apply table_after_payloads|].
    split; [now apply table_after_refs|]. repeat split.
Qed.

Lemma resolve_loop_payloads (fuel : nat) (keys : list string) :
  forall g g',
    for_each (Generator.resolve_alias fuel) keys g = Ok g' ->
    same_payloads (Generator.functions g) (Generator.functions g')
    /\ (refs_in_keys (Generator.functions g) ->
        refs_in_keys (Generator.functions g'))
    /\ Generator.target g' = Generator.target g
    /\ Generator.provider_enum g' = Generator.provider_enum g
    /\ Generator.provider_condition g' = Generator.provider_condition g
    /\ Generator.provider_loader g' = Generator.provider_loader g.
Proof.
  induction keys as [|key keys IH]; intros g g' H; simpl in H.
  - injection H as <-. split; [apply same_payloads_refl|].
    split; [exact (fun H => H)|]. repeat split.
  - apply bind_Ok in H. destruct H as [g1 [H1 H]].
    destruct (resolve_alias_payloads _ _ _ H1) as [P1 [R1 [T1 [E1 [C1 L1]]]]].
    destruct (IH _ _ H) as [P2 [R2 [T2 [E2 [C2 L2]]]]].
    split; [eapply same_payloads_trans; eauto|].
    split; [auto|]. repeat split; congruence.
Qed.

(** Alias resolution changes nothing but the alias fields: the model it
    returns has the same functions under the same keys in the same order,
    each with its name, return type, provider bindings and arguments as
    before, and the same target and provider tables. *)
Theorem resolve_aliases_keeps_payload (fuel : nat) (g g' : Generator.t) :
  Generator.resolve_aliases fuel g = Ok g' ->
  same_payloads (Generator.functions g) (Generator.functions g')
  /\ Generator.target g' = Generator.target g
  /\ Generator.sorted_functions g' = Generator.sorted_functions g
  /\ Generator.provider_enum g' = Generator.provider_enum g
  /\ Generator.provider_condition g' = Generator.provider_condition g
  /\ Generator.provider_loader g' = Generator.provider_loader g.
Proof.
  intros H.
  destruct (resolve_aliases_keeps _ _ H) as [S _].
  unfold Generator.resolve_aliases in H.
  destruct (resolve_loop_payloads _ _ _ H) as [P [_ [T [E [C L]]]]].
  repeat split; auto; apply P.
Qed.

Lemma resolve_aliases_keeps_payload_witness :
  exists g',
    Generator.resolve_aliases 2 Examples.alias_chain_model = Ok g'
    /\ same_payloads (Generator.functions Examples.alias_chain_model)
                     (Generator.functions g').
Proof.
  eexists. split; [vm_compute; reflexivity|].
  exact (proj1 (@resolve_aliases_keeps_payload
                  2 Examples.alias_chain_model _ eq_refl)).
Defined.

(** ** The model the main loop builds *)

(** *** The stages of the main loop *)

Lemma load_model_stages
      (fuel : nat) (target : string) (reg : Registry.t) (g : Generator.t) :
  load_model fuel target reg = Ok g ->
  exists g0 g3 g4,
    Generator.parse reg (Generator.init target) = Ok g0
    /\ freshly_parsed g3
    /\ Generator.target g3 = target
    /\ (forall k f, PyDict.get k (Generator.functions g3) = Some f ->
                    PyDict.get k (Generator.functions g0) = Some f)
    /\ Generator.sorted_functions g3
       = map fst (Sort.sort Str.leb (fun kv => GLFunction.name (snd kv))
                            (Generator.functions g3))
    /\ Generator.resolve_aliases fuel g3 = Ok g4
    /\ g = Generator.fixup_bootstrap_function
             "glXGetProcAddress" "epoxy_glx_dlsym({0})"
             (Generator.fixup_bootstrap_function
                "glGetIntegerv" "epoxy_get_bootstrap_proc_address({0})"
                (Generator.fixup_bootstrap_function
                   "glGetString" "epoxy_get_bootstrap_proc_address({0})" g4)).
Proof.
  unfold load_model. intros H.
  apply bind_Ok in H. destruct H as [g0 [Hparse H]].
  apply bind_Ok in H. destruct H as [g4 [Hres H]]. injection H as <-.
  pose proof (resolve_aliases_input_fresh _ _ Hparse) as Hfresh.
  cbv zeta in Hfresh.
  destruct (parse_fresh _ _ Hparse) as [[Hwf0 _] [_ Ht0]].
  eexists g0, _, g4. split; [exact Hparse|]. split; [exact Hfresh|].
  split; [|split; [|split; [reflexivity|split; [exact Hres|reflexivity]]]].
  - destruct (PyDict.mem _ _); exact Ht0.
  - intros k f.
    assert (Hdrop : forall k f,
               PyDict.get k (Generator.functions
                               (Generator.drop_weird_glx_functions g0))
               = Some f ->
               PyDict.get k (Generator.functions g0) = Some f).
    { intros k' f' Hf. now apply (drop_weird_get g0 k' f' Hwf0) in Hf. }
    destruct (PyDict.mem _ _); simpl; [|apply Hdrop].
    intros Hf. apply Hdrop.
    destruct (String.eqb_spec k "wglUseFontBitmaps") as [->|Hne].
    + rewrite get_remove_same in Hf; [discriminate|].
      now apply remove_all_wf.
    + now rewrite get_remove_other in Hf.
Qed.

(** *** Alias fields *)

Lemma freshly_parsed_resolved_but (g : Generator.t) :
  resolved_but (PyDict.keys (Generator.functions g) ++ [])
               (Generator.functions g).
Proof.
  intros k f Hf. right. left. rewrite app_nil_r. eapply get_In_keys; eauto.
Qed.

Lemma freshly_parsed_refs (g : Generator.t) :
  freshly_parsed g -> refs_in_keys (Generator.functions g).
Proof.
  intros [_ H] k f Hf. apply get_In in Hf.
  destruct (H k f Hf) as [_ [He Ha]]. rewrite He, Ha.
  split; [discriminate|intros e []].
Qed.

Lemma freshly_parsed_shape (g : Generator.t) :
  freshly_parsed g -> root_shape (Generator.functions g).
Proof.
  intros [_ H] k f Hf. apply get_In in Hf.
  destruct (H k f Hf) as [_ [He Ha]]. auto.
Qed.

Lemma table_after_shape
      (fs : PyDict.t GLFunction.t) (key rk : string) (func r : GLFunction.t) :
  names_ok fs ->
  PyDict.get key fs = Some func ->
  ~ self_named func ->
  PyDict.get rk fs = Some r ->
  self_named r ->
  rk <> key ->
  root_shape fs ->
  root_shape (table_after fs key rk func r).
Proof.
  intros Hnames Hfunc Hnonself Hr Hself Hne Hshape k f'. rewrite fs_after_get.
  destruct (String.eqb_spec k rk) as [->|H1].
  - intros [= <-]. split.
    + intros _. simpl. now apply (Hshape _ _ Hr).
    + intros Hns. exfalso. apply Hns. exact Hself.
  - destruct (String.eqb_spec k key) as [->|H2].
    + intros [= <-]. split.
      * unfold self_named. simpl. intros E. exfalso. apply Hne.
        rewrite <- (Hnames _ _ Hr), <- (Hnames _ _ Hfunc). exact E.
      * intros _. simpl. now apply (Hshape _ _ Hfunc).
    + apply Hshape.
Qed.

Lemma resolve_loop_shape (fuel : nat) (keys : list string) :
  forall g g',
    for_each (Generator.resolve_alias fuel) keys g = Ok g' ->
    names_ok (Generator.functions g) ->
    root_shape (Generator.functions g) ->
    root_shape (Generator.functions g').
Proof.
  induction keys as [|key keys IH]; intros g g' Hrun Hnames Hshape.
  - injection Hrun as <-. exact Hshape.
  - simpl in Hrun. apply bind_Ok in Hrun. destruct Hrun as [g1 [Hstep Hrun]].
    destruct (resolve_alias_spec _ _ _ Hstep)
      as [func [Hfunc [[Hs ->]|[Hns [rk [r [Hr [Hself [Hne ->]]]]]]]]].
    + now apply (IH _ _ Hrun).
    + apply (IH _ _ Hrun); simpl.
      * now apply fs_after_names.
      * now apply table_after_shape.
Qed.

Lemma resolve_aliases_resolved (fuel : nat) (g g' : Generator.t) :
  freshly_parsed g ->
  Generator.resolve_aliases fuel g = Ok g' ->
  aliases_resolved (Generator.functions g').
Proof.
  intros Hfresh Hrun. unfold Generator.resolve_aliases in Hrun.
  destruct (@resolve_loop_inv fuel [] _ g g' Hrun (proj1 Hfresh)
                              (freshly_parsed_names Hfresh)
                              (freshly_parsed_resolved_but g))
    as [Hwf [Hnames [_ [_ [Hres _]]]]].
  destruct (resolve_loop_payloads _ _ _ Hrun) as [_ [Hrefs _]].
  split; [exact Hwf|]. split; [exact Hnames|].
  split; [apply Hrefs; now apply freshly_parsed_refs|].
  split; [exact Hres|].
  eapply resolve_loop_shape; eauto.
  - now apply freshly_parsed_names.
  - now apply freshly_parsed_shape.
Qed.

Lemma same_aliases_back (fs fs' : PyDict.t GLFunction.t) (k : string)
      (f : GLFunction.t) :
  same_aliases fs fs' ->
  PyDict.get k fs = Some f ->
  exists f', PyDict.get k fs' = Some f'
             /\ GLFunction.name f' = GLFunction.name f
             /\ GLFunction.alias_name f' = GLFunction.alias_name f
             /\ GLFunction.alias_func f' = GLFunction.alias_func f
             /\ GLFunction.alias_exts f' = GLFunction.alias_exts f.
Proof.
  intros [Hkeys Hsame] Hf.
  destruct (PyDict.get k fs') as [f'|] eqn:Hf'.
  - destruct (Hsame _ _ Hf') as [f0 [Hf0 H]].
    assert (f0 = f) by congruence. subst f0. eauto.
  - apply get_None_not_In in Hf'. rewrite Hkeys in Hf'.
    exfalso. apply Hf'. eapply get_In_keys; eauto.
Qed.

Lemma same_aliases_resolved (fs fs' : PyDict.t GLFunction.t) :
  same_aliases fs fs' -> aliases_resolved fs -> aliases_resolved fs'.
Proof.
  intros Hsame [Hwf [Hnames [Hrefs [Hres Hshape]]]].
  pose proof Hsame as [Hkeys Hfwd].
  split; [unfold PyDict.wf; now rewrite Hkeys|].
  split.
  { intros k f' Hf'. destruct (Hfwd _ _ Hf') as [f [Hf [En _]]].
    rewrite En. now apply Hnames. }
  split.
  { intros k f' Hf'. destruct (Hfwd _ _ Hf') as [f [Hf [_ [_ [Ea Ee]]]]].
    rewrite Hkeys, Ea, Ee. now apply (Hrefs k). }
  split.
  { intros k f' Hf'. destruct (Hfwd _ _ Hf') as [f [Hf [En [Ean [Ea Ee]]]]].
    destruct (Hres _ _ Hf) as [Hs|[[]|[r [Hr [Hsr [Hin Haf]]]]]].
    - left. unfold self_named in *. congruence.
    - right. right.
      destruct (same_aliases_back _ Hsame Hr) as [r' [Hr' [Rn [Ran [_ Re]]]]].
      exists r'. rewrite Ean, Ea, Re. repeat split; auto.
      unfold self_named in *. congruence. }
  intros k f' Hf'. destruct (Hfwd _ _ Hf') as [f [Hf [En [Ean [Ea Ee]]]]].
  destruct (Hshape _ _ Hf) as [H1 H2].
  unfold self_named in *. rewrite En, Ean, Ea, Ee. auto.
Qed.

Lemma fixup_same_aliases (name loader : string) (g : Generator.t) :
  same_aliases (Generator.functions g)
               (Generator.functions
                  (Generator.fixup_bootstrap_function name loader g)).
Proof.
  unfold Generator.fixup_bootstrap_function.
  destruct (PyDict.get name (Generator.functions g)) as [func|] eqn:Hf.
  - simpl. split.
    + apply keys_set_present. eapply mem_of_get; eauto.
    + intros k f'.
      destruct (String.eqb_spec k name) as [->|Hne].
      * rewrite get_set_same. intros [= <-]. exists func. auto.
      * rewrite get_set_other by assumption. intros H. exists f'. auto.
  - split; [reflexivity|]. intros k f' H. exists f'. auto.
Qed.

Lemma load_model_resolved
      (fuel : nat) (target : string) (reg : Registry.t) (g : Generator.t) :
  load_model fuel target reg = Ok g ->
  aliases_resolved (Generator.functions g).
Proof.
  intros H.
  destruct (load_model_stages _ _ _ H)
    as [g0 [g3 [g4 [_ [Hfresh [_ [_ [_ [Hres ->]]]]]]]]].
  do 3 (eapply same_aliases_resolved; [apply fixup_same_aliases|]).
  eapply resolve_aliases_resolved; eauto.
Qed.

Lemma generate_resolved
      (fuel : nat) (target : string) (reg : Registry.t) (g : Generator.t) :
  generate fuel target reg = Ok g ->
  aliases_resolved (Generator.functions g).
Proof.
  unfold generate. intros H. apply bind_Ok in H. destruct H as [g1 [H1 H]].
  destruct (prepare_provider_enum_keeps _ H) as [-> _].
  eapply load_model_resolved; eauto.
Qed.

Lemma refs_in_keys_ok (g : Generator.t) :
  refs_in_keys (Generator.functions g) -> model_references_ok g.
Proof.
  intros Hrefs k f Hf. destruct (Hrefs _ _ Hf) as [Ha He].
  split.
  - intros r Hr. apply mem_true. specialize (Ha _ Hr).
    destruct (PyDict.get r (Generator.functions g)) eqn:E; [eauto|].
    apply get_None_not_In in E. contradiction.
  - intros e Hin. apply mem_true. specialize (He _ Hin).
    destruct (PyDict.get e (Generator.functions g)) eqn:E; [eauto|].
    apply get_None_not_In in E. contradiction.
Qed.

(** In every model the main loop builds, the functions are stored under
    their names, each key once, and the alias fields are consistent: a
    function that names itself as alias has no alias target; every other
    function has no dependent aliases, and its alias target is a function of
    the model that names itself and lists it as a dependent alias.  Every
    alias target and every dependent alias is a function of the model. *)
Theorem generated_model_aliases
        (fuel : nat) (target : string) (reg : Registry.t) (g : Generator.t) :
  generate fuel target reg = Ok g ->
  PyDict.wf (Generator.functions g)
  /\ model_references_ok g
  /\ forall k f,
      PyDict.get k (Generator.functions g) = Some f ->
      GLFunction.name f = k
      /\ ((self_named f /\ GLFunction.alias_func f = None)
          \/ (~ self_named f
              /\ GLFunction.alias_exts f = []
              /\ GLFunction.alias_func f = Some (GLFunction.alias_name f)
              /\ exists r,
                  PyDict.get (GLFunction.alias_name f) (Generator.functions g)
                  = Some r
                  /\ self_named r
                  /\ In k (GLFunction.alias_exts r))).
Proof.
  intros H.
  destruct (generate_resolved _ _ _ H) as [Hwf [Hnames [Hrefs [Hres Hshape]]]].
  split; [exact Hwf|]. split; [now apply refs_in_keys_ok|].
  intros k f Hf. split; [now apply Hnames|].
  destruct (Hshape _ _ Hf) as [H1 H2].
  destruct (string_dec (GLFunction.alias_name f) (GLFunction.name f)) as [E|E].
  - left. split; [exact E|]. now apply H1.
  - right. split; [exact E|]. split; [now apply H2|].
    destruct (Hres _ _ Hf) as [Hs|[[]|[r [Hr [Hsr [Hin Haf]]]]]];
      [contradiction|].
    split; [exact Haf|]. exists r. auto.
Qed.

Lemma generated_model_aliases_witness :
  model_references_ok Examples.three_candidates_model.
Proof.
  exact (proj1 (proj2 (@generated_model_aliases
                         8 "gl" Examples.aliases_with_extensions
                         Examples.three_candidates_model
                         ltac:(vm_compute; reflexivity)))).
Defined.

(** *** Provider bindings of the model *)

Lemma constructed_init (c label l n : string) :
  constructed (GLProvider.init c label l n).
Proof. reflexivity. Qed.

Lemma add_provider_bindings (c l label : string) (f : GLFunction.t) :
  PyDict.wf (GLFunction.providers f) ->
  (forall l0 p, PyDict.get l0 (GLFunction.providers f) = Some p ->
                GLProvider.condition_name p = l0
                /\ GLProvider.name p = GLFunction.name f
                /\ constructed p) ->
  let f' := GLFunction.add_provider c l label f in
  PyDict.wf (GLFunction.providers f')
  /\ forall l0 p, PyDict.get l0 (GLFunction.providers f') = Some p ->
                  GLProvider.condition_name p = l0
                  /\ GLProvider.name p = GLFunction.name f'
                  /\ constructed p.
Proof.
  intros Hwf H. simpl. split; [now apply wf_set|].
  intros l0 p.
  destruct (String.eqb_spec l0 label) as [->|Hne].
  - rewrite get_set_same. intros [= <-]. repeat split.
  - rewrite get_set_other by assumption. apply H.
Qed.

Lemma process_require_statement_bindings
      (condition loader human_name name : string) (g g' : Generator.t) :
  Generator.process_require_statement condition loader human_name name g
  = Ok g' ->
  freshly_parsed g /\ bindings_ok (Generator.functions g) ->
  freshly_parsed g' /\ bindings_ok (Generator.functions g').
Proof.
  intros Hstep [Hfresh Hb].
  split; [eapply process_require_statement_fresh; eauto|].
  destruct (process_require_statement_spec _ _ _ _ _ Hstep)
    as [_ [[_ [_ ->]]|[_ [func [Hfunc ->]]]]].
  - intros k f.
    destruct (String.eqb_spec k name) as [->|Hne].
    + rewrite get_remove_same; [discriminate|exact (proj1 Hfresh)].
    + rewrite get_remove_other by assumption. apply Hb.
  - intros k f.
    destruct (String.eqb_spec k name) as [->|Hne].
    + rewrite get_set_same. intros [= <-].
      destruct (Hb _ _ Hfunc) as [Hwf Hp].
      now apply add_provider_bindings.
    + rewrite get_set_other by assumption. apply Hb.
Qed.

Lemma parse_bindings (reg : Registry.t) (target : string) (g : Generator.t) :
  Generator.parse reg (Generator.init target) = Ok g ->
  bindings_ok (Generator.functions g).
Proof.
  unfold Generator.parse. intros H.
  destruct (parse_function_definitions_fresh reg target) as [Hfresh [_ Hnone]].
  cbv zeta in Hfresh, Hnone.
  refine (proj2 (@parse_function_providers_invariant
                   (fun g => freshly_parsed g
                             /\ bindings_ok (Generator.functions g))
                   _ _ reg _ g H _)).
  - intros g1 g2 _ E [[Hwf Hf] Hb]. unfold freshly_parsed. rewrite E. auto.
  - intros c l h n g1 g2. apply process_require_statement_bindings.
  - split; [exact Hfresh|].
    intros k f Hf. apply get_In in Hf. rewrite (Hnone _ _ Hf).
    split; [apply wf_nil|]. intros l p. discriminate.
Qed.

Lemma same_payloads_bindings (fs fs' : PyDict.t GLFunction.t) :
  same_payloads fs fs' -> bindings_ok fs -> bindings_ok fs'.
Proof.
  intros [_ Hsame] Hb k f' Hf'.
  destruct (Hsame _ _ Hf') as [f [Hf [En [_ [Ep _]]]]].
  rewrite En, Ep. now apply (Hb k).
Qed.

Lemma fixup_bindings (name loader : string) (g : Generator.t) :
  bindings_ok (Generator.functions g) ->
  bindings_ok (Generator.functions
                 (Generator.fixup_bootstrap_function name loader g)).
Proof.
  intros Hb. unfold Generator.fixup_bootstrap_function.
  destruct (PyDict.get name (Generator.functions g)) as [func|] eqn:Hf;
    [|exact Hb].
  simpl. intros k f.
  destruct (String.eqb_spec k name) as [->|Hne].
  - rewrite get_set_same. intros [= <-].
    apply (@add_provider_bindings
             "true" loader "always present"
             (GLFunction.set_providers PyDict.empty func)).
    + apply wf_nil.
    + intros l p. discriminate.
  - rewrite get_set_other by assumption. apply Hb.
Qed.

Lemma load_model_bindings
      (fuel : nat) (target : string) (reg : Registry.t) (g : Generator.t) :
  load_model fuel target reg = Ok g ->
  bindings_ok (Generator.functions g).
Proof.
  intros H.
  destruct (load_model_stages _ _ _ H)
    as [g0 [g3 [g4 [Hparse [_ [_ [Hsub [_ [Hres ->]]]]]]]]].
  do 3 apply fixup_bindings.
  unfold Generator.resolve_aliases in Hres.
  destruct (resolve_loop_payloads _ _ _ Hres) as [Hsame _].
  apply (same_payloads_bindings Hsame).
  intros k f Hf. apply (parse_bindings _ _ Hparse k). now apply Hsub.
Qed.

Lemma all_providers_In (g : Generator.t) (p : GLProvider.t) :
  In p (Generator.all_providers g) ->
  exists k f, In (k, f) (Generator.functions g)
              /\ In p (PyDict.values (GLFunction.providers f)).
Proof.
  unfold Generator.all_providers. rewrite in_flat_map.
  intros [f [Hf Hp]]. apply values_In in Hf. destruct Hf as [k Hf]. eauto.
Qed.

(** In every model the main loop builds, each provider binding of each
    function is stored under its own label, names the function that holds it
    as the entry point to load, and carries the enum token computed from its
    label; every label has an entry in the three interning tables, with the
    token, the condition and the loader of the binding. *)
Theorem generated_model_bindings
        (fuel : nat) (target : string) (reg : Registry.t) (g : Generator.t) :
  generate fuel target reg = Ok g ->
  forall k f l p,
    PyDict.get k (Generator.functions g) = Some f ->
    PyDict.get l (GLFunction.providers f) = Some p ->
    GLProvider.condition_name p = l
    /\ GLProvider.name p = k
    /\ GLProvider.enum p = GLProvider.enum (GLProvider.init "" l "" "")
    /\ PyDict.get l (Generator.provider_enum g) = Some (GLProvider.enum p)
    /\ PyDict.get l (Generator.provider_condition g)
       = Some (GLProvider.condition p)
    /\ PyDict.get l (Generator.provider_loader g) = Some (GLProvider.loader p).
Proof.
  unfold generate. intros H k f l p Hf Hp.
  apply bind_Ok in H. destruct H as [g1 [H1 H]].
  pose proof (load_model_bindings _ _ _ H1) as Hb.
  destruct (load_model_resolved _ _ _ H1) as [Hwf [Hnames _]].
  assert (Hc : forall q, In q (Generator.all_providers g1) -> constructed q).
  { intros q Hq. destruct (all_providers_In _ _ Hq) as [k' [f' [Hf' Hq']]].
    apply values_In in Hq'. destruct Hq' as [l' Hq'].
    apply In_get in Hf'; [|exact Hwf]. destruct (Hb _ _ Hf') as [Hwfp Hall].
    apply In_get in Hq'; [|exact Hwfp]. now apply (Hall _ _ Hq'). }
  destruct (prepare_provider_enum_tables _ H Hc) as [Efs Htab].
  rewrite Efs in Hf.
  destruct (Hb _ _ Hf) as [Hwfp Hall].
  destruct (Hall _ _ Hp) as [El [En Hcp]].
  assert (Hin : In p (Generator.all_providers g1)).
  { eapply In_all_providers; eauto. apply values_In. exists l.
    now apply get_In. }
  destruct (Htab _ Hin) as [T1 [T2 T3]].
  rewrite El in T1, T2, T3.
  split; [exact El|]. split; [rewrite En; now apply Hnames|].
  split; [rewrite <- El; now apply constructed_enum|].
  auto.
Qed.

Lemma generated_model_bindings_witness :
  GLProvider.name Examples.candidate_arb = "glFooARB"
  /\ PyDict.get "GL_ZZ_foo"
                (Generator.provider_loader Examples.three_candidates_model)
     = Some "epoxy_get_proc_address({0})".
Proof.
  pose proof (@generated_model_bindings
                8 "gl" Examples.aliases_with_extensions
                Examples.three_candidates_model
                ltac:(vm_compute; reflexivity)
                "glFooARB" _ "GL_ZZ_foo" Examples.candidate_arb
                ltac:(vm_compute; reflexivity)
                ltac:(vm_compute; reflexivity)) as H.
  split; [apply H|apply H].
Defined.

(** ** The candidates of a function of the model *)

Lemma providers_of_spec (g : Generator.t) (refs : list string) :
  forall ps,
    Generator.providers_of g refs = Ok ps ->
    forall p,
      In p ps <->
      exists e fe, In e refs
                   /\ PyDict.get e (Generator.functions g) = Some fe
                   /\ In p (PyDict.values (GLFunction.providers fe)).
Proof.
  induction refs as [|r refs IH]; intros ps H p; simpl in H.
  - injection H as <-. split; [intros []|intros [e [fe [[] _]]]].
  - apply bind_Ok in H. destruct H as [f [Hf H]]. apply lookup_Ok in Hf.
    apply bind_Ok in H. destruct H as [rest [Hrest H]]. injection H as <-.
    rewrite in_app_iff, (IH _ Hrest p). split.
    + intros [Hp|[e [fe [He [Hfe Hp]]]]].
      * exists r, f. simpl. auto.
      * exists e, fe. simpl. auto.
    + intros [e [fe [[<-|He] [Hfe Hp]]]].
      * left. congruence.
      * right. eauto.
Qed.

Lemma gather_providers_eq
      (g : Generator.t) (func r : GLFunction.t) (exts : list GLProvider.t) :
  match GLFunction.alias_func func with
  | Some rk => PyDict.lookup rk (Generator.functions g)
  | None => Ok func
  end = Ok r ->
  Generator.providers_of g (GLFunction.alias_exts r) = Ok exts ->
  Generator.gather_providers g func =
  match PyDict.get (GLFunction.name func) Generator.half_aliases with
  | Some other =>
      match PyDict.get other (Generator.functions g) with
      | Some o =>
          Ok (Sort.sort Generator.key_leb (Generator.provider_sort func)
                        ((PyDict.values (GLFunction.providers r) ++ exts)
                           ++ PyDict.values (GLFunction.providers o))%list)
      | None => Raise (KeyError other)
      end
  | None =>
      Ok (Sort.sort Generator.key_leb (Generator.provider_sort func)
                    (PyDict.values (GLFunction.providers r) ++ exts)%list)
  end.
Proof.
  intros Hr Hexts. unfold Generator.gather_providers.
  rewrite Hr. cbn [bind]. rewrite Hexts. cbn [bind].
  destruct (PyDict.get (GLFunction.name func) Generator.half_aliases)
    as [other|]; [|reflexivity].
  unfold PyDict.lookup.
  destruct (PyDict.get other (Generator.functions g)); reflexivity.
Qed.

(** The root of the alias group and the bindings of its dependent aliases
    are found in a model whose aliases are resolved. *)
Lemma resolved_root (g : Generator.t) (k : string) (func : GLFunction.t) :
  aliases_resolved (Generator.functions g) ->
  PyDict.get k (Generator.functions g) = Some func ->
  exists r exts,
    match GLFunction.alias_func func with
    | Some rk => PyDict.lookup rk (Generator.functions g)
    | None => Ok func
    end = Ok r
    /\ PyDict.get match GLFunction.alias_func func with
                  | Some rk => rk
                  | None => k
                  end (Generator.functions g) = Some r
    /\ Generator.providers_of g (GLFunction.alias_exts r) = Ok exts.
Proof.
  intros [Hwf [Hnames [Hrefs _]]] Hf.
  assert (Hr : exists r,
             match GLFunction.alias_func func with
             | Some rk => PyDict.lookup rk (Generator.functions g)
             | None => Ok func
             end = Ok r
             /\ PyDict.get match GLFunction.alias_func func with
                           | Some rk => rk
                           | None => k
                           end (Generator.functions g) = Some r).
  { destruct (GLFunction.alias_func func) as [rk|] eqn:E; [|eauto].
    destruct (Hrefs _ _ Hf) as [Ha _]. specialize (Ha _ E).
    unfold PyDict.lookup.
    destruct (PyDict.get rk (Generator.functions g)) as [r|] eqn:Er; [eauto|].
    apply get_None_not_In in Er. contradiction. }
  destruct Hr as [r [H1 H2]].
  destruct (@providers_of_Ok g (GLFunction.alias_exts r)) as [exts Hexts].
  { intros e He. exact (proj2 (@refs_in_keys_ok g Hrefs _ _ H2) e He). }
  eauto.
Qed.

Lemma generate_stages
      (fuel : nat) (target : string) (reg : Registry.t) (g : Generator.t) :
  generate fuel target reg = Ok g ->
  aliases_resolved (Generator.functions g)
  /\ bindings_ok (Generator.functions g)
  /\ forall k, In k (Generator.sorted_functions g)
               <-> In k (PyDict.keys (Generator.functions g)).
Proof.
  intros H. split; [eapply generate_resolved; eauto|].
  unfold generate in H. apply bind_Ok in H. destruct H as [g1 [H1 H]].
  destruct (prepare_provider_enum_keeps _ H) as [-> ->].
  split; [eapply load_model_bindings; eauto|].
  eapply load_model_filters; eauto.
Qed.

(** In a model the main loop builds, the candidates of a function are
    gathered without error whenever its near-alias partner, if it has one,
    is declared; the candidates are exactly the provider bindings of the
    functions of its alias group: the root, the dependent aliases of the
    root and the near-alias partner. *)
Theorem generated_candidates
        (fuel : nat) (target : string) (reg : Registry.t) (g : Generator.t)
        (k : string) (func : GLFunction.t) :
  generate fuel target reg = Ok g ->
  PyDict.get k (Generator.functions g) = Some func ->
  (forall other, PyDict.get k Generator.half_aliases = Some other ->
                 PyDict.mem other (Generator.functions g) = true) ->
  exists ps,
    Generator.gather_providers g func = Ok ps
    /\ forall p,
        In p ps <->
        exists m fm,
          alias_group g k func m
          /\ PyDict.get m (Generator.functions g) = Some fm
          /\ In p (PyDict.values (GLFunction.providers fm)).
Proof.
  intros Hgen Hf Hhalf.
  destruct (generate_stages _ _ _ Hgen) as [Hres _].
  pose proof Hres as [_ [Hnames _]].
  destruct (@resolved_root g k func Hres Hf) as [r [exts [H1 [H2 H3]]]].
  rewrite (@gather_providers_eq g func r exts H1 H3), (Hnames _ _ Hf).
  pose proof (@providers_of_spec g _ _ H3) as Hexts.
  unfold alias_group.
  destruct (PyDict.get k Generator.half_aliases) as [other|] eqn:Eh.
  - destruct (proj1 (mem_true _ _) (Hhalf other eq_refl)) as [o Ho].
    rewrite Ho. eexists. split; [reflexivity|].
    intros p. rewrite sort_In, !in_app_iff, Hexts. split.
    + intros [[Hp|[e [fe [He [Hfe Hp]]]]]|Hp].
      * eexists _, r. split; [left; reflexivity|]. auto.
      * exists e, fe. split; [right; left; eauto|]. auto.
      * exists other, o. split; [right; right; reflexivity|]. auto.
    + intros [m [fm [[->|[[r' [Hr' Hin]]|[= <-]]] [Hfm Hp]]]].
      * left. left. congruence.
      * left. right. assert (r' = r) by congruence. subst r'. eauto.
      * right. congruence.
  - eexists. split; [reflexivity|].
    intros p. rewrite sort_In, !in_app_iff, Hexts. split.
    + intros [Hp|[e [fe [He [Hfe Hp]]]]].
      * eexists _, r. split; [left; reflexivity|]. auto.
      * exists e, fe. split; [right; left; eauto|]. auto.
    + intros [m [fm [[->|[[r' [Hr' Hin]]|Hd]] [Hfm Hp]]]].
      * left. congruence.
      * right. assert (r' = r) by congruence. subst r'. eauto.
      * discriminate.
Qed.

Lemma generated_candidates_witness :
  exists ps,
    Generator.gather_providers Examples.three_candidates_model Examples.glFoo
    = Ok ps
    /\ (In Examples.candidate_ext ps <->
        exists m fm,
          alias_group Examples.three_candidates_model "glFoo" Examples.glFoo m
          /\ PyDict.get m (Generator.functions Examples.three_candidates_model)
             = Some fm
          /\ In Examples.candidate_ext
                (PyDict.values (GLFunction.providers fm))).
Proof.
  destruct (@generated_candidates
              8 "gl" Examples.aliases_with_extensions
              Examples.three_candidates_model "glFoo" Examples.glFoo
              ltac:(vm_compute; reflexivity)
              ltac:(vm_compute; reflexivity)
              ltac:(intros other H; vm_compute in H; discriminate))
    as [ps [H1 H2]].
  exists ps. split; [exact H1|apply H2].
Defined.

(** *** A near-alias partner that is not declared *)






(** *** A root with a binding of its own *)

(** In a model the main loop builds, a resolver is written for every
    function that is the root of its alias group and has a provider binding
    of its own, provided its near-alias partner, if it has one, is declared:
    when it has a single candidate, that candidate loads the function
    itself and the assertion of the single-candidate branch holds. *)
Theorem bound_root_has_resolver
        (fuel : nat) (target : string) (reg : Registry.t) (g : Generator.t)
        (k : string) (func : GLFunction.t) :
  generate fuel target reg = Ok g ->
  PyDict.get k (Generator.functions g) = Some func ->
  GLFunction.alias_func func = None ->
  GLFunction.providers func <> [] ->
  (forall other, PyDict.get k Generator.half_aliases = Some other ->
                 PyDict.mem other (Generator.functions g) = true) ->
  exists code, Emitted.write_function_ptr_resolver g func = Ok code.
Proof.
  intros Hgen Hf Hnone Hbound Hhalf.
  destruct (generate_stages _ _ _ Hgen) as [Hres [Hb _]].
  pose proof Hres as [_ [Hnames _]].
  destruct (@resolved_root g k func Hres Hf) as [r [exts [H1 [_ H3]]]].
  pose proof (@gather_providers_eq g func r exts H1 H3) as Hg.
  rewrite Hnone in H1. injection H1 as <-.
  assert (Hlist : exists rest,
             Generator.gather_providers g func
             = Ok (Sort.sort Generator.key_leb (Generator.provider_sort func)
                             (PyDict.values (GLFunction.providers func)
                                ++ rest)%list)).
  { rewrite Hg, (Hnames _ _ Hf).
    destruct (PyDict.get k Generator.half_aliases) as [other|] eqn:Eh.
    - destruct (proj1 (mem_true _ _) (Hhalf other eq_refl)) as [o ->].
      rewrite <- app_assoc. eauto.
    - eauto. }
  destruct Hlist as [rest Hps]. clear Hg H3.
  rewrite (write_function_ptr_resolver_cases _ _ Hps).
  destruct (Sort.sort _ _ _) as [|p [|q ps]] eqn:Es; [eauto| |eauto].
  assert (Hlen : List.length (PyDict.values (GLFunction.providers func)
                                ++ rest)%list = 1)
    by (rewrite <- (sort_length Generator.key_leb
                                (Generator.provider_sort func)), Es;
        reflexivity).
  assert (Hin : In p (PyDict.values (GLFunction.providers func)
                        ++ rest)%list)
    by (apply (sort_In Generator.key_leb (Generator.provider_sort func));
        rewrite Es; now left).
  destruct (GLFunction.providers func) as [|[l v] vs] eqn:Ep;
    [contradiction|].
  simpl in Hlen, Hin.
  destruct (PyDict.values vs ++ rest)%list; [|discriminate].
  destruct Hin as [<-|[]].
  destruct (Hb _ _ Hf) as [Hwfp Hall].
  assert (Hv : PyDict.get l (GLFunction.providers func) = Some v).
  { apply In_get; [exact Hwfp|]. rewrite Ep. now left. }
  destruct (Hall _ _ Hv) as [_ [-> _]].
  rewrite String.eqb_refl. eauto.
Qed.

Lemma bound_root_has_resolver_witness :
  exists code,
    Emitted.write_function_ptr_resolver Examples.three_candidates_model
                                        Examples.glFoo
    = Ok code.
Proof.
  exact (@bound_root_has_resolver
           8 "gl" Examples.aliases_with_extensions
           Examples.three_candidates_model "glFoo" Examples.glFoo
           ltac:(vm_compute; reflexivity)
           ltac:(vm_compute; reflexivity)
           ltac:(vm_compute; reflexivity)
           ltac:(vm_compute; discriminate)
           ltac:(intros other H; vm_compute in H; discriminate)).
Defined.

(** *** An alias and its root *)

(** In a model the main loop builds, a function that has an alias target
    gets the candidates of that target: when neither is one of the six near
    aliases, both candidate lists are gathered and each is a rearrangement
    of the other. *)
Theorem alias_shares_candidates_with_root
        (fuel : nat) (target : string) (reg : Registry.t) (g : Generator.t)
        (k rk : string) (func : GLFunction.t) :
  generate fuel target reg = Ok g ->
  PyDict.get k (Generator.functions g) = Some func ->
  GLFunction.alias_func func = Some rk ->
  PyDict.get k Generator.half_aliases = None ->
  PyDict.get rk Generator.half_aliases = None ->
  exists r ps pr,
    PyDict.get rk (Generator.functions g) = Some r
    /\ Generator.gather_providers g func = Ok ps
    /\ Generator.gather_providers g r = Ok pr
    /\ Permutation ps pr.
Proof.
  intros Hgen Hf Ha Hk Hrk.
  destruct (generate_stages _ _ _ Hgen) as [Hres _].
  pose proof Hres as [_ [Hnames [_ [Hatt Hshape]]]].
  destruct (@resolved_root g k func Hres Hf) as [r [exts [H1 [H2 H3]]]].
  rewrite Ha in H2.
  assert (Hself : self_named r).
  { destruct (Hatt _ _ Hf) as [Hs|[[]|[r' [Hr' [Hs' [_ Haf]]]]]].
    - rewrite (proj1 (Hshape _ _ Hf) Hs) in Ha. discriminate.
    - assert (rk = GLFunction.alias_name func) by congruence. subst rk.
      congruence. }
  assert (Hr1 : match GLFunction.alias_func r with
                | Some rk' => PyDict.lookup rk' (Generator.functions g)
                | None => Ok r
                end = Ok r)
    by now rewrite (proj1 (Hshape _ _ H2) Hself).
  exists r. eexists. eexists. split; [exact H2|].
  rewrite (@gather_providers_eq g func r exts H1 H3), (Hnames _ _ Hf), Hk.
  rewrite (@gather_providers_eq g r r exts Hr1 H3), (Hnames _ _ H2), Hrk.
  split; [reflexivity|]. split; [reflexivity|].
  eapply Permutation_trans; [apply sort_perm|].
  apply Permutation_sym, sort_perm.
Qed.

Lemma alias_shares_candidates_with_root_witness :
  exists r ps pr,
    PyDict.get "glFoo" (Generator.functions Examples.three_candidates_model)
    = Some r
    /\ Generator.gather_providers
         Examples.three_candidates_model
         (GLFunction.set_alias_func
            (Some "glFoo")
            (GLFunction.set_alias_name
               "glFoo"
               (GLFunction.add_provider
                  "epoxy_conservative_has_gl_extension(provider_name)"
                  "epoxy_get_proc_address({0})" "GL_ZZ_foo"
                  (GLFunction.init "void" "glFooARB"))))
       = Ok ps
    /\ Generator.gather_providers Examples.three_candidates_model r = Ok pr
    /\ Permutation ps pr.
Proof.
  exact (@alias_shares_candidates_with_root
           8 "gl" Examples.aliases_with_extensions
           Examples.three_candidates_model "glFooARB" "glFoo" _
           ltac:(vm_compute; reflexivity)
           ltac:(vm_compute; reflexivity)
           ltac:(vm_compute; reflexivity)
           ltac:(vm_compute; reflexivity)
           ltac:(vm_compute; reflexivity)).
Defined.

(** ** The order of the emitted functions *)

Lemma string_leb_total (a b : string) :
  Str.leb a b = true \/ Str.leb b a = true.
Proof.
  unfold Str.leb. destruct (String.leb a b) eqn:E; [now left|right].
  apply string_leb_false_lt in E. unfold String.leb. now rewrite E.
Qed.

Lemma keys_sorted_by_name (l : list (string * GLFunction.t)) :
  (forall k f, In (k, f) l -> GLFunction.name f = k) ->
  StronglySorted (Sort.key_le Str.leb (fun kv => GLFunction.name (snd kv))) l ->
  StronglySorted (fun a b => String.leb a b = true) (map fst l).
Proof.
  induction l as [|[k f] l IH]; intros Hn Hs; [constructor|].
  inversion Hs as [|? ? Hs' Hall]; subst. simpl.
  constructor.
  - apply IH; [|exact Hs']. intros k' f' Hin. apply Hn. now right.
  - apply Forall_forall. intros k' Hin.
    apply in_map_iff in Hin. destruct Hin as [[k'' f'] [E Hin]].
    simpl in E. subst k''.
    rewrite Forall_forall in Hall. specialize (Hall _ Hin).
    unfold Sort.key_le, Str.leb in Hall. simpl in Hall.
    now rewrite (Hn k f (or_introl eq_refl)), (Hn k' f' (or_intror Hin))
      in Hall.
Qed.

(** In a model the main loop builds, [sorted_functions] lists every
    function of the model exactly once, in the order of the names: it is a
    rearrangement of the keys of the function table without repetition, and
    each name in it is at most every name after it. *)
Theorem generated_sorted_functions
        (fuel : nat) (target : string) (reg : Registry.t) (g : Generator.t) :
  generate fuel target reg = Ok g ->
  Permutation (Generator.sorted_functions g)
              (PyDict.keys (Generator.functions g))
  /\ NoDup (Generator.sorted_functions g)
  /\ StronglySorted (fun a b => String.leb a b = true)
                    (Generator.sorted_functions g).
Proof.
  unfold generate. intros H. apply bind_Ok in H. destruct H as [g1 [H1 H]].
  destruct (prepare_provider_enum_keeps _ H) as [-> ->].
  destruct (load_model_stages _ _ _ H1)
    as [g0 [g3 [g4 [_ [Hfresh [_ [_ [Hsorted [Hres ->]]]]]]]]].
  destruct (resolve_aliases_keeps _ _ Hres) as [A4 [B4 _]].
  destruct (fixup_bootstrap_function_keeps
              "glGetString" "epoxy_get_bootstrap_proc_address({0})" g4)
    as [A5 [B5 _]].
  set (g5 := Generator.fixup_bootstrap_function "glGetString" _ g4) in *.
  destruct (fixup_bootstrap_function_keeps
              "glGetIntegerv" "epoxy_get_bootstrap_proc_address({0})" g5)
    as [A6 [B6 _]].
  set (g6 := Generator.fixup_bootstrap_function "glGetIntegerv" _ g5) in *.
  destruct (fixup_bootstrap_function_keeps
              "glXGetProcAddress" "epoxy_glx_dlsym({0})" g6)
    as [A7 [B7 _]].
  rewrite A7, A6, A5, A4, B7, B6, B5, B4, Hsorted.
  assert (Hperm : Permutation
                    (map fst (Sort.sort Str.leb
                                        (fun kv => GLFunction.name (snd kv))
                                        (Generator.functions g3)))
                    (PyDict.keys (Generator.functions g3)))
    by (apply Permutation_map, sort_perm).
  split; [exact Hperm|]. split.
  - eapply Permutation_NoDup; [apply Permutation_sym, Hperm|].
    exact (proj1 Hfresh).
  - apply keys_sorted_by_name.
    + intros k f Hin. apply sort_In in Hin.
      now destruct (proj2 Hfresh k f Hin).
    + apply sort_sorted.
      * apply string_leb_total.
      * intros a b c. apply string_leb_trans.
Qed.

Lemma generated_sorted_functions_witness :
  Permutation (Generator.sorted_functions Examples.three_candidates_model)
              (PyDict.keys
                 (Generator.functions Examples.three_candidates_model)).
Proof.
  exact (proj1 (@generated_sorted_functions
                  8 "gl" Examples.aliases_with_extensions
                  Examples.three_candidates_model
                  ltac:(vm_compute; reflexivity))).
Defined.

(** ** The table of entry-point names *)

Lemma c_string_name (name : string) (rest : list ascii) :
  Str.has_char Tables.nul name = false ->
  Tables.c_string (list_ascii_of_string name ++ Tables.nul :: rest)%list
  = name.
Proof.
  induction name as [|c name IH]; intros H; [reflexivity|].
  cbn [list_ascii_of_string app Tables.c_string].
  cbn [Str.has_char] in H. apply orb_false_iff in H. destruct H as [H1 H2].
  rewrite (Ascii.eqb_sym c Tables.nul), H1. now rewrite IH.
Qed.

Lemma c_string_at_app (pre : list ascii) (name : string) (post : list ascii) :
  Str.has_char Tables.nul name = false ->
  Tables.c_string_at
    (pre ++ list_ascii_of_string name ++ Tables.nul :: post)%list
    (List.length pre)
  = name.
Proof.
  intros H. unfold Tables.c_string_at.
  rewrite skipn_app, skipn_all, Nat.sub_diag. simpl.
  now apply c_string_name.
Qed.


Lemma length_list_ascii_of_string (s : string) :
  List.length (list_ascii_of_string s) = String.length s.
Proof. induction s as [|c s IH]; simpl; [reflexivity|now rewrite IH]. Qed.

Lemma entrypoint_string_ok (name : string) (s : Tables.strings) :
  strings_ok s ->
  strings_ok (Tables.entrypoint_string name s)
  /\ PyDict.mem name (Tables.string_offset (Tables.entrypoint_string name s))
     = true
  /\ forall n, PyDict.mem n (Tables.string_offset s) = true ->
               PyDict.mem n (Tables.string_offset
                               (Tables.entrypoint_string name s)) = true.
Proof.
  intros [Hlen [Hwf Hall]]. unfold Tables.entrypoint_string.
  destruct (PyDict.mem name (Tables.string_offset s)) eqn:Hmem.
  - repeat split; auto.
  - split; [|split].
    + split; [|split]; cbn [Tables.elements Tables.offset Tables.string_offset].
      * rewrite !length_app, length_list_ascii_of_string, Hlen. simpl. lia.
      * now apply wf_set.
      * intros n off.
        destruct (String.eqb_spec n name) as [->|Hne].
        -- rewrite get_set_same. intros [= <-].
           exists (Tables.elements s), []. split; [reflexivity|exact Hlen].
        -- rewrite get_set_other by assumption. intros Hn.
           destruct (Hall _ _ Hn) as [pre [post [E Hpre]]].
           exists pre, (post ++ list_ascii_of_string name ++ [Tables.nul])%list.
           split; [|exact Hpre].
           rewrite E, <- !app_assoc. reflexivity.
    + cbn [Tables.string_offset]. rewrite mem_set, String.eqb_refl.
      reflexivity.
    + intros n Hn. cbn [Tables.string_offset]. rewrite mem_set, Hn.
      apply orb_true_r.
Qed.

Lemma entrypoint_strings_loop (g : Generator.t) (refs : list string) :
  forall s s',
    for_each
      (fun r s =>
         func <- PyDict.lookup r (Generator.functions g) ;;
         Ok (Tables.entrypoint_string (GLFunction.name func) s))
      refs s = Ok s' ->
    strings_ok s ->
    strings_ok s'
    /\ (forall n, PyDict.mem n (Tables.string_offset s) = true ->
                  PyDict.mem n (Tables.string_offset s') = true)
    /\ forall r func,
        In r refs ->
        PyDict.get r (Generator.functions g) = Some func ->
        PyDict.mem (GLFunction.name func) (Tables.string_offset s') = true.
Proof.
  induction refs as [|r refs IH]; intros s s' H Hok; simpl in H.
  - injection H as <-. split; [exact Hok|]. split; [auto|]. intros r func [].
  - apply bind_Ok in H. destruct H as [s1 [H1 H]].
    apply bind_Ok in H1. destruct H1 as [func [Hfunc H1]].
    apply lookup_Ok in Hfunc. injection H1 as <-.
    destruct (@entrypoint_string_ok (GLFunction.name func) s Hok)
      as [Hok1 [Hin1 Hmono1]].
    destruct (IH _ _ H Hok1) as [Hok' [Hmono' Hall']].
    split; [exact Hok'|]. split; [auto|].
    intros r' func' [<-|Hin] Hf'.
    + assert (func' = func) by congruence. subst func'. auto.
    + eauto.
Qed.

Lemma entrypoint_strings_total (g : Generator.t) (refs : list string) :
  (forall r, In r refs -> In r (PyDict.keys (Generator.functions g))) ->
  forall s,
  exists s',
    for_each
      (fun r s =>
         func <- PyDict.lookup r (Generator.functions g) ;;
         Ok (Tables.entrypoint_string (GLFunction.name func) s))
      refs s = Ok s'.
Proof.
  induction refs as [|r refs IH]; intros Hin s; simpl; [eauto|].
  unfold PyDict.lookup.
  destruct (PyDict.get r (Generator.functions g)) as [func|] eqn:E.
  - cbn [bind]. apply IH. intros r' Hr'. apply Hin. now right.
  - apply get_None_not_In in E. exfalso. apply E, Hin. now left.
Qed.

Lemma strings_ok_init : strings_ok (Tables.make_strings PyDict.empty 0 []).
Proof.
  split; [reflexivity|]. split; [apply wf_nil|]. intros n off. discriminate.
Qed.

(** The table of entry-point names can be read back: the C string found in
    the written array at an offset recorded for a name is that name, for
    every name without a NUL character; and an offset is recorded for the
    name of every function of [sorted_functions]. *)
Theorem entrypoint_strings_round_trip
        (g : Generator.t) (offsets : PyDict.t nat) (mem : list ascii) :
  Tables.write_entrypoint_strings g = Ok (offsets, mem) ->
  (forall name off,
      PyDict.get name offsets = Some off ->
      Str.has_char Tables.nul name = false ->
      Tables.c_string_at mem off = name)
  /\ (forall r func,
         In r (Generator.sorted_functions g) ->
         PyDict.get r (Generator.functions g) = Some func ->
         exists off, PyDict.get (GLFunction.name func) offsets = Some off).
Proof.
  unfold Tables.write_entrypoint_strings. intros H.
  apply bind_Ok in H. destruct H as [s [Hs H]]. injection H as <- <-.
  destruct (@entrypoint_strings_loop g _ _ _ Hs strings_ok_init)
    as [[_ [_ Hall]] [_ Hin]].
  split.
  - intros name off Hoff Hnul.
    destruct (Hall _ _ Hoff) as [pre [post [-> <-]]].
    rewrite <- !app_assoc. cbn [app].
    now apply c_string_at_app.
  - intros r func Hr Hf. apply mem_true. eauto.
Qed.

Lemma entrypoint_strings_round_trip_witness :
  Tables.c_string_at
    (list_ascii_of_string "glFoo"
     ++ Tables.nul :: list_ascii_of_string "glFooARB"
     ++ Tables.nul :: list_ascii_of_string "glFooEXT"
     ++ [Tables.nul; Tables.nul])%list
    0 = "glFoo"
  /\ Tables.c_string_at
       (list_ascii_of_string "glFoo"
        ++ Tables.nul :: list_ascii_of_string "glFooARB"
        ++ Tables.nul :: list_ascii_of_string "glFooEXT"
        ++ [Tables.nul; Tables.nul])%list
       6 = "glFooARB".
Proof.
  pose proof (@entrypoint_strings_round_trip
                Examples.three_candidates_model
                [("glFoo", 0); ("glFooARB", 6); ("glFooEXT", 15)]
                (list_ascii_of_string "glFoo"
                 ++ Tables.nul :: list_ascii_of_string "glFooARB"
                 ++ Tables.nul :: list_ascii_of_string "glFooEXT"
                 ++ [Tables.nul; Tables.nul])%list
                ltac:(vm_compute; reflexivity)) as [H _].
  split.
  - exact (H "glFoo" 0 eq_refl eq_refl).
  - exact (H "glFooARB" 6 eq_refl eq_refl).
Defined.

(** In a model the main loop builds, the table of entry-point names is
    written, and it has an offset for every name the resolvers refer to: the
    name of every function of the model, whether it has candidates or not,
    and the entry-point name of every candidate of every function. *)
Theorem generated_entrypoint_offsets
        (fuel : nat) (target : string) (reg : Registry.t) (g : Generator.t) :
  generate fuel target reg = Ok g ->
  exists offsets mem,
    Tables.write_entrypoint_strings g = Ok (offsets, mem)
    /\ (forall k func,
           PyDict.get k (Generator.functions g) = Some func ->
           PyDict.mem (GLFunction.name func) offsets = true)
    /\ (forall k func ps p,
           PyDict.get k (Generator.functions g) = Some func ->
           Generator.gather_providers g func = Ok ps ->
           In p ps ->
           PyDict.mem (GLProvider.name p) offsets = true).
Proof.
  intros Hgen.
  destruct (generate_stages _ _ _ Hgen) as [Hres [Hb Hsorted]].
  pose proof Hres as [Hwf [Hnames _]].
  destruct (@entrypoint_strings_total
              g (Generator.sorted_functions g)
              (fun r => proj1 (Hsorted r))
              (Tables.make_strings PyDict.empty 0 []))
    as [s Hs].
  exists (Tables.string_offset s), (Tables.elements s ++ [Tables.nul])%list.
  split; [unfold Tables.write_entrypoint_strings; now rewrite Hs|].
  destruct (@entrypoint_strings_loop g _ _ _ Hs strings_ok_init) as [_ [_ Hin]].
  assert (Hkey : forall k f, PyDict.get k (Generator.functions g) = Some f ->
                             PyDict.mem (GLFunction.name f)
                                        (Tables.string_offset s) = true).
  { intros k f Hf. apply (Hin k f); [|exact Hf].
    apply Hsorted. eapply get_In_keys; eauto. }
  split; [exact Hkey|].
  intros k func ps p Hf Hps Hp.
  pose proof (@gather_providers_In g k func ps p Hf Hps Hp) as Hall.
  destruct (all_providers_In _ _ Hall) as [k' [f' [Hf' Hp']]].
  apply In_get in Hf'; [|exact Hwf].
  apply values_In in Hp'. destruct Hp' as [l Hl].
  destruct (Hb _ _ Hf') as [Hwfp Hbind].
  apply In_get in Hl; [|exact Hwfp].
  destruct (Hbind _ _ Hl) as [_ [-> _]]. eauto.
Qed.

Lemma generated_entrypoint_offsets_witness :
  exists offsets mem,
    Tables.write_entrypoint_strings Examples.three_candidates_model
    = Ok (offsets, mem).
Proof.
  destruct (@generated_entrypoint_offsets
              8 "gl" Examples.aliases_with_extensions
              Examples.three_candidates_model
              ltac:(vm_compute; reflexivity))
    as [offsets [mem [H _]]].
  exists offsets, mem. exact H.
Defined.

(** ** The bootstrap functions *)

Lemma fixup_get (name loader : string) (g : Generator.t) (k : string) :
  PyDict.get k (Generator.functions
                  (Generator.fixup_bootstrap_function name loader g))
  = if String.eqb k name
    then option_map
           (fun func =>
              GLFunction.add_provider
                "true" loader "always present"
                (GLFunction.set_providers PyDict.empty func))
           (PyDict.get name (Generator.functions g))
    else PyDict.get k (Generator.functions g).
Proof.
  unfold Generator.fixup_bootstrap_function.
  destruct (PyDict.get name (Generator.functions g)) as [func|] eqn:Hf.
  - simpl. destruct (String.eqb_spec k name) as [->|Hne].
    + apply get_set_same.
    + now apply get_set_other.
  - destruct (String.eqb_spec k name) as [->|Hne]; [exact Hf|reflexivity].
Qed.

(** The three fixups of the main loop. *)
Lemma fixups_get (g : Generator.t) (k : string) :
  PyDict.get
    k
    (Generator.functions
       (Generator.fixup_bootstrap_function
          "glXGetProcAddress" "epoxy_glx_dlsym({0})"
          (Generator.fixup_bootstrap_function
             "glGetIntegerv" "epoxy_get_bootstrap_proc_address({0})"
             (Generator.fixup_bootstrap_function
                "glGetString" "epoxy_get_bootstrap_proc_address({0})" g))))
  = match
      (if String.eqb k "glXGetProcAddress"
       then Some "epoxy_glx_dlsym({0})"
       else if String.eqb k "glGetIntegerv" || String.eqb k "glGetString"
            then Some "epoxy_get_bootstrap_proc_address({0})"
            else None)
    with
    | Some loader =>
        option_map
          (fun func =>
             GLFunction.add_provider
               "true" loader "always present"
               (GLFunction.set_providers PyDict.empty func))
          (PyDict.get k (Generator.functions g))
    | None => PyDict.get k (Generator.functions g)
    end.
Proof.
  rewrite fixup_get.
  destruct (String.eqb_spec k "glXGetProcAddress") as [->|H1].
  - rewrite !fixup_get. reflexivity.
  - rewrite fixup_get.
    destruct (String.eqb_spec k "glGetIntegerv") as [->|H2].
    + rewrite fixup_get. reflexivity.
    + rewrite fixup_get.
      destruct (String.eqb_spec k "glGetString") as [->|H3]; reflexivity.
Qed.

(** The bootstrap functions of a model the main loop builds have exactly one
    provider binding, labelled always present, with the condition true and
    the loader of the fixup; every other function keeps the bindings it had
    after alias resolution. *)
Theorem bootstrap_functions_always_present
        (fuel : nat) (target : string) (reg : Registry.t) (g : Generator.t)
        (k : string) (func : GLFunction.t) :
  load_model fuel target reg = Ok g ->
  PyDict.get k (Generator.functions g) = Some func ->
  In k ["glGetString"; "glGetIntegerv"; "glXGetProcAddress"] ->
  GLFunction.providers func
  = [("always present",
      GLProvider.init
        "true" "always present"
        (if String.eqb k "glXGetProcAddress"
         then "epoxy_glx_dlsym({0})"
         else "epoxy_get_bootstrap_proc_address({0})")
        k)].
Proof.
  intros H Hf Hk.
  destruct (load_model_stages _ _ _ H)
    as [g0 [g3 [g4 [_ [Hfresh [_ [_ [_ [Hres ->]]]]]]]]].
  destruct (resolve_aliases_resolved _ Hfresh Hres) as [_ [Hnames _]].
  rewrite fixups_get in Hf.
  destruct Hk as [<-|[<-|[<-|[]]]]; simpl in Hf;
    destruct (PyDict.get _ (Generator.functions g4)) as [f|] eqn:E;
    try discriminate; injection Hf as <-; simpl;
    now rewrite (Hnames _ _ E).
Qed.

Lemma bootstrap_functions_always_present_witness :
  GLFunction.providers
    (GLFunction.add_provider
       "true" "epoxy_get_bootstrap_proc_address({0})" "always present"
       (GLFunction.init "const GLubyte *" "glGetString"))
  = [("always present",
      GLProvider.init "true" "always present"
                      "epoxy_get_bootstrap_proc_address({0})" "glGetString")].
Proof.
  exact (@bootstrap_functions_always_present
           1 "gl" Examples.get_string_with_version
           Examples.get_string_model "glGetString" _
           ltac:(vm_compute; reflexivity)
           ltac:(vm_compute; reflexivity)
           ltac:(simpl; auto)).
Defined.

(** A registry that declares glXGetProcAddress together with glGetString or
    glGetIntegerv cannot be generated: the fixups give both the label always
    present with different loaders, and interning stops with
    AssertionError. *)
Theorem bootstrap_loaders_conflict
        (fuel : nat) (target : string) (reg : Registry.t) (g : Generator.t)
        (k : string) :
  load_model fuel target reg = Ok g ->
  In k ["glGetString"; "glGetIntegerv"] ->
  PyDict.mem k (Generator.functions g) = true ->
  PyDict.mem "glXGetProcAddress" (Generator.functions g) = true ->
  Generator.prepare_provider_enum g = Raise AssertionError
  /\ generate fuel target reg = Raise AssertionError.
Proof.
  intros H Hk Hm1 Hm2.
  apply mem_true in Hm1. destruct Hm1 as [f1 Hf1].
  apply mem_true in Hm2. destruct Hm2 as [f2 Hf2].
  assert (Hp1 : GLFunction.providers f1
                = [("always present",
                    GLProvider.init
                      "true" "always present"
                      "epoxy_get_bootstrap_proc_address({0})" k)]).
  { destruct (load_model_stages _ _ _ H)
      as [g0 [g3 [g4 [_ [Hfresh [_ [_ [_ [Hres ->]]]]]]]]].
    destruct (resolve_aliases_resolved _ Hfresh Hres) as [_ [Hnames _]].
    rewrite fixups_get in Hf1.
    destruct Hk as [<-|[<-|[]]]; simpl in Hf1;
      destruct (PyDict.get _ (Generator.functions g4)) as [f|] eqn:E;
      try discriminate; injection Hf1 as <-; simpl;
      now rewrite (Hnames _ _ E). }
  assert (Hp2 : GLFunction.providers f2
                = [("always present",
                    GLProvider.init
                      "true" "always present"
                      "epoxy_glx_dlsym({0})" "glXGetProcAddress")]).
  { destruct (load_model_stages _ _ _ H)
      as [g0 [g3 [g4 [_ [Hfresh [_ [_ [_ [Hres ->]]]]]]]]].
    destruct (resolve_aliases_resolved _ Hfresh Hres) as [_ [Hnames _]].
    rewrite fixups_get in Hf2. simpl in Hf2.
    destruct (PyDict.get _ (Generator.functions g4)) as [f|] eqn:E;
      try discriminate; injection Hf2 as <-; simpl.
    now rewrite (Hnames _ _ E). }
  assert (Hprep : Generator.prepare_provider_enum g = Raise AssertionError).
  { pose proof (prepare_provider_enum_spec g) as Hspec.
    destruct (Generator.prepare_provider_enum g) as [g'|e|];
      [|now subst e|destruct Hspec].
    destruct Hspec as [_ [_ Hint]].
    assert (H1 : interned g' (GLProvider.init
                                "true" "always present"
                                "epoxy_get_bootstrap_proc_address({0})" k)).
    { apply Hint. eapply In_all_providers; [exact Hf1|].
      rewrite Hp1. now left. }
    assert (H2 : interned g' (GLProvider.init
                                "true" "always present"
                                "epoxy_glx_dlsym({0})" "glXGetProcAddress")).
    { apply Hint. eapply In_all_providers; [exact Hf2|].
      rewrite Hp2. now left. }
    destruct (interned_agree H1 H2 eq_refl) as [_ Hl]. discriminate Hl. }
  split; [exact Hprep|].
  unfold generate. rewrite H. exact Hprep.
Qed.

Lemma bootstrap_loaders_conflict_witness :
  generate 1 "gl" Examples.get_string_and_glx = Raise AssertionError.
Proof.
  exact (proj2 (@bootstrap_loaders_conflict
                  1 "gl" Examples.get_string_and_glx _ "glGetString"
                  ltac:(vm_compute; reflexivity)
                  ltac:(simpl; auto)
                  ltac:(vm_compute; reflexivity)
                  ltac:(vm_compute; reflexivity))).
Defined.

(** ** Required commands *)

Lemma for_each_app (A S : Type) (body : A -> S -> result S)
      (xs ys : list A) :
  forall s,
    for_each body (xs ++ ys) s
    = (s1 <- for_each body xs s ;; for_each body ys s1).
Proof.
  induction xs as [|x xs IH]; intros s; simpl; [reflexivity|].
  destruct (body x s) as [s1|e|]; simpl; [apply IH|reflexivity|reflexivity].
Qed.

Lemma process_require_statement_undeclared
      (condition loader human_name name : string) (g : Generator.t) :
  PyDict.get name (Generator.functions g) = None ->
  Generator.process_require_statement condition loader human_name name g
  = Raise (KeyError name).
Proof.
  intros H. unfold Generator.process_require_statement, PyDict.del,
              PyDict.lookup.
  rewrite (proj2 (mem_false _ _) H), H.
  destruct (_ && _); reflexivity.
Qed.

Lemma process_require_statement_step
      (condition loader human_name name : string) (g g' : Generator.t) :
  Generator.process_require_statement condition loader human_name name g
  = Ok g' ->
  Generator.target g' = Generator.target g
  /\ exists func,
      PyDict.get name (Generator.functions g) = Some func
      /\ Generator.functions g'
         = if not_wrapped g name
           then PyDict.remove name (Generator.functions g)
           else PyDict.set name
                           (GLFunction.add_provider condition loader
                                                    human_name func)
                           (Generator.functions g).
Proof.
  intros H.
  destruct (PyDict.get name (Generator.functions g)) as [func|] eqn:Hf.
  - unfold Generator.process_require_statement, PyDict.del, PyDict.lookup in H.
    rewrite (mem_of_get _ _ Hf), Hf in H. fold (not_wrapped g name) in H.
    destruct (not_wrapped g name); simpl in H; injection H as <-; eauto.
  - rewrite process_require_statement_undeclared in H by assumption.
    discriminate.
Qed.

Lemma process_require_statement_keys
      (condition loader human_name name : string) (g g' : Generator.t)
      (k : string) :
  Generator.process_require_statement condition loader human_name name g
  = Ok g' ->
  PyDict.get k (Generator.functions g) = None ->
  PyDict.get k (Generator.functions g') = None.
Proof.
  intros H Hk.
  destruct (process_require_statement_step _ _ _ _ _ H)
    as [_ [func [Hf ->]]].
  destruct (not_wrapped g name).
  - apply get_None_not_In. intros Hin. apply get_None_not_In in Hk.
    apply Hk. unfold PyDict.keys in *. apply in_map_iff in Hin.
    destruct Hin as [[k' v] [E Hin]]. apply In_remove in Hin.
    apply in_map_iff. eauto.
  - rewrite get_set_other; [exact Hk|]. intros ->. congruence.
Qed.

Lemma process_require_statements_keys
      (require : list string) (condition loader human_name : string)
      (k : string) :
  forall g g',
    Generator.process_require_statements require condition loader human_name g
    = Ok g' ->
    PyDict.get k (Generator.functions g) = None ->
    PyDict.get k (Generator.functions g') = None.
Proof.
  unfold Generator.process_require_statements.
  induction require as [|n require IH]; intros g g' H Hk; simpl in H.
  - now injection H as <-.
  - apply bind_Ok in H. destruct H as [g1 [H1 H]].
    eapply IH; eauto. eapply process_require_statement_keys; eauto.
Qed.

(** A require block that names a command which is not declared stops the
    generator with KeyError for that command, as soon as the commands
    before it are done; so when [process_require_statements] returns a
    model, every command of the block was declared.  For the target wgl the
    commands without wgl in their name are deleted, and a second
    requirement of such a command fails in the same way. *)
Theorem require_statements_need_declared_commands
        (condition loader human_name : string) (g : Generator.t) :
  (forall pre name post g1,
      Generator.process_require_statements pre condition loader human_name g
      = Ok g1 ->
      PyDict.get name (Generator.functions g) = None ->
      Generator.process_require_statements
        (pre ++ name :: post) condition loader human_name g
      = Raise (KeyError name))
  /\ (forall require g',
         Generator.process_require_statements
           require condition loader human_name g = Ok g' ->
         forall name, In name require ->
                      PyDict.mem name (Generator.functions g) = true)
  /\ (forall name g1 post,
         PyDict.wf (Generator.functions g) ->
         not_wrapped g name = true ->
         Generator.process_require_statement
           condition loader human_name name g = Ok g1 ->
         Generator.process_require_statements
           (name :: name :: post) condition loader human_name g
         = Raise (KeyError name)).
Proof.
  split; [|split].
  - intros pre name post g1 Hpre Hnone.
    unfold Generator.process_require_statements in *.
    rewrite for_each_app, Hpre. cbn [bind for_each].
    rewrite process_require_statement_undeclared; [reflexivity|].
    eapply process_require_statements_keys; eauto.
  - intros require. revert g.
    unfold Generator.process_require_statements.
    induction require as [|n require IH]; intros g g' H name Hin;
      [destruct Hin|].
    simpl in H. apply bind_Ok in H. destruct H as [g1 [H1 H]].
    destruct (PyDict.get name (Generator.functions g)) as [f|] eqn:E;
      [eapply mem_of_get; eauto|].
    exfalso. destruct Hin as [->|Hin].
    + rewrite process_require_statement_undeclared in H1 by assumption.
      discriminate.
    + pose proof (IH _ _ H _ Hin) as Hm. apply mem_true in Hm.
      destruct Hm as [f Hf].
      rewrite (@process_require_statement_keys _ _ _ _ _ _ name H1 E) in Hf.
      discriminate.
  - intros name g1 post Hwf Hnw H1.
    unfold Generator.process_require_statements. cbn [for_each].
    rewrite H1. cbn [bind].
    rewrite process_require_statement_undeclared; [reflexivity|].
    destruct (process_require_statement_step _ _ _ _ _ H1)
      as [_ [func [_ ->]]].
    rewrite Hnw. now apply get_remove_same.
Qed.

Lemma require_statements_need_declared_commands_witness :
  Generator.process_require_statements
    ["glFoo"; "glBar"; "glFooARB"] "c" "l" "h"
    (Generator.parse_function_definitions Examples.alias_chain
                                          (Generator.init "gl"))
  = Raise (KeyError "glBar").
Proof.
  exact (proj1 (@require_statements_need_declared_commands
                  "c" "l" "h"
                  (Generator.parse_function_definitions
                     Examples.alias_chain (Generator.init "gl")))
               ["glFoo"] "glBar" ["glFooARB"] _
               ltac:(vm_compute; reflexivity)
               ltac:(vm_compute; reflexivity)).
Defined.

Lemma not_wrapped_target (g g' : Generator.t) (name : string) :
  Generator.target g' = Generator.target g ->
  not_wrapped g' name = not_wrapped g name.
Proof. unfold not_wrapped. now intros ->. Qed.

Lemma require_keeps_binding
      (condition loader human_name n : string) (rest : list string) :
  forall g1 g' f1,
    for_each (Generator.process_require_statement condition loader human_name)
             rest g1 = Ok g' ->
    not_wrapped g1 n = false ->
    PyDict.get n (Generator.functions g1) = Some f1 ->
    PyDict.get human_name (GLFunction.providers f1)
    = Some (GLProvider.init condition human_name loader (GLFunction.name f1)) ->
    exists f',
      PyDict.get n (Generator.functions g') = Some f'
      /\ GLFunction.name f' = GLFunction.name f1
      /\ PyDict.get human_name (GLFunction.providers f')
         = Some (GLProvider.init condition human_name loader
                                 (GLFunction.name f1)).
Proof.
  induction rest as [|k rest IH]; intros g1 g' f1 H Hnw Hf1 Hp; simpl in H.
  - injection H as <-. eauto.
  - apply bind_Ok in H. destruct H as [g2 [H2 H]].
    destruct (process_require_statement_step _ _ _ _ _ H2)
      as [Ht [func [Hfunc Hfs]]].
    pose proof (@not_wrapped_target g1 g2 n Ht) as Hnw2. rewrite Hnw in Hnw2.
    destruct (String.eqb_spec k n) as [->|Hne].
    + rewrite Hnw in Hfs. assert (func = f1) by congruence. subst func.
      destruct (IH g2 g'
                   (GLFunction.add_provider condition loader human_name f1)
                   H Hnw2)
        as [f' [Hf' [Hn' Hp']]].
      * rewrite Hfs. apply get_set_same.
      * simpl. apply get_set_same.
      * exists f'. auto.
    + apply (IH g2 g' f1 H Hnw2); [|exact Hp].
      rewrite Hfs.
      destruct (not_wrapped g1 k).
      * rewrite get_remove_other; auto.
      * rewrite get_set_other; auto.
Qed.

Lemma require_untouched
      (condition loader human_name k : string) (require : list string) :
  forall g g',
    for_each (Generator.process_require_statement condition loader human_name)
             require g = Ok g' ->
    ~ In k require ->
    PyDict.get k (Generator.functions g') = PyDict.get k (Generator.functions g).
Proof.
  induction require as [|n require IH]; intros g g' H Hk; simpl in H.
  - now injection H as <-.
  - apply bind_Ok in H. destruct H as [g1 [H1 H]].
    rewrite (IH _ _ H) by (intros Hin; apply Hk; now right).
    destruct (process_require_statement_step _ _ _ _ _ H1)
      as [_ [func [_ ->]]].
    assert (Hne : k <> n) by (intros ->; apply Hk; now left).
    destruct (not_wrapped g n).
    + now apply get_remove_other.
    + now apply get_set_other.
Qed.

(** What a require block does when it succeeds: every command it names
    holds, under the label of the block, the binding with the condition and
    the loader of the block and its own name as entry point, still at the
    end of the block; for the target wgl a named command without wgl in its
    name is gone instead; and the functions the block does not name are
    unchanged. *)
Theorem require_statements_bind
        (require : list string) (condition loader human_name : string)
        (g g' : Generator.t) :
  Generator.process_require_statements require condition loader human_name g
  = Ok g' ->
  PyDict.wf (Generator.functions g) ->
  (forall name,
      In name require ->
      if not_wrapped g name
      then PyDict.get name (Generator.functions g') = None
      else exists f f',
          PyDict.get name (Generator.functions g) = Some f
          /\ PyDict.get name (Generator.functions g') = Some f'
          /\ GLFunction.name f' = GLFunction.name f
          /\ PyDict.get human_name (GLFunction.providers f')
             = Some (GLProvider.init condition human_name loader
                                     (GLFunction.name f)))
  /\ (forall k, ~ In k require ->
                PyDict.get k (Generator.functions g')
                = PyDict.get k (Generator.functions g)).
Proof.
  unfold Generator.process_require_statements. intros H Hwf.
  split; [|intros k Hk; eapply require_untouched; eauto].
  revert g g' H Hwf.
  induction require as [|n require IH]; intros g g' H Hwf name Hin;
    [destruct Hin|].
  simpl in H. apply bind_Ok in H. destruct H as [g1 [H1 H]].
  destruct (process_require_statement_step _ _ _ _ _ H1)
    as [Ht [func [Hfunc Hfs]]].
  assert (Hwf1 : PyDict.wf (Generator.functions g1)).
  { rewrite Hfs. destruct (not_wrapped g n);
      [now apply wf_remove|now apply wf_set]. }
  destruct (in_dec string_dec name require) as [Hlater|Hnot].
  - pose proof (IH _ _ H Hwf1 name Hlater) as Hname.
    rewrite (@not_wrapped_target g g1 name Ht) in Hname.
    destruct (not_wrapped g name) eqn:Hnw; [exact Hname|].
    destruct Hname as [f1 [f' [Hf1 [Hf' [Hn' Hp']]]]].
    assert (Hf : exists f, PyDict.get name (Generator.functions g) = Some f
                           /\ GLFunction.name f1 = GLFunction.name f).
    { rewrite Hfs in Hf1. destruct (String.eqb_spec name n) as [->|Hne].
      - rewrite Hnw, get_set_same in Hf1. injection Hf1 as <-. eauto.
      - destruct (not_wrapped g n).
        + rewrite get_remove_other in Hf1 by assumption. eauto.
        + rewrite get_set_other in Hf1 by assumption. eauto. }
    destruct Hf as [f [Hf En]]. exists f, f'. rewrite <- En.
    repeat split; auto; congruence.
  - destruct Hin as [->|Hin]; [|contradiction].
    destruct (not_wrapped g name) eqn:Hnw.
    + rewrite (@require_untouched _ _ _ name require g1 g' H Hnot), Hfs.
      now apply get_remove_same.
    + destruct (@require_keeps_binding
                  condition loader human_name name require g1 g'
                  (GLFunction.add_provider condition loader human_name func)
                  H)
        as [f' [Hf' [Hn' Hp']]].
      * now rewrite (@not_wrapped_target g g1 name Ht).
      * rewrite Hfs. apply get_set_same.
      * simpl. apply get_set_same.
      * exists func, f'. auto.
Qed.

Lemma require_statements_bind_witness :
  PyDict.get "SwapBuffers" (Generator.functions Examples.wgl_required) = None.
Proof.
  exact (proj1 (@require_statements_bind
                  ["wglCreateContext"; "SwapBuffers"; "GetwglThing"]
                  "true" "epoxy_gl_dlsym({0})" "WGL 10"
                  (Generator.parse_function_definitions
                     Examples.wgl_names (Generator.init "wgl"))
                  Examples.wgl_required
                  ltac:(vm_compute; reflexivity)
                  ltac:(repeat constructor; simpl; intuition discriminate))
               "SwapBuffers" ltac:(simpl; auto)).
Defined.

(** ** What the loader leaves alone *)

Lemma for_each_invariant_in (A S : Type) (body : A -> S -> result S)
      (I : S -> Prop) (xs : list A) :
  (forall x s s', In x xs -> body x s = Ok s' -> I s -> I s') ->
  forall s s', for_each body xs s = Ok s' -> I s -> I s'.
Proof.
  induction xs as [|x xs IH]; intros Hstep s s' H Hs; simpl in H.
  - now injection H as <-.
  - apply bind_Ok in H. destruct H as [s1 [H1 H]].
    apply (IH (fun y t t' Hy => Hstep y t t' (or_intror Hy)) s1 s' H).
    apply (Hstep x s s1 (or_introl eq_refl) H1 Hs).
Qed.

Section LoaderFrame.
Variable I : Generator.t -> Prop.
Hypothesis I_versions :
  forall l g, I g -> I (Generator.set_supported_versions l g).
Hypothesis I_extensions :
  forall l g, I g -> I (Generator.set_supported_extensions l g).
Hypothesis I_step :
  forall condition loader human_name name g g',
    Generator.process_require_statement condition loader human_name name g
    = Ok g' ->
    I g -> I g'.

Lemma process_require_statements_frame
      (require : list string) (condition loader human_name : string)
      (g g' : Generator.t) :
  Generator.process_require_statements require condition loader human_name g
  = Ok g' ->
  I g -> I g'.
Proof.
  unfold Generator.process_require_statements.
  apply for_each_invariant. apply I_step.
Qed.

Lemma parse_feature_frame (f : Registry.feature) (g g' : Generator.t) :
  Generator.parse_feature f g = Ok g' -> I g -> I g'.
Proof.
  unfold Generator.parse_feature. intros H Hg.
  apply bind_Ok in H. destruct H as [version [_ H]].
  apply bind_Ok in H. destruct H as [p [_ H]].
  set (g1 := Generator.set_supported_versions _ g) in H.
  assert (H1 : I g1) by (apply I_versions; exact Hg).
  destruct p as [[[human_name condition] loader]|].
  - eapply process_require_statements_frame; eauto.
  - now injection H as <-.
Qed.

Lemma parse_extension_frame (e : Registry.extension) (g g' : Generator.t) :
  Generator.parse_extension e g = Ok g' -> I g -> I g'.
Proof.
  unfold Generator.parse_extension. intros H Hg.
  set (g0 := Generator.set_supported_extensions _ g) in H.
  assert (H0 : I g0) by (apply I_extensions; exact Hg).
  apply bind_Ok in H. destruct H as [g1 [E1 H]].
  assert (H1 : I g1).
  { destruct (Str.mem "glx" _);
      [eapply process_require_statements_frame; eauto|congruence]. }
  apply bind_Ok in H. destruct H as [g2 [E2 H]].
  assert (H2 : I g2).
  { destruct (Str.mem "egl" _);
      [eapply process_require_statements_frame; eauto|congruence]. }
  apply bind_Ok in H. destruct H as [g3 [E3 H]].
  assert (H3 : I g3).
  { destruct (Str.mem "wgl" _);
      [eapply process_require_statements_frame; eauto|congruence]. }
  destruct (_ || _);
    [eapply process_require_statements_frame; eauto|congruence].
Qed.

Lemma parse_function_providers_frame
      (reg : Registry.t) (g g' : Generator.t) :
  Generator.parse_function_providers reg g = Ok g' -> I g -> I g'.
Proof.
  unfold Generator.parse_function_providers. intros H Hg.
  apply bind_Ok in H. destruct H as [g1 [H1 H]].
  eapply (for_each_invariant _ I parse_extension_frame); eauto.
  eapply (for_each_invariant _ I parse_feature_frame); eauto.
Qed.

End LoaderFrame.

Lemma process_require_statement_tables
      (condition loader human_name name : string) (g g' : Generator.t) :
  Generator.process_require_statement condition loader human_name name g
  = Ok g' ->
  Generator.provider_enum g' = Generator.provider_enum g
  /\ Generator.provider_condition g' = Generator.provider_condition g
  /\ Generator.provider_loader g' = Generator.provider_loader g
  /\ Generator.supported_versions g' = Generator.supported_versions g
  /\ Generator.supported_extensions g' = Generator.supported_extensions g.
Proof.
  unfold Generator.process_require_statement. intros H.
  destruct (_ && _); apply bind_Ok in H; destruct H as [x [_ H]];
    injection H as <-; repeat split.
Qed.

Lemma parse_function_definitions_tables (reg : Registry.t) (g : Generator.t) :
  let g' := Generator.parse_function_definitions reg g in
  Generator.provider_enum g' = Generator.provider_enum g
  /\ Generator.provider_condition g' = Generator.provider_condition g
  /\ Generator.provider_loader g' = Generator.provider_loader g
  /\ Generator.supported_versions g' = Generator.supported_versions g
  /\ Generator.supported_extensions g' = Generator.supported_extensions g.
Proof.
  unfold Generator.parse_function_definitions.
  revert g. induction (Registry.commands reg) as [|c cs IH]; intros g; simpl;
    [repeat split|].
  destruct (IH (Generator.parse_function_definition c g))
    as [H1 [H2 [H3 [H4 H5]]]].
  rewrite H1, H2, H3, H4, H5. repeat split.
Qed.

Lemma fixup_tables (name loader : string) (g : Generator.t) :
  let g' := Generator.fixup_bootstrap_function name loader g in
  Generator.provider_enum g' = Generator.provider_enum g
  /\ Generator.provider_condition g' = Generator.provider_condition g
  /\ Generator.provider_loader g' = Generator.provider_loader g.
Proof.
  unfold Generator.fixup_bootstrap_function.
  destruct (PyDict.get name (Generator.functions g)); repeat split.
Qed.

(** The provider tables are empty until [prepare_provider_enum] runs. *)
Lemma load_model_tables
      (fuel : nat) (target : string) (reg : Registry.t) (g : Generator.t) :
  load_model fuel target reg = Ok g ->
  Generator.provider_enum g = []
  /\ Generator.provider_condition g = []
  /\ Generator.provider_loader g = [].
Proof.
  unfold load_model. intros H.
  apply bind_Ok in H. destruct H as [g0 [Hparse H]].
  apply bind_Ok in H. destruct H as [g4 [Hres H]]. injection H as <-.
  assert (H0 : Generator.provider_enum g0 = []
               /\ Generator.provider_condition g0 = []
               /\ Generator.provider_loader g0 = []).
  { unfold Generator.parse in Hparse.
    refine (@parse_function_providers_frame
              (fun s => Generator.provider_enum s = []
                        /\ Generator.provider_condition s = []
                        /\ Generator.provider_loader s = [])
              _ _ _ reg _ g0 Hparse _).
    - intros l s Hs. exact Hs.
    - intros l s Hs. exact Hs.
    - intros c l h n s s' Hstep [A [B C]].
      destruct (process_require_statement_tables _ _ _ _ _ Hstep)
        as [E1 [E2 [E3 _]]].
      rewrite E1, E2, E3. auto.
    - destruct (parse_function_definitions_tables reg (Generator.init target))
        as [E1 [E2 [E3 _]]].
      rewrite E1, E2, E3. auto. }
  unfold Generator.resolve_aliases in Hres.
  destruct (resolve_loop_payloads _ _ _ Hres) as [_ [_ [_ [E1 [E2 E3]]]]].
  destruct (PyDict.mem "wglUseFontBitmaps" _) in E1, E2, E3;
    simpl in E1, E2, E3;
    repeat match goal with
           | |- context [Generator.fixup_bootstrap_function ?n ?l ?s] =>
               let T := fresh in
               destruct (fixup_tables n l s) as [-> [-> ->]]
           end;
    rewrite E1, E2, E3; exact H0.
Qed.

(** ** The cases of the emitted provider resolver *)

Lemma mem_keys (V W : Type) (d : PyDict.t V) (d' : PyDict.t W) (k : string) :
  PyDict.keys d' = PyDict.keys d ->
  PyDict.mem k d' = PyDict.mem k d.
Proof.
  intros E.
  destruct (PyDict.mem k d) eqn:H.
  - apply mem_true in H. destruct H as [v H]. apply get_In_keys in H.
    rewrite <- E in H.
    destruct (PyDict.get k d') as [w|] eqn:Hw.
    + apply mem_true. eauto.
    + apply get_None_not_In in Hw. contradiction.
  - apply mem_false in H. apply get_None_not_In in H. rewrite <- E in H.
    apply mem_false. now apply get_None_not_In.
Qed.

Lemma intern_provider_aligned (p : GLProvider.t) (g g' : Generator.t) :
  Generator.intern_provider p g = Ok g' ->
  tables_aligned g ->
  tables_aligned g'
  /\ forall label,
      In label (PyDict.keys (Generator.provider_enum g')) ->
      In label (PyDict.keys (Generator.provider_enum g))
      \/ label = GLProvider.condition_name p.
Proof.
  unfold Generator.intern_provider. intros H [Hwf [Hc Hl]].
  destruct (PyDict.mem (GLProvider.condition_name p)
                       (Generator.provider_enum g)) eqn:Hmem.
  - apply bind_Ok in H. destruct H as [c [_ H]].
    apply bind_Ok in H. destruct H as [u1 [_ H]].
    apply bind_Ok in H. destruct H as [l [_ H]].
    apply bind_Ok in H. destruct H as [u2 [_ H]].
    injection H as <-. split; [now split|auto].
  - injection H as <-.
    assert (Hmc : PyDict.mem (GLProvider.condition_name p)
                             (Generator.provider_condition g) = false)
      by now rewrite (mem_keys _ _ _ Hc).
    assert (Hml : PyDict.mem (GLProvider.condition_name p)
                             (Generator.provider_loader g) = false)
      by now rewrite (mem_keys _ _ _ Hl).
    unfold tables_aligned. cbn [Generator.provider_enum
                                  Generator.provider_condition
                                  Generator.provider_loader
                                  Generator.set_provider_tables].
    split.
    + split; [now apply wf_set|].
      rewrite (keys_set_absent _ _ _ Hmem), (keys_set_absent _ _ _ Hmc),
        (keys_set_absent _ _ _ Hml).
      split; congruence.
    + intros label Hin. rewrite (keys_set_absent _ _ _ Hmem) in Hin.
      apply in_app_or in Hin.
      destruct Hin as [Hin|[<-|[]]]; auto.
Qed.

Lemma intern_loop_aligned (ps : list GLProvider.t) :
  forall g g',
    for_each Generator.intern_provider ps g = Ok g' ->
    tables_aligned g ->
    tables_aligned g'
    /\ forall label,
        In label (PyDict.keys (Generator.provider_enum g')) ->
        In label (PyDict.keys (Generator.provider_enum g))
        \/ exists p, In p ps /\ GLProvider.condition_name p = label.
Proof.
  induction ps as [|p ps IH]; intros g g' H Hal; simpl in H.
  - injection H as <-. auto.
  - apply bind_Ok in H. destruct H as [g1 [H1 H]].
    destruct (@intern_provider_aligned p g g1 H1 Hal) as [Hal1 Hl1].
    destruct (IH _ _ H Hal1) as [Hal' Hl'].
    split; [exact Hal'|].
    intros label Hin. destruct (Hl' _ Hin) as [Hin1|[q [Hq E]]].
    + destruct (Hl1 _ Hin1) as [Hin0| ->]; [now left|].
      right. exists p. split; [now left|reflexivity].
    + right. exists q. split; [now right|exact E].
Qed.

Lemma generate_tables
      (fuel : nat) (target : string) (reg : Registry.t) (g : Generator.t) :
  generate fuel target reg = Ok g ->
  tables_aligned g
  /\ (forall label,
         In label (PyDict.keys (Generator.provider_enum g)) ->
         exists p, In p (Generator.all_providers g)
                   /\ GLProvider.condition_name p = label)
  /\ forall p,
      In p (Generator.all_providers g) ->
      PyDict.get (GLProvider.condition_name p) (Generator.provider_enum g)
      = Some (GLProvider.enum p)
      /\ PyDict.get (GLProvider.condition_name p)
                    (Generator.provider_condition g)
         = Some (GLProvider.condition p)
      /\ PyDict.get (GLProvider.condition_name p) (Generator.provider_loader g)
         = Some (GLProvider.loader p).
Proof.
  unfold generate. intros H. apply bind_Ok in H. destruct H as [g1 [H1 H]].
  destruct (load_model_tables _ _ _ H1) as [_ [Ec El]].
  pose proof (load_model_bindings _ _ _ H1) as Hb.
  destruct (load_model_resolved _ _ _ H1) as [Hwf _].
  assert (Hc : forall q, In q (Generator.all_providers g1) -> constructed q).
  { intros q Hq. destruct (all_providers_In _ _ Hq) as [k' [f' [Hf' Hq']]].
    apply values_In in Hq'. destruct Hq' as [l' Hq'].
    apply In_get in Hf'; [|exact Hwf]. destruct (Hb _ _ Hf') as [Hwfp Hall].
    apply In_get in Hq'; [|exact Hwfp]. now apply (Hall _ _ Hq'). }
  destruct (prepare_provider_enum_tables _ H Hc) as [Efs Htab].
  assert (Eall : Generator.all_providers g = Generator.all_providers g1)
    by (unfold Generator.all_providers; now rewrite Efs).
  rewrite Eall.
  unfold Generator.prepare_provider_enum in H.
  destruct (@intern_loop_aligned _ _ g H) as [Hal Hlabels].
  { unfold tables_aligned. simpl. rewrite Ec, El.
    split; [apply wf_nil|split; reflexivity]. }
  split; [exact Hal|]. split; [|exact Htab].
  intros label Hin. destruct (Hlabels _ Hin) as [[]|Hp]. exact Hp.
Qed.

Lemma provider_cases_of_total (g : Generator.t) (labels : list string) :
  (forall h, In h labels ->
             exists p,
               PyDict.get h (Generator.provider_enum g)
               = Some (GLProvider.enum p)
               /\ PyDict.get h (Generator.provider_condition g)
                  = Some (GLProvider.condition p)
               /\ PyDict.get h (Generator.provider_loader g)
                  = Some (GLProvider.loader p)
               /\ GLProvider.condition_name p = h
               /\ In p (Generator.all_providers g)) ->
  exists cases,
    Emitted.provider_cases_of g labels = Ok cases
    /\ map Emitted.case_string cases = labels
    /\ forall c, In c cases ->
                 exists p, In p (Generator.all_providers g) /\ c = case_of p.
Proof.
  induction labels as [|h labels IH]; intros H; simpl.
  - exists []. repeat split. intros c [].
  - destruct (H h (or_introl eq_refl)) as [p [He [Hc [Hl [En Hp]]]]].
    destruct IH as [cases [Hcases [Hmap Hall]]];
      [intros h' Hh'; apply H; now right|].
    unfold Emitted.provider_case_of, PyDict.lookup.
    rewrite He, Hc, Hl. cbn [bind]. rewrite Hcases. cbn [bind].
    eexists. split; [reflexivity|]. split; [simpl; now rewrite Hmap|].
    intros c [<-|Hin]; [|auto].
    exists p. split; [exact Hp|]. unfold case_of. now rewrite En.
Qed.

(** In a model the main loop builds, the provider resolver is written with
    exactly one case for each label in use, in the order of the labels, and
    each case carries the enum token, the condition and the loader of a
    binding of the model with that label: no label is left out, none is
    written twice, and none is written that no function uses. *)
Theorem generated_provider_cases
        (fuel : nat) (target : string) (reg : Registry.t) (g : Generator.t) :
  generate fuel target reg = Ok g ->
  exists cases,
    Emitted.write_provider_resolver g = Ok cases
    /\ NoDup (map Emitted.case_string cases)
    /\ StronglySorted (fun a b => String.leb a b = true)
                      (map Emitted.case_string cases)
    /\ (forall c, In c cases ->
                  exists p, In p (Generator.all_providers g) /\ c = case_of p)
    /\ (forall p, In p (Generator.all_providers g) ->
                  In (GLProvider.condition_name p)
                     (map Emitted.case_string cases)).
Proof.
  intros H. destruct (generate_tables _ _ _ H) as [[Hwf _] [Hlabels Htab]].
  unfold Emitted.write_provider_resolver.
  destruct (@provider_cases_of_total
              g (sorted_strings (PyDict.keys (Generator.provider_enum g))))
    as [cases [Hcases [Hmap Hall]]].
  { intros h Hin. apply sort_In in Hin.
    destruct (Hlabels _ Hin) as [p [Hp E]].
    destruct (Htab _ Hp) as [T1 [T2 T3]]. rewrite E in T1, T2, T3.
    exists p. auto. }
  exists cases. split; [exact Hcases|]. rewrite Hmap.
  split; [|split; [|split; [exact Hall|]]].
  - eapply Permutation_NoDup; [apply Permutation_sym, sort_perm|exact Hwf].
  - unfold sorted_strings.
    apply (@sort_sorted string string Str.leb (fun s => s)).
    + apply string_leb_total.
    + intros a b c. apply string_leb_trans.
  - intros p Hp. apply sort_In.
    destruct (Htab _ Hp) as [T1 _]. eapply get_In_keys; eauto.
Qed.

Lemma generated_provider_cases_witness :
  exists cases,
    Emitted.write_provider_resolver Examples.three_candidates_model = Ok cases
    /\ NoDup (map Emitted.case_string cases).
Proof.
  destruct (@generated_provider_cases
              8 "gl" Examples.aliases_with_extensions
              Examples.three_candidates_model
              ltac:(vm_compute; reflexivity))
    as [cases [H1 [H2 _]]].
  exists cases. split; [exact H1|exact H2].
Defined.

(** ** A function without candidates *)

(** For a function without any candidate the generator still writes a
    resolver: it passes an empty provider list and the single entry point
    None.  Running it evaluates no condition and calls no loader: it calls
    the failure handler if one is installed, and otherwise prints the header
    and the line about no known providers, and aborts. *)
Theorem resolver_without_candidates
        (g : Generator.t) (func : GLFunction.t)
        (cases : list Emitted.provider_case) (proc : Runtime.process) :
  Generator.gather_providers g func = Ok [] ->
  Emitted.write_function_ptr_resolver g func
  = Ok (Emitted.provider_resolver_call (GLFunction.name func) [] [None])
  /\ Runtime.run cases proc
                 (Emitted.provider_resolver_call (GLFunction.name func)
                                                 [] [None])
     = match Runtime.failure_handler proc with
       | Some handler =>
           ([Runtime.CallFailureHandler (GLFunction.name func)],
            Runtime.Returned (handler (GLFunction.name func)))
       | None =>
           ([Runtime.Fprintf ("No provider of " ++ GLFunction.name func
                                ++ " found.  Requires one of:");
             Runtime.Fprintf
               "    No known providers.  This is likely a bug in libepoxy code generation"],
            Runtime.Aborted)
       end.
Proof.
  intros H. split.
  - now rewrite (write_function_ptr_resolver_cases _ _ H).
  - unfold Runtime.run, Runtime.provider_resolver. cbn [Runtime.resolver_loop].
    destruct (Runtime.failure_handler proc); reflexivity.
Qed.

Lemma resolver_without_candidates_witness :
  Emitted.write_function_ptr_resolver
    Examples.alias_chain_model (GLFunction.init "void" "glFoo")
  = Ok (Emitted.provider_resolver_call "glFoo" [] [None]).
Proof.
  exact (proj1 (@resolver_without_candidates
                  Examples.alias_chain_model (GLFunction.init "void" "glFoo")
                  [] Examples.nothing_available eq_refl)).
Defined.

(** ** Enum constants *)

Lemma add_to_group_mem (name group g' : string)
      (gs : PyDict.t (list string)) :
  PyDict.mem g' (Enums.add_to_group name group gs)
  = String.eqb g' group || PyDict.mem g' gs.
Proof.
  unfold Enums.add_to_group.
  destruct (PyDict.get group gs); apply mem_set.
Qed.

Lemma add_to_group_wf (name group : string) (gs : PyDict.t (list string)) :
  PyDict.wf gs -> PyDict.wf (Enums.add_to_group name group gs).
Proof.
  unfold Enums.add_to_group.
  destruct (PyDict.get group gs); apply wf_set.
Qed.

Lemma add_to_group_members (name group g' : string)
      (gs : PyDict.t (list string)) (l : list string) (n : string) :
  PyDict.get g' (Enums.add_to_group name group gs) = Some l ->
  In n l ->
  n = name \/ exists l0, PyDict.get g' gs = Some l0 /\ In n l0.
Proof.
  unfold Enums.add_to_group.
  destruct (PyDict.get group gs) as [l0|] eqn:E;
    (destruct (String.eqb_spec g' group) as [->|Hne];
     [rewrite get_set_same; intros [= <-]
     |rewrite get_set_other by assumption; eauto]).
  - intros Hin. apply in_app_or in Hin. destruct Hin as [Hin|[<-|[]]]; eauto.
  - intros [<-|[]]. now left.
Qed.

Lemma add_to_groups_mem (name g' : string) (names : list string) :
  forall gs,
    PyDict.mem g' (fold_left (fun gs group =>
                                Enums.add_to_group name group gs) names gs)
    = Str.mem g' names || PyDict.mem g' gs.
Proof.
  induction names as [|group names IH]; intros gs; simpl; [reflexivity|].
  rewrite IH, add_to_group_mem.
  destruct (String.eqb g' group), (Str.mem g' names), (PyDict.mem g' gs);
    reflexivity.
Qed.

Lemma add_to_groups_wf (name : string) (names : list string) :
  forall gs,
    PyDict.wf gs ->
    PyDict.wf (fold_left (fun gs group =>
                            Enums.add_to_group name group gs) names gs).
Proof.
  induction names as [|group names IH]; intros gs H; simpl; [exact H|].
  apply IH. now apply add_to_group_wf.
Qed.

Lemma add_to_groups_members (name g' : string) (names : list string)
      (n : string) :
  forall gs l,
    PyDict.get g' (fold_left (fun gs group =>
                                Enums.add_to_group name group gs) names gs)
    = Some l ->
    In n l ->
    n = name \/ exists l0, PyDict.get g' gs = Some l0 /\ In n l0.
Proof.
  induction names as [|group names IH]; intros gs l H Hin; simpl in H;
    [eauto|].
  destruct (IH _ _ H Hin) as [E|[l0 [H0 Hin0]]]; [now left|].
  eapply add_to_group_members; eauto.
Qed.

Lemma parse_enum_ok (e : Enums.enum) (s : Enums.t) :
  enums_state_ok s -> enums_state_ok (Enums.parse_enum e s).
Proof.
  intros [Hwf [Hone [Hen Hgr]]]. unfold Enums.parse_enum.
  destruct (Str.mem (Enums.enum_name e) Enums.skipped) eqn:Hskip;
    [repeat split; auto; apply Hen; auto|].
  unfold enums_state_ok.
  cbn [Enums.groups Enums.enums Enums.max_enum_name_len].
  split; [now apply add_to_groups_wf|]. split; [lia|]. split.
  - intros n. rewrite mem_set.
    destruct (String.eqb_spec n (Enums.enum_name e)) as [->|Hne]; simpl.
    + intros _. split; [exact Hskip|lia].
    + intros Hn. destruct (Hen n Hn). split; [assumption|lia].
  - intros g' l n Hl Hin. rewrite mem_set.
    destruct (add_to_groups_members _ _ _ _ _ Hl Hin) as [->|[l0 [H0 Hin0]]].
    + now rewrite String.eqb_refl.
    + rewrite (Hgr _ _ _ H0 Hin0). apply orb_true_r.
Qed.

Lemma parse_enum_groups (e : Enums.enum) (s : Enums.t) (g' : string) :
  PyDict.mem g' (Enums.groups (Enums.parse_enum e s)) = true <->
  PyDict.mem g' (Enums.groups s) = true
  \/ (kept e /\ In g' (Enums.group_names e)).
Proof.
  unfold Enums.parse_enum, kept.
  destruct (Str.mem (Enums.enum_name e) Enums.skipped) eqn:Hskip.
  - split; [auto|]. intros [H|[H _]]; [exact H|discriminate].
  - cbn [Enums.groups]. rewrite add_to_groups_mem, orb_true_iff, str_mem_In.
    tauto.
Qed.

Lemma parse_enum_enums (e : Enums.enum) (s : Enums.t) (n : string) :
  PyDict.mem n (Enums.enums (Enums.parse_enum e s)) = true <->
  PyDict.mem n (Enums.enums s) = true
  \/ (kept e /\ Enums.enum_name e = n).
Proof.
  unfold Enums.parse_enum, kept.
  destruct (Str.mem (Enums.enum_name e) Enums.skipped) eqn:Hskip.
  - split; [auto|]. intros [H|[H _]]; [exact H|discriminate].
  - cbn [Enums.enums]. rewrite mem_set, orb_true_iff.
    split.
    + intros [H|H]; [|now left]. right. split; [reflexivity|].
      symmetry. now apply String.eqb_eq.
    + intros [H|[_ <-]]; [now right|]. left. apply String.eqb_refl.
Qed.

Lemma parse_enums_loop (reg : list Enums.enum) :
  forall s,
    enums_state_ok s ->
    let s' := fold_left (fun s e => Enums.parse_enum e s) reg s in
    enums_state_ok s'
    /\ (forall g', PyDict.mem g' (Enums.groups s') = true <->
                   PyDict.mem g' (Enums.groups s) = true
                   \/ exists e, In e reg /\ kept e
                                /\ In g' (Enums.group_names e))
    /\ (forall n, PyDict.mem n (Enums.enums s') = true <->
                  PyDict.mem n (Enums.enums s) = true
                  \/ exists e, In e reg /\ kept e /\ Enums.enum_name e = n).
Proof.
  induction reg as [|e reg IH]; intros s Hs; simpl.
  - split; [exact Hs|]. split; intros x; split; auto;
      intros [H|[e [[] _]]]; exact H.
  - destruct (IH _ (parse_enum_ok e Hs)) as [Hok [Hg Hn]].
    split; [exact Hok|]. split.
    + intros g'. rewrite Hg, parse_enum_groups. split.
      * intros [[H|[Hk Hin]]|[e' [He' H]]].
        -- now left.
        -- right. exists e. split; [now left|auto].
        -- right. exists e'. split; [now right|exact H].
      * intros [H|[e' [[<-|He'] [Hk Hin]]]].
        -- left. now left.
        -- left. right. auto.
        -- right. exists e'. auto.
    + intros n. rewrite Hn, parse_enum_enums. split.
      * intros [[H|[Hk Hin]]|[e' [He' H]]].
        -- now left.
        -- right. exists e. split; [now left|auto].
        -- right. exists e'. split; [now right|exact H].
      * intros [H|[e' [[<-|He'] [Hk Hin]]]].
        -- left. now left.
        -- left. right. auto.
        -- right. exists e'. auto.
Qed.

Lemma enums_state_ok_init : enums_state_ok Enums.init.
Proof.
  split; [apply wf_nil|]. split; [simpl; lia|].
  split; [intros n; discriminate|intros g' l n; discriminate].
Qed.

(** [parse_enums] needs an enum without a group: when every enum it keeps
    has a group attribute all of whose comma-separated parts are non-empty
    (in particular when the registry has no enum at all), the deletion of
    the group of the groupless enums raises KeyError for the empty name;
    when some kept enum is groupless, [parse_enums] returns. *)
Theorem parse_enums_needs_groupless (reg : list Enums.enum) :
  ((forall e, In e reg -> kept e -> ~ groupless e) ->
   Enums.parse_enums reg Enums.init = Raise (KeyError ""))
  /\ ((exists e, In e reg /\ kept e /\ groupless e) ->
      exists s, Enums.parse_enums reg Enums.init = Ok s).
Proof.
  destruct (parse_enums_loop reg enums_state_ok_init) as [_ [Hg _]].
  cbv zeta in Hg. unfold Enums.parse_enums, PyDict.del.
  split.
  - intros Hall.
    destruct (PyDict.mem "" (Enums.groups _)) eqn:E; [|reflexivity].
    apply Hg in E. destruct E as [E|[e [He [Hk Hin]]]]; [discriminate|].
    exfalso. exact (Hall e He Hk Hin).
  - intros Hex. rewrite (proj2 (Hg "") (or_intror Hex)). cbn [bind]. eauto.
Qed.

Lemma parse_enums_needs_groupless_witness :
  Enums.parse_enums
    [Enums.make_enum "GL_TRIANGLES" (Some "0x0004") (Some "PrimitiveType")]
    Enums.init
  = Raise (KeyError "").
Proof.
  apply (proj1 (parse_enums_needs_groupless
                  [Enums.make_enum "GL_TRIANGLES" (Some "0x0004")
                                   (Some "PrimitiveType")])).
  intros e [<-|[]] _ H. vm_compute in H. intuition discriminate.
Defined.

(** What [parse_enums] returns: the empty name is no group; the enums it
    holds are the ones of the registry it does not pass over, so none of the
    three WGL_SWAP names; no name is longer than [max_enum_name_len]; and
    every member of every group is one of the enums it holds. *)
Theorem parse_enums_result (reg : list Enums.enum) (s : Enums.t) :
  Enums.parse_enums reg Enums.init = Ok s ->
  PyDict.mem "" (Enums.groups s) = false
  /\ (forall n, PyDict.mem n (Enums.enums s) = true <->
                exists e, In e reg /\ kept e /\ Enums.enum_name e = n)
  /\ (forall n, PyDict.mem n (Enums.enums s) = true ->
                ~ In n Enums.skipped
                /\ String.length n <= Enums.max_enum_name_len s)
  /\ (forall g' l n, PyDict.get g' (Enums.groups s) = Some l -> In n l ->
                     PyDict.mem n (Enums.enums s) = true).
Proof.
  destruct (parse_enums_loop reg enums_state_ok_init)
    as [[Hwf [_ [Hen Hgr]]] [_ Hn]].
  cbv zeta in *. unfold Enums.parse_enums. intros H.
  apply bind_Ok in H. destruct H as [gs [Hdel H]]. injection H as <-.
  apply del_Ok in Hdel. subst gs.
  cbn [Enums.groups Enums.enums Enums.max_enum_name_len].
  split; [apply mem_false; now apply get_remove_same|].
  split.
  - intros n. rewrite Hn. split; [|auto].
    intros [H|H]; [discriminate|exact H].
  - split.
    + intros n Hm. destruct (Hen n Hm) as [Hs Hl]. split; [|exact Hl].
      intros Hin. apply str_mem_In in Hin. congruence.
    + intros g' l n Hl Hin.
      destruct (String.eqb_spec g' "") as [->|Hne].
      * rewrite get_remove_same in Hl by assumption. discriminate.
      * rewrite get_remove_other in Hl by assumption. eauto.
Qed.

Lemma parse_enums_result_witness :
  PyDict.mem "" (Enums.groups Examples.two_enums_parsed) = false.
Proof.
  exact (proj1 (@parse_enums_result
                  Examples.two_enums Examples.two_enums_parsed
                  ltac:(vm_compute; reflexivity))).
Defined.

(** ** The argument list of the thunks *)

Lemma append_assoc (a b c : string) : (a ++ b) ++ c = a ++ (b ++ c).
Proof. induction a as [|x a IH]; simpl; [reflexivity|now rewrite IH]. Qed.

Lemma join_snoc (sep : string) (l : list string) (x : string) :
  l <> [] ->
  Str.join sep (l ++ [x]) = Str.join sep l ++ sep ++ x.
Proof.
  induction l as [|a l IH]; intros Hne; [contradiction|].
  destruct l as [|b l].
  - reflexivity.
  - change (Str.join sep ((a :: b :: l) ++ [x]))
      with (a ++ sep ++ Str.join sep ((b :: l) ++ [x])).
    rewrite IH by discriminate.
    change (Str.join sep (a :: b :: l))
      with (a ++ sep ++ Str.join sep (b :: l)).
    now rewrite !append_assoc.
Qed.

Lemma append_empty (a b : string) : a ++ b = "" -> a = "" /\ b = "".
Proof. destruct a; simpl; [auto|discriminate]. Qed.

Lemma append_nil_r (s : string) : s ++ "" = s.
Proof. induction s as [|c s IH]; simpl; [reflexivity|now rewrite IH]. Qed.

Lemma join_nonempty (sep : string) (l : list string) :
  l <> [] -> (forall x, In x l -> x <> "") -> Str.join sep l <> "".
Proof.
  destruct l as [|a l]; intros Hne Hall; [contradiction|].
  assert (Ha : a <> "") by (apply Hall; now left).
  destruct l as [|b l]; [exact Ha|].
  change (Str.join sep (a :: b :: l)) with (a ++ sep ++ Str.join sep (b :: l)).
  intros E. apply append_empty in E. now destruct E.
Qed.

Lemma arg_list_name_nonempty (a : GLFunction.arg) :
  GLFunction.arg_name a <> "" -> Thunks.arg_list_name a <> "".
Proof.
  unfold Thunks.arg_list_name.
  destruct (String.eqb _ _); [discriminate|auto].
Qed.

(** The loop of [args_list], run on [rest] after [done]. *)
Lemma args_list_loop (rest : list GLFunction.arg) :
  forall (done : list GLFunction.arg),
    (forall a, In a (done ++ rest) -> GLFunction.arg_name a <> "") ->
    for_each Thunks.args_list_step rest
             (Str.join ", " (map Thunks.arg_list_name done), List.length done)
    = if forallb (fun ia =>
                    negb (String.eqb (GLFunction.arg_type (snd ia))
                                     "GLhandleARB")
                    || (fst ia <? 6)%nat)
                 (combine (seq (List.length done) (List.length rest)) rest)
      then Ok (Str.join ", " (map Thunks.arg_list_name (done ++ rest)),
               List.length (done ++ rest))
      else Raise AssertionError.
Proof.
  induction rest as [|a rest IH]; intros done Hnames.
  - simpl. now rewrite app_nil_r.
  - cbn [for_each Thunks.args_list_step List.length seq combine forallb
         fst snd].
    assert (Hstep :
              forall res,
                res = Str.join ", " (map Thunks.arg_list_name done) ->
                (if negb (String.eqb res "") then res ++ ", " else res)
                  ++ Thunks.arg_list_name a
                = Str.join ", " (map Thunks.arg_list_name (done ++ [a]))).
    { intros res ->. rewrite map_app. simpl map.
      destruct done as [|d done]; [reflexivity|].
      rewrite join_snoc by discriminate.
      destruct (String.eqb_spec
                  (Str.join ", " (map Thunks.arg_list_name (d :: done))) "")
        as [E|_].
      - exfalso. revert E. apply join_nonempty; [discriminate|].
        intros x Hx. apply in_map_iff in Hx. destruct Hx as [b [<- Hb]].
        apply arg_list_name_nonempty, Hnames, in_or_app. now left.
      - simpl negb. cbv iota. now rewrite !append_assoc. }
    specialize (IH (done ++ [a])%list).
    rewrite <- app_assoc in IH. cbn [app] in IH.
    rewrite length_app in IH. cbn [List.length] in IH.
    rewrite Nat.add_1_r in IH.
    unfold Thunks.arg_list_name in Hstep |- *.
    destruct (String.eqb (GLFunction.arg_type a) "GLhandleARB") eqn:Eh.
    + cbn [negb orb]. destruct (List.length done <? 6)%nat eqn:El.
      * cbn [Generator.assert bind andb]. rewrite (Hstep _ eq_refl).
        fold Thunks.arg_list_name. now apply IH.
      * reflexivity.
    + cbn [negb orb bind andb]. rewrite (Hstep _ eq_refl).
      fold Thunks.arg_list_name. now apply IH.
Qed.

(** [args_list] fails its assertion exactly when an argument of type
    GLhandleARB stands at position six or later (counting from zero);
    otherwise, for arguments with non-empty names, it is the names joined
    by a comma and a space, each name of a GLhandleARB argument behind a
    cast to uintptr_t. *)
Theorem args_list_spec (f : GLFunction.t) :
  (forall a, In a (GLFunction.args f) -> GLFunction.arg_name a <> "") ->
  ((exists i a, nth_error (GLFunction.args f) i = Some a
                /\ GLFunction.arg_type a = "GLhandleARB"
                /\ 6 <= i) ->
   Thunks.args_list f = Raise AssertionError)
  /\ ((forall i a, nth_error (GLFunction.args f) i = Some a ->
                   GLFunction.arg_type a = "GLhandleARB" -> i < 6) ->
      Thunks.args_list f
      = Ok (Str.join ", " (map Thunks.arg_list_name (GLFunction.args f)))).
Proof.
  intros Hnames. unfold Thunks.args_list.
  pose proof (args_list_loop (GLFunction.args f) [] Hnames) as Hloop.
  cbn [map Str.join List.length app] in Hloop. rewrite Hloop. clear Hloop.
  assert (Hall : forallb (fun ia =>
                            negb (String.eqb (GLFunction.arg_type (snd ia))
                                             "GLhandleARB")
                            || (fst ia <? 6)%nat)
                         (combine (seq 0 (List.length (GLFunction.args f)))
                                  (GLFunction.args f)) = true
                 <-> forall i a, nth_error (GLFunction.args f) i = Some a ->
                                 GLFunction.arg_type a = "GLhandleARB" ->
                                 i < 6).
  { generalize (GLFunction.args f) as l. intros l.
    assert (Hgen : forall n,
               forallb (fun ia =>
                          negb (String.eqb (GLFunction.arg_type (snd ia))
                                           "GLhandleARB")
                          || (fst ia <? 6)%nat)
                       (combine (seq n (List.length l)) l) = true
               <-> forall i a, nth_error l i = Some a ->
                               GLFunction.arg_type a = "GLhandleARB" ->
                               n + i < 6).
    { induction l as [|b l IH]; intros n.
      - simpl. split; [intros _ i a Hi|reflexivity].
        destruct i; discriminate.
      - cbn [List.length seq combine forallb fst snd].
        rewrite andb_true_iff, IH. split.
        + intros [Hb Hl] [|i] a Hi Ha.
          * injection Hi as ->. apply String.eqb_eq in Ha.
            rewrite Ha in Hb. simpl in Hb. apply Nat.ltb_lt in Hb. lia.
          * specialize (Hl i a Hi Ha). lia.
        + intros H. split.
          * destruct (String.eqb_spec (GLFunction.arg_type b) "GLhandleARB")
              as [E|E]; [|reflexivity].
            simpl. apply Nat.ltb_lt. specialize (H 0 b eq_refl E). lia.
          * intros i a Hi Ha. specialize (H (S i) a Hi Ha). lia. }
    exact (Hgen 0). }
  split.
  - intros [i [a [Hi [Ha Hge]]]].
    rewrite (proj1 (not_true_iff_false _)); [reflexivity|].
    intros E. pose proof (proj1 Hall E i a Hi Ha). lia.
  - intros H. now rewrite (proj2 Hall H).
Qed.

Lemma args_list_spec_witness :
  Thunks.args_list
    (GLFunction.add_arg
       "GLhandleARB" "obj" None
       (GLFunction.add_arg "GLhandleARB" "container" None
                           (GLFunction.init "void" "glAttachObjectARB")))
  = Ok "(uintptr_t)container, (uintptr_t)obj".
Proof.
  apply (proj2 (@args_list_spec
                  (GLFunction.add_arg
                     "GLhandleARB" "obj" None
                     (GLFunction.add_arg
                        "GLhandleARB" "container" None
                        (GLFunction.init "void" "glAttachObjectARB")))
                  ltac:(simpl; intuition (subst; discriminate)))).
  intros [|[|[|i]]] a Hi _; simpl in Hi; try discriminate; lia.
Defined.

(** ** The defines of the header *)

Lemma with_values_spec (s : Enums.t) (names : list string) :
  forall pairs,
    Header.with_values s names = Some pairs ->
    map fst pairs = names
    /\ forall n v, In (n, v) pairs ->
                   PyDict.get n (Enums.enums s) = Some (Some v).
Proof.
  induction names as [|n names IH]; intros pairs H; simpl in H.
  - injection H as <-. split; [reflexivity|intros n v []].
  - destruct (PyDict.get n (Enums.enums s)) as [[v|]|] eqn:E;
      try discriminate.
    destruct (Header.with_values s names) as [l|]; [|discriminate].
    injection H as <-. destruct (IH l eq_refl) as [Hmap Hall].
    split; [simpl; now rewrite Hmap|].
    intros n' v' [[= <- <-]|Hin]; auto.
Qed.

Lemma with_values_none (s : Enums.t) (names : list string) :
  (forall n, In n names -> In n (PyDict.keys (Enums.enums s))) ->
  (Header.with_values s names = None
   <-> exists n, In n names /\ PyDict.get n (Enums.enums s) = Some None).
Proof.
  induction names as [|n names IH]; intros Hkeys; simpl.
  - split; [discriminate|intros [n [[] _]]].
  - assert (IH' := IH (fun m Hm => Hkeys m (or_intror Hm))).
    destruct (PyDict.get n (Enums.enums s)) as [[v|]|] eqn:E.
    + destruct (Header.with_values s names) as [l|].
      * split; [discriminate|].
        intros [m [[<-|Hm] Hn]]; [congruence|].
        assert (Hl : Some l = None) by (apply (proj2 IH'); eauto).
        discriminate Hl.
      * split; [|reflexivity]. intros _.
        destruct (proj1 IH' eq_refl) as [m [Hm Hn]]. eauto.
    + split; [|reflexivity]. intros _. exists n. auto.
    + apply get_None_not_In in E. exfalso. apply E, Hkeys. now left.
Qed.

Lemma leb_compare (a b : string) :
  String.leb a b = true ->
  String.compare a b = Lt \/ a = b.
Proof.
  unfold String.leb. destruct (String.compare a b) eqn:E;
    [|auto|discriminate].
  intros _. right. now apply string_compare_eq.
Qed.

Lemma insert_by_number (x : string * string) (l : list (string * string)) :
  StronglySorted by_number_then_name l ->
  Forall (fun y => String.leb (fst x) (fst y) = true) l ->
  StronglySorted by_number_then_name (Sort.insert Str.leb snd x l).
Proof.
  induction 1 as [|y l Hs IH Hall]; intros Hx; simpl.
  - constructor; constructor.
  - inversion Hx as [|? ? Hxy Hxl]; subst.
    unfold Str.leb at 1.
    destruct (String.leb (snd x) (snd y)) eqn:E.
    + constructor; [now constructor|].
      assert (Rxy : by_number_then_name x y).
      { destruct (leb_compare _ _ E) as [Hlt|Heq]; [now left|now right]. }
      constructor; [exact Rxy|].
      rewrite Forall_forall in *. intros z Hz.
      destruct (leb_compare _ _ E) as [Hlt|Heq].
      * destruct (Hall z Hz) as [Hyz|[Hyz _]].
        -- left. eapply string_compare_lt_trans; eauto.
        -- left. now rewrite <- Hyz.
      * destruct (Hall z Hz) as [Hyz|[Hyz _]].
        -- left. now rewrite Heq.
        -- right. split; [congruence|]. now apply Hxl.
    + apply string_leb_false_lt in E.
      constructor; [now apply IH|].
      rewrite Forall_forall in *. intros z Hz.
      apply (Permutation_in _ (insert_perm Str.leb snd x l)) in Hz.
      destruct Hz as [<-|Hz]; [now left|now apply Hall].
Qed.

Lemma sort_by_number (l : list (string * string)) :
  StronglySorted (fun a b => String.leb (fst a) (fst b) = true) l ->
  StronglySorted by_number_then_name (Sort.sort Str.leb snd l).
Proof.
  induction 1 as [|x l Hs IH Hall]; simpl; [constructor|].
  apply insert_by_number; [exact IH|].
  rewrite Forall_forall in Hall. apply Forall_forall. intros y Hy.
  apply Hall. apply sort_In in Hy. exact Hy.
Qed.

Lemma sorted_map_fst (l : list (string * string)) :
  StronglySorted (Sort.key_le Str.leb (fun s => s)) (map fst l) ->
  StronglySorted (fun a b => String.leb (fst a) (fst b) = true) l.
Proof.
  induction l as [|x l IH]; simpl; intros H; [constructor|].
  inversion H as [|? ? Hs Hall]; subst.
  constructor; [now apply IH|].
  rewrite Forall_forall in *. intros y Hy.
  apply (Hall (fst y)). now apply in_map.
Qed.

(** [write_enums] raises TypeError exactly when some enum has no value.
    Otherwise it writes one define for each enum, with the value of the
    enum, and the defines are in the order of the values, the ones with
    equal values in the order of the names. *)
Theorem write_enums_order (g : Generator.t) (s : Enums.t) :
  (Header.write_enums g s = None
   <-> exists n, PyDict.get n (Enums.enums s) = Some None)
  /\ forall pairs,
      Header.sorted_by_number s = Some pairs ->
      Permutation (map fst pairs) (PyDict.keys (Enums.enums s))
      /\ (forall n v, In (n, v) pairs ->
                      PyDict.get n (Enums.enums s) = Some (Some v))
      /\ StronglySorted by_number_then_name pairs.
Proof.
  unfold Header.write_enums, Header.sorted_by_number.
  assert (Hkeys : forall n,
             In n (sorted_strings (PyDict.keys (Enums.enums s))) ->
             In n (PyDict.keys (Enums.enums s)))
    by (intros n; apply sort_In).
  split.
  - pose proof (with_values_none s _ Hkeys) as Hnone.
    destruct (Header.with_values s _) as [l|]; simpl.
    + split; [discriminate|]. intros [n Hn].
      assert (Hl : Some l = None).
      { apply (proj2 Hnone). exists n. split; [|exact Hn].
        apply sort_In. eapply get_In_keys; eauto. }
      discriminate Hl.
    + split; [|reflexivity]. intros _.
      destruct (proj1 Hnone eq_refl) as [n [_ Hn]]. eauto.
  - intros pairs H.
    destruct (Header.with_values s _) as [l|] eqn:E; [|discriminate].
    injection H as <-. destruct (with_values_spec _ _ E) as [Hmap Hall].
    split; [|split].
    + eapply Permutation_trans;
        [apply Permutation_map, sort_perm|].
      rewrite Hmap. apply sort_perm.
    + intros n v Hin. apply Hall. apply sort_In in Hin. exact Hin.
    + apply sort_by_number, sorted_map_fst. rewrite Hmap.
      apply (@sort_sorted string string Str.leb (fun s => s)).
      * apply string_leb_total.
      * intros a b c. apply string_leb_trans.
Qed.

Lemma write_enums_order_witness :
  StronglySorted by_number_then_name
                 [("GL_NONE", "0"); ("GL_EXAMPLE_VALUE", "0x0001")].
Proof.
  exact (proj2 (proj2 (proj2 (@write_enums_order
                                (Generator.init "gl")
                                Examples.two_enums_parsed)
                             [("GL_NONE", "0"); ("GL_EXAMPLE_VALUE", "0x0001")]
                             ltac:(vm_compute; reflexivity)))).
Defined.

Lemma length_append (a b : string) :
  String.length (a ++ b) = String.length a + String.length b.
Proof. induction a as [|c a IH]; simpl; [reflexivity|now rewrite IH]. Qed.

Lemma length_spaces (k : nat) :
  String.length (string_of_list_ascii (repeat " "%char k)) = k.
Proof. induction k as [|k IH]; simpl; [reflexivity|now rewrite IH]. Qed.

(** The defines written for the enums [parse_enums] returned are aligned:
    in every line the name is followed by at least three spaces, and the
    value starts at the same column, [max_enum_name_len] plus three
    characters behind the start of the name. *)
Theorem write_enums_aligned
        (reg : list Enums.enum) (s : Enums.t) (pairs : list (string * string)) :
  Enums.parse_enums reg Enums.init = Ok s ->
  Header.sorted_by_number s = Some pairs ->
  forall n v,
    In (n, v) pairs ->
    exists k,
      Header.define_line s (n, v)
      = "#define " ++ n ++ string_of_list_ascii (repeat " "%char k) ++ v
      /\ 3 <= k
      /\ String.length n + k = Enums.max_enum_name_len s + 3.
Proof.
  intros Hparse Hsorted n v Hin.
  assert (Hlen : String.length n <= Enums.max_enum_name_len s).
  { destruct (parse_enums_loop reg enums_state_ok_init)
      as [[_ [_ [Hen _]]] _].
    cbv zeta in Hen. unfold Enums.parse_enums in Hparse.
    apply bind_Ok in Hparse. destruct Hparse as [gs [_ Hs]].
    injection Hs as <-. cbn [Enums.enums Enums.max_enum_name_len].
    apply Hen. apply mem_true.
    unfold Header.sorted_by_number in Hsorted.
    cbn [Enums.enums] in Hsorted.
    destruct (Header.with_values _ _) as [l|] eqn:E; [|discriminate].
    injection Hsorted as <-.
    apply sort_In in Hin.
    destruct (with_values_spec _ _ E) as [_ Hall].
    specialize (Hall _ _ Hin). cbn [Enums.enums] in Hall. eauto. }
  exists (Enums.max_enum_name_len s + 3 - String.length n).
  split; [|lia].
  unfold Header.define_line, Header.ljust. cbn [fst snd].
  now rewrite append_nil_r, !append_assoc.
Qed.

Lemma write_enums_aligned_witness :
  exists k,
    Header.define_line Examples.two_enums_parsed ("GL_NONE", "0")
    = "#define " ++ "GL_NONE" ++ string_of_list_ascii (repeat " "%char k)
                 ++ "0"
    /\ 3 <= k
    /\ String.length "GL_NONE" + k
       = Enums.max_enum_name_len Examples.two_enums_parsed + 3.
Proof.
  exact (@write_enums_aligned
           Examples.two_enums Examples.two_enums_parsed
           [("GL_NONE", "0"); ("GL_EXAMPLE_VALUE", "0x0001")]
           ltac:(vm_compute; reflexivity)
           ltac:(vm_compute; reflexivity)
           "GL_NONE" "0" ltac:(simpl; auto)).
Defined.

(** ** Supported versions and extensions *)

Lemma set_add_In (x y : string) (s : list string) :
  In x (Generator.set_add y s) <-> x = y \/ In x s.
Proof.
  unfold Generator.set_add. destruct (Str.mem y s) eqn:E.
  - apply str_mem_In in E. split; [auto|]. intros [->|H]; auto.
  - rewrite in_app_iff. simpl. split.
    + intros [H|[<-|[]]]; auto.
    + intros [->|H]; auto.
Qed.

Lemma set_add_NoDup (y : string) (s : list string) :
  NoDup s -> NoDup (Generator.set_add y s).
Proof.
  intros H. unfold Generator.set_add. destruct (Str.mem y s) eqn:E; [exact H|].
  apply NoDup_app; [exact H|repeat constructor; intros []|].
  intros x Hx [<-|[]]. apply str_mem_In in Hx. congruence.
Qed.

Lemma process_require_statements_supported
      (require : list string) (condition loader human_name : string)
      (g g' : Generator.t) :
  Generator.process_require_statements require condition loader human_name g
  = Ok g' ->
  Generator.supported_versions g' = Generator.supported_versions g
  /\ Generator.supported_extensions g' = Generator.supported_extensions g.
Proof.
  unfold Generator.process_require_statements. intros H.
  pose proof (@for_each_invariant
                _ _
                (Generator.process_require_statement condition loader
                                                     human_name)
                (fun s => Generator.supported_versions s
                          = Generator.supported_versions g
                          /\ Generator.supported_extensions s
                             = Generator.supported_extensions g)) as Hinv.
  apply (fun Hstep => Hinv Hstep require g g' H); [|split; reflexivity].
  intros n s s' Hs [I1 I2].
  destruct (process_require_statement_tables _ _ _ _ _ Hs)
    as [_ [_ [_ [E1 E2]]]].
  split; congruence.
Qed.

Lemma parse_feature_supported (f : Registry.feature) (g g' : Generator.t) :
  Generator.parse_feature f g = Ok g' ->
  Generator.supported_versions g'
  = Generator.set_add (Registry.feature_name f) (Generator.supported_versions g)
  /\ Generator.supported_extensions g' = Generator.supported_extensions g.
Proof.
  unfold Generator.parse_feature. intros H.
  apply bind_Ok in H. destruct H as [version [_ H]].
  apply bind_Ok in H. destruct H as [p [_ H]].
  destruct p as [[[human_name condition] loader]|].
  - destruct (process_require_statements_supported _ _ _ _ _ H) as [-> ->].
    split; reflexivity.
  - injection H as <-. split; reflexivity.
Qed.

Lemma parse_extension_supported (e : Registry.extension) (g g' : Generator.t) :
  Generator.parse_extension e g = Ok g' ->
  Generator.supported_versions g' = Generator.supported_versions g
  /\ Generator.supported_extensions g'
     = Generator.set_add (Registry.extension_name e)
                         (Generator.supported_extensions g).
Proof.
  unfold Generator.parse_extension. intros H.
  set (g0 := Generator.set_supported_extensions _ g) in H.
  apply bind_Ok in H. destruct H as [g1 [E1 H]].
  assert (H1 : Generator.supported_versions g1 = Generator.supported_versions g0
               /\ Generator.supported_extensions g1
                  = Generator.supported_extensions g0).
  { destruct (Str.mem "glx" _);
      [eapply process_require_statements_supported; eauto
      |injection E1 as <-; auto]. }
  apply bind_Ok in H. destruct H as [g2 [E2 H]].
  assert (H2 : Generator.supported_versions g2 = Generator.supported_versions g1
               /\ Generator.supported_extensions g2
                  = Generator.supported_extensions g1).
  { destruct (Str.mem "egl" _);
      [eapply process_require_statements_supported; eauto
      |injection E2 as <-; auto]. }
  apply bind_Ok in H. destruct H as [g3 [E3 H]].
  assert (H3 : Generator.supported_versions g3 = Generator.supported_versions g2
               /\ Generator.supported_extensions g3
                  = Generator.supported_extensions g2).
  { destruct (Str.mem "wgl" _);
      [eapply process_require_statements_supported; eauto
      |injection E3 as <-; auto]. }
  assert (H4 : Generator.supported_versions g' = Generator.supported_versions g3
               /\ Generator.supported_extensions g'
                  = Generator.supported_extensions g3).
  { destruct (_ || _);
      [eapply process_require_statements_supported; eauto
      |injection H as <-; auto]. }
  destruct H1 as [A1 B1], H2 as [A2 B2], H3 as [A3 B3], H4 as [A4 B4].
  rewrite A4, A3, A2, A1, B4, B3, B2, B1. split; reflexivity.
Qed.

Lemma parse_features_supported (fs : list Registry.feature) :
  forall g g',
    for_each Generator.parse_feature fs g = Ok g' ->
    Generator.supported_extensions g' = Generator.supported_extensions g
    /\ (NoDup (Generator.supported_versions g) ->
        NoDup (Generator.supported_versions g'))
    /\ forall n, In n (Generator.supported_versions g') <->
                 In n (Generator.supported_versions g)
                 \/ exists f, In f fs /\ Registry.feature_name f = n.
Proof.
  induction fs as [|f fs IH]; intros g g' H; simpl in H.
  - injection H as <-. split; [reflexivity|]. split; [auto|].
    intros n. split; [auto|]. intros [H|[f [[] _]]]. exact H.
  - apply bind_Ok in H. destruct H as [g1 [H1 H]].
    destruct (parse_feature_supported _ _ H1) as [Ev Ee].
    destruct (IH _ _ H) as [Ee' [Hnd Hin]].
    split; [congruence|]. split.
    + intros Hg. apply Hnd. rewrite Ev. now apply set_add_NoDup.
    + intros n. rewrite Hin, Ev, set_add_In. split.
      * intros [[->|Hn]|[f' [Hf' E]]].
        -- right. exists f. split; [now left|reflexivity].
        -- now left.
        -- right. exists f'. split; [now right|exact E].
      * intros [Hn|[f' [[<-|Hf'] E]]].
        -- left. now right.
        -- left. left. now symmetry.
        -- right. eauto.
Qed.

Lemma parse_extensions_supported (es : list Registry.extension) :
  forall g g',
    for_each Generator.parse_extension es g = Ok g' ->
    Generator.supported_versions g' = Generator.supported_versions g
    /\ (NoDup (Generator.supported_extensions g) ->
        NoDup (Generator.supported_extensions g'))
    /\ forall n, In n (Generator.supported_extensions g') <->
                 In n (Generator.supported_extensions g)
                 \/ exists e, In e es /\ Registry.extension_name e = n.
Proof.
  induction es as [|e es IH]; intros g g' H; simpl in H.
  - injection H as <-. split; [reflexivity|]. split; [auto|].
    intros n. split; [auto|]. intros [H|[e [[] _]]]. exact H.
  - apply bind_Ok in H. destruct H as [g1 [H1 H]].
    destruct (parse_extension_supported _ _ H1) as [Ev Ee].
    destruct (IH _ _ H) as [Ev' [Hnd Hin]].
    split; [congruence|]. split.
    + intros Hg. apply Hnd. rewrite Ee. now apply set_add_NoDup.
    + intros n. rewrite Hin, Ee, set_add_In. split.
      * intros [[->|Hn]|[e' [He' E]]].
        -- right. exists e. split; [now left|reflexivity].
        -- now left.
        -- right. exists e'. split; [now right|exact E].
      * intros [Hn|[e' [[<-|He'] E]]].
        -- left. now right.
        -- left. left. now symmetry.
        -- right. eauto.
Qed.

Lemma resolve_loop_supported (fuel : nat) (keys : list string) :
  forall g g',
    for_each (Generator.resolve_alias fuel) keys g = Ok g' ->
    Generator.supported_versions g' = Generator.supported_versions g
    /\ Generator.supported_extensions g' = Generator.supported_extensions g.
Proof.
  induction keys as [|key keys IH]; intros g g' H; simpl in H.
  - injection H as <-. auto.
  - apply bind_Ok in H. destruct H as [g1 [H1 H]].
    destruct (IH _ _ H) as [-> ->].
    destruct (resolve_alias_spec _ _ _ H1)
      as [func [_ [[_ ->]|[_ [rk [r [_ [_ [_ ->]]]]]]]]]; auto.
Qed.

Lemma fixup_supported (name loader : string) (g : Generator.t) :
  Generator.supported_versions
    (Generator.fixup_bootstrap_function name loader g)
  = Generator.supported_versions g
  /\ Generator.supported_extensions
       (Generator.fixup_bootstrap_function name loader g)
     = Generator.supported_extensions g.
Proof.
  unfold Generator.fixup_bootstrap_function.
  destruct (PyDict.get name (Generator.functions g)); auto.
Qed.

Lemma intern_loop_supported (ps : list GLProvider.t) :
  forall g g',
    for_each Generator.intern_provider ps g = Ok g' ->
    Generator.supported_versions g' = Generator.supported_versions g
    /\ Generator.supported_extensions g' = Generator.supported_extensions g.
Proof.
  induction ps as [|p ps IH]; intros g g' H; simpl in H.
  - injection H as <-. auto.
  - apply bind_Ok in H. destruct H as [g1 [H1 H]].
    destruct (IH _ _ H) as [-> ->].
    unfold Generator.intern_provider in H1.
    destruct (PyDict.mem _ _).
    + apply bind_Ok in H1. destruct H1 as [c [_ H1]].
      apply bind_Ok in H1. destruct H1 as [u1 [_ H1]].
      apply bind_Ok in H1. destruct H1 as [l [_ H1]].
      apply bind_Ok in H1. destruct H1 as [u2 [_ H1]].
      injection H1 as <-. auto.
    + injection H1 as <-. auto.
Qed.

(** In a model the main loop builds, the supported versions are exactly
    the names of the feature blocks of the registry and the supported
    extensions exactly the names of its extension blocks, each once: also
    the blocks of an api the generator skips, and the extensions supported
    by no api it knows. *)
Theorem generated_supported_names
        (fuel : nat) (target : string) (reg : Registry.t) (g : Generator.t) :
  generate fuel target reg = Ok g ->
  NoDup (Generator.supported_versions g)
  /\ NoDup (Generator.supported_extensions g)
  /\ (forall n, In n (Generator.supported_versions g) <->
                exists f, In f (Registry.features reg)
                          /\ Registry.feature_name f = n)
  /\ (forall n, In n (Generator.supported_extensions g) <->
                exists e, In e (Registry.extensions reg)
                          /\ Registry.extension_name e = n).
Proof.
  unfold generate. intros H. apply bind_Ok in H. destruct H as [g1 [H1 H]].
  unfold Generator.prepare_provider_enum in H.
  destruct (intern_loop_supported _ _ H) as [-> ->]. clear H.
  cbn [Generator.supported_versions Generator.supported_extensions
       Generator.set_provider_tables].
  unfold load_model in H1.
  apply bind_Ok in H1. destruct H1 as [g0 [Hparse H1]].
  apply bind_Ok in H1. destruct H1 as [g4 [Hres H1]]. injection H1 as <-.
  repeat match goal with
         | |- context [Generator.fixup_bootstrap_function ?n ?l ?s] =>
             destruct (fixup_supported n l s) as [-> ->]
         end.
  unfold Generator.resolve_aliases in Hres.
  destruct (resolve_loop_supported _ _ _ Hres) as [-> ->]. clear Hres.
  assert (E : forall s : Generator.t,
             Generator.supported_versions
               (Generator.sort_functions
                  (if PyDict.mem "wglUseFontBitmaps"
                                 (Generator.functions
                                    (Generator.drop_weird_glx_functions s))
                   then Generator.set_functions
                          (PyDict.remove
                             "wglUseFontBitmaps"
                             (Generator.functions
                                (Generator.drop_weird_glx_functions s)))
                          (Generator.drop_weird_glx_functions s)
                   else Generator.drop_weird_glx_functions s))
             = Generator.supported_versions s
             /\ Generator.supported_extensions
                  (Generator.sort_functions
                     (if PyDict.mem "wglUseFontBitmaps"
                                    (Generator.functions
                                       (Generator.drop_weird_glx_functions s))
                      then Generator.set_functions
                             (PyDict.remove
                                "wglUseFontBitmaps"
                                (Generator.functions
                                   (Generator.drop_weird_glx_functions s)))
                             (Generator.drop_weird_glx_functions s)
                      else Generator.drop_weird_glx_functions s))
                = Generator.supported_extensions s).
  { intros s. destruct (PyDict.mem _ _); split; reflexivity. }
  destruct (E g0) as [-> ->]. clear E.
  unfold Generator.parse, Generator.parse_function_providers in Hparse.
  apply bind_Ok in Hparse. destruct Hparse as [gf [Hf He]].
  destruct (@parse_features_supported _ _ _ Hf) as [Fe [Fnd Fin]].
  destruct (@parse_extensions_supported _ _ _ He) as [Ev [End' Ein]].
  destruct (parse_function_definitions_tables reg (Generator.init target))
    as [_ [_ [_ [V0 X0]]]].
  cbv zeta in V0, X0. simpl in V0, X0.
  split; [rewrite Ev; apply Fnd; rewrite V0; constructor|].
  split; [apply End'; rewrite Fe, X0; constructor|].
  split.
  - intros n. rewrite Ev, Fin, V0. split; [|auto].
    intros [[]|Hx]. exact Hx.
  - intros n. rewrite Ein, Fe, X0. split; [|auto].
    intros [[]|Hx]. exact Hx.
Qed.

Lemma generated_supported_names_witness :
  NoDup (Generator.supported_versions Examples.three_candidates_model).
Proof.
  exact (proj1 (@generated_supported_names
                  8 "gl" Examples.aliases_with_extensions
                  Examples.three_candidates_model
                  ltac:(vm_compute; reflexivity))).
Defined.

(** ** Signatures *)

Lemma renamed_ok (arg_name : string) :
  (if String.eqb arg_name "near" then "hither"
   else if String.eqb arg_name "far" then "yon" else arg_name) <> "near"
  /\ (if String.eqb arg_name "near" then "hither"
      else if String.eqb arg_name "far" then "yon" else arg_name) <> "far".
Proof.
  destruct (String.eqb_spec arg_name "near") as [->|H1];
    [split; discriminate|].
  destruct (String.eqb_spec arg_name "far") as [->|H2];
    [split; discriminate|].
  split; assumption.
Qed.

Lemma add_arg_ok (arg_type arg_name : string) (group : option string)
      (f : GLFunction.t) :
  Forall arg_ok (GLFunction.args f) ->
  Forall arg_ok (GLFunction.args
                   (GLFunction.add_arg arg_type arg_name group f)).
Proof.
  intros H. unfold GLFunction.add_arg. cbn [GLFunction.args GLFunction.set_args].
  apply Forall_app. split; [exact H|]. constructor; [|constructor].
  destruct (renamed_ok arg_name) as [Hn Hf].
  unfold arg_ok.
  destruct (Str.mem arg_type ["GLenum"; "GLbitfield"]) eqn:Em;
    cbn [GLFunction.arg_name GLFunction.arg_group GLFunction.arg_type];
    rewrite Em; (split; [exact Hn|split; [exact Hf|]]).
  - split; [reflexivity|discriminate].
  - split; [intros E; now contradiction E|discriminate].
Qed.

Lemma add_arg_types (arg_type arg_name : string) (group : option string)
      (f : GLFunction.t) :
  GLFunction.ret_type (GLFunction.add_arg arg_type arg_name group f)
  = GLFunction.ret_type f
  /\ map GLFunction.arg_type
         (GLFunction.args (GLFunction.add_arg arg_type arg_name group f))
     = (map GLFunction.arg_type (GLFunction.args f) ++ [arg_type])%list
  /\ map GLFunction.arg_name
         (GLFunction.args (GLFunction.add_arg arg_type arg_name group f))
     = (map GLFunction.arg_name (GLFunction.args f)
          ++ [renamed arg_name])%list.
Proof.
  unfold GLFunction.add_arg, renamed.
  cbn [GLFunction.args GLFunction.set_args GLFunction.ret_type].
  split; [reflexivity|].
  split; rewrite map_app; f_equal;
    destruct (Str.mem arg_type ["GLenum"; "GLbitfield"]); reflexivity.
Qed.

Lemma add_args_signature (params : list Registry.param) :
  forall func,
    let func' :=
      fold_left
        (fun f p => GLFunction.add_arg (Registry.param_type p)
                                       (Registry.param_name p)
                                       (Registry.param_group p) f)
        params func in
    GLFunction.ret_type func' = GLFunction.ret_type func
    /\ map GLFunction.arg_type (GLFunction.args func')
       = (map GLFunction.arg_type (GLFunction.args func)
            ++ map Registry.param_type params)%list
    /\ map GLFunction.arg_name (GLFunction.args func')
       = (map GLFunction.arg_name (GLFunction.args func)
            ++ map (fun p => renamed (Registry.param_name p)) params)%list
    /\ (Forall arg_ok (GLFunction.args func) ->
        Forall arg_ok (GLFunction.args func')).
Proof.
  induction params as [|p params IH]; intros func; simpl.
  - rewrite !app_nil_r. auto.
  - destruct (IH (GLFunction.add_arg (Registry.param_type p)
                                     (Registry.param_name p)
                                     (Registry.param_group p) func))
      as [H1 [H2 [H2' H3]]].
    destruct (add_arg_types (Registry.param_type p) (Registry.param_name p)
                            (Registry.param_group p) func) as [T1 [T2 T3]].
    split; [congruence|]. split; [|split].
    + rewrite H2, T2, <- app_assoc. reflexivity.
    + rewrite H2', T3, <- app_assoc. reflexivity.
    + intros H. apply H3. now apply add_arg_ok.
Qed.

Lemma same_signatures_ok (reg : Registry.t) (fs fs' : PyDict.t GLFunction.t) :
  same_signatures fs fs' -> signatures_ok reg fs -> signatures_ok reg fs'.
Proof.
  intros Hsame Hok k f' Hf'.
  destruct (Hsame _ _ Hf') as [f [Hf [Er Ea]]].
  destruct (Hok _ _ Hf) as [c [Hc [Hn [Hr [Ht [Hm Hall]]]]]].
  exists c. rewrite Er, Ea. auto 6.
Qed.

Lemma parse_function_definition_signature
      (c : Registry.command) (g : Generator.t) :
  exists func,
    Generator.functions (Generator.parse_function_definition c g)
    = PyDict.set (Registry.command_name c) func (Generator.functions g)
    /\ GLFunction.ret_type func = Registry.command_ret_type c
    /\ map GLFunction.arg_type (GLFunction.args func)
       = map Registry.param_type (Registry.command_params c)
    /\ map GLFunction.arg_name (GLFunction.args func)
       = map (fun p => renamed (Registry.param_name p))
             (Registry.command_params c)
    /\ Forall arg_ok (GLFunction.args func).
Proof.
  unfold Generator.parse_function_definition.
  destruct (add_args_signature
              (Registry.command_params c)
              (GLFunction.init (Registry.command_ret_type c)
                               (Registry.command_name c)))
    as [H1 [H2 [H2' H3]]].
  cbv zeta in H1, H2, H2', H3. simpl in H1, H2, H2'.
  specialize (H3 (Forall_nil _)).
  eexists. split; [reflexivity|].
  destruct (Registry.command_alias c); simpl; auto.
Qed.

Lemma parse_function_definitions_signatures
      (reg : Registry.t) (target : string) :
  signatures_ok reg
                (Generator.functions
                   (Generator.parse_function_definitions
                      reg (Generator.init target))).
Proof.
  unfold Generator.parse_function_definitions.
  assert (H : forall cs g,
             (forall c, In c cs -> In c (Registry.commands reg)) ->
             signatures_ok reg (Generator.functions g) ->
             signatures_ok
               reg
               (Generator.functions
                  (fold_left
                     (fun g c => Generator.parse_function_definition c g)
                     cs g))).
  { induction cs as [|c cs IH]; intros g Hin Hg; simpl; [exact Hg|].
    apply IH; [intros c' Hc'; apply Hin; now right|].
    destruct (parse_function_definition_signature c g)
      as [func [-> [Hr [Ht [Hm Hall]]]]].
    intros k f.
    destruct (String.eqb_spec k (Registry.command_name c)) as [->|Hne].
    - rewrite get_set_same. intros [= <-].
      exists c. split; [apply Hin; now left|]. auto.
    - rewrite get_set_other by assumption. apply Hg. }
  apply H; [auto|]. intros k f. discriminate.
Qed.

Lemma process_require_statement_signatures
      (reg : Registry.t)
      (condition loader human_name name : string) (g g' : Generator.t) :
  Generator.process_require_statement condition loader human_name name g
  = Ok g' ->
  freshly_parsed g /\ signatures_ok reg (Generator.functions g) ->
  freshly_parsed g' /\ signatures_ok reg (Generator.functions g').
Proof.
  intros Hstep [Hfresh Hok].
  split; [eapply process_require_statement_fresh; eauto|].
  destruct (process_require_statement_step _ _ _ _ _ Hstep)
    as [_ [func [Hfunc ->]]].
  destruct (not_wrapped g name).
  - intros k f.
    destruct (String.eqb_spec k name) as [->|Hne].
    + rewrite get_remove_same; [discriminate|exact (proj1 Hfresh)].
    + rewrite get_remove_other by assumption. apply Hok.
  - intros k f.
    destruct (String.eqb_spec k name) as [->|Hne].
    + rewrite get_set_same. intros [= <-].
      destruct (Hok _ _ Hfunc) as [c [Hc [Hn [Hr [Ht [Hm Hall]]]]]].
      exists c. simpl. auto 6.
    + rewrite get_set_other by assumption. apply Hok.
Qed.

Lemma parse_signatures (reg : Registry.t) (target : string) (g : Generator.t) :
  Generator.parse reg (Generator.init target) = Ok g ->
  signatures_ok reg (Generator.functions g).
Proof.
  unfold Generator.parse. intros H.
  destruct (parse_function_definitions_fresh reg target) as [Hfresh _].
  cbv zeta in Hfresh.
  refine (proj2 (@parse_function_providers_invariant
                   (fun g => freshly_parsed g
                             /\ signatures_ok reg (Generator.functions g))
                   _ _ reg _ g H _)).
  - intros g1 g2 _ E [[Hwf Hf] Hs].
    unfold freshly_parsed. rewrite E. auto.
  - intros c l h n g1 g2. apply process_require_statement_signatures.
  - split; [exact Hfresh|]. apply parse_function_definitions_signatures.
Qed.

Lemma same_payloads_signatures (fs fs' : PyDict.t GLFunction.t) :
  same_payloads fs fs' -> same_signatures fs fs'.
Proof.
  intros [_ Hsame] k f' Hf'.
  destruct (Hsame _ _ Hf') as [f [Hf [_ [Er [_ Ea]]]]]. eauto.
Qed.

Lemma fixup_signatures (name loader : string) (g : Generator.t) :
  same_signatures (Generator.functions g)
                  (Generator.functions
                     (Generator.fixup_bootstrap_function name loader g)).
Proof.
  intros k f'. rewrite fixup_get.
  destruct (String.eqb_spec k name) as [->|Hne]; [|eauto].
  destruct (PyDict.get name (Generator.functions g)) as [func|];
    [|discriminate].
  simpl. intros [= <-]. exists func. auto.
Qed.

(** In a model the main loop builds, every function has the signature of a
    command of the registry with its name: the return type of the command,
    the types of its parameters in order, and the names of its parameters in
    order with near renamed hither and far renamed yon.  So no argument is
    named near or far, and an argument has a group entry exactly when its
    type is GLenum or GLbitfield. *)
Theorem generated_model_signatures
        (fuel : nat) (target : string) (reg : Registry.t) (g : Generator.t)
        (k : string) (f : GLFunction.t) :
  generate fuel target reg = Ok g ->
  PyDict.get k (Generator.functions g) = Some f ->
  (exists c,
      In c (Registry.commands reg)
      /\ Registry.command_name c = k
      /\ GLFunction.ret_type f = Registry.command_ret_type c
      /\ map GLFunction.arg_type (GLFunction.args f)
         = map Registry.param_type (Registry.command_params c)
      /\ map GLFunction.arg_name (GLFunction.args f)
         = map (fun p =>
                  if String.eqb (Registry.param_name p) "near" then "hither"
                  else if String.eqb (Registry.param_name p) "far" then "yon"
                       else Registry.param_name p)
               (Registry.command_params c))
  /\ forall a, In a (GLFunction.args f) ->
               GLFunction.arg_name a <> "near"
               /\ GLFunction.arg_name a <> "far"
               /\ (GLFunction.arg_group a <> None
                   <-> Str.mem (GLFunction.arg_type a)
                               ["GLenum"; "GLbitfield"] = true).
Proof.
  unfold generate. intros H Hf.
  apply bind_Ok in H. destruct H as [g1 [H1 H]].
  destruct (prepare_provider_enum_keeps _ H) as [Efs _].
  rewrite Efs in Hf. clear H Efs.
  destruct (load_model_stages _ _ _ H1)
    as [g0 [g3 [g4 [Hparse [_ [_ [Hsub [_ [Hres ->]]]]]]]]].
  assert (Hok : signatures_ok
                  reg
                  (Generator.functions
                     (Generator.fixup_bootstrap_function
                        "glXGetProcAddress" "epoxy_glx_dlsym({0})"
                        (Generator.fixup_bootstrap_function
                           "glGetIntegerv"
                           "epoxy_get_bootstrap_proc_address({0})"
                           (Generator.fixup_bootstrap_function
                              "glGetString"
                              "epoxy_get_bootstrap_proc_address({0})"
                              g4))))).
  { do 3 (eapply same_signatures_ok; [apply fixup_signatures|]).
    unfold Generator.resolve_aliases in Hres.
    destruct (resolve_loop_payloads _ _ _ Hres) as [Hsame _].
    eapply same_signatures_ok;
      [apply same_payloads_signatures; exact Hsame|].
    intros k' f' Hf'. apply (parse_signatures _ _ Hparse k').
    now apply Hsub. }
  destruct (Hok _ _ Hf) as [c [Hc [Hn [Hr [Ht [Hm Hall]]]]]].
  split; [exists c; auto 6|].
  intros a Ha. rewrite Forall_forall in Hall. exact (Hall a Ha).
Qed.

Lemma generated_model_signatures_witness :
  exists c,
    In c (Registry.commands Examples.depth_range)
    /\ Registry.command_name c = "glDepthRange"
    /\ "void" = Registry.command_ret_type c
    /\ ["GLdouble"; "GLdouble"]
       = map Registry.param_type (Registry.command_params c)
    /\ ["hither"; "yon"]
       = map (fun p =>
                if String.eqb (Registry.param_name p) "near" then "hither"
                else if String.eqb (Registry.param_name p) "far" then "yon"
                     else Registry.param_name p)
             (Registry.command_params c).
Proof.
  exact (proj1 (@generated_model_signatures
                  1 "gl" Examples.depth_range
                  Examples.depth_range_generated "glDepthRange"
                  Examples.depth_range_function
                  ltac:(vm_compute; reflexivity)
                  ltac:(vm_compute; reflexivity))).
Defined.

(** ** Alias chains that do not terminate *)






(** When an alias of another function names a command that is not declared,
    the KeyError of that lookup can come before the walk of the cycle is
    reached: alias resolution then raises instead of running on. *)
Lemma alias_cycle_behind_undeclared_alias :
  alias_trap (Generator.functions Examples.cycle_behind_undeclared)
             ["glA"; "glB"]
  /\ Generator.resolve_aliases 100 Examples.cycle_behind_undeclared
     = Raise (KeyError "glMissing").
Proof.
  split; [|vm_compute; reflexivity].
  intros k [<-|[<-|[]]]; eexists; (split; [reflexivity|]);
    (split; [discriminate|simpl; auto]).
Qed.

(** ** The rule of the provider identifiers *)









(** ** The order of the candidates does not depend on the gathering *)





